(** * strip_musicxml: the Noise Stripper and the Semantic Extractor

    A shallow embedding of [strip_musicxml.py].  The document tree is the
    [xml.etree.ElementTree] element tree; the compact record is the Python
    dict that [build_json] returns.

    Strings are [String.string]: a character stands for one code point in
    0..255, so the Python predicates on characters are given on that range
    (digits and blanks beyond Latin-1 are not represented). *)

From Stdlib Require Import ZArith List String Ascii Bool Lia.
From Stdlib Require Import DecimalString DecimalPos DecimalZ.
Import ListNotations.
Open Scope string_scope.
Open Scope Z_scope.

(** ** Python builtins used by the program *)

Module Py.

(** The two exceptions the conversions of the program can raise. *)
Inductive exn : Type := ValueError | OverflowError.

Inductive result (A : Type) : Type :=
| Ok (a : A)
| Raise (e : exn).
Arguments Ok {A} a.
Arguments Raise {A} e.

Definition code (c : ascii) : Z := Z.of_N (N_of_ascii c).

(** [str.isspace] on one character: the blanks that [str.strip] removes. *)
Definition isspace (c : ascii) : bool :=
  let n := code c in
  ((9 <=? n) && (n <=? 13)) || ((28 <=? n) && (n <=? 32))
  || (n =? 133) || (n =? 160).

(** The blanks that [int] and [float] skip around a literal: the file
    separators 28..31 are not among them. *)
Definition isspace_num (c : ascii) : bool :=
  let n := code c in
  ((9 <=? n) && (n <=? 13)) || (n =? 32) || (n =? 133) || (n =? 160).

Definition is_empty (s : string) : bool :=
  match s with EmptyString => true | String _ _ => false end.

Section Strip.
Variable blank : ascii -> bool.

Fixpoint lstrip_by (s : string) : string :=
  match s with
  | String c s' => if blank c then lstrip_by s' else s
  | EmptyString => EmptyString
  end.

Fixpoint rstrip_by (s : string) : string :=
  match s with
  | String c s' =>
      let r := rstrip_by s' in
      if is_empty r && blank c then EmptyString else String c r
  | EmptyString => EmptyString
  end.

Definition strip_by (s : string) : string := rstrip_by (lstrip_by s).
End Strip.

(** [s.strip()] *)
Definition strip : string -> string := strip_by isspace.

(** Truth value of a [str] or [None]: [if x:]. *)
Definition truthy (o : option string) : bool :=
  match o with
  | Some s => negb (is_empty s)
  | None => false
  end.

(** [x or ''] for a value known to be tested first. *)
Definition str_of (o : option string) : string :=
  match o with Some s => s | None => EmptyString end.

(** [c in s] for a one-character [c]. *)
Fixpoint contains (c : ascii) (s : string) : bool :=
  match s with
  | EmptyString => false
  | String d s' => Ascii.eqb c d || contains c s'
  end.

(** [s.split(c)] for a one-character separator: never empty. *)
Fixpoint split (c : ascii) (s : string) : list string :=
  match s with
  | EmptyString => [EmptyString]
  | String d s' =>
      if Ascii.eqb c d then EmptyString :: split c s'
      else match split c s' with
           | piece :: rest => String d piece :: rest
           | [] => [String d EmptyString]
           end
  end.

(** [l[-1]] of a list of strings. *)
Definition last_piece (l : list string) : string := List.last l EmptyString.

(** *** Integer literals: [int(s)] in base 10 *)

Definition is_digit (c : ascii) : bool := (48 <=? code c) && (code c <=? 57).
Definition digit_value (c : ascii) : Z := code c - 48.

(** A group of decimal digits in which single underscores may separate
    digits.  [prev] tells whether the previous character was a digit; the
    result is the value and the number of digits read. *)
Fixpoint digits_from (s : string) (prev : bool) (acc : Z) (len : Z)
  : option (Z * Z * string) :=
  match s with
  | String c s' =>
      if is_digit c
      then digits_from s' true (10 * acc + digit_value c) (len + 1)
      else if Ascii.eqb c "_" then
        match s' with
        | String d _ =>
            if prev && is_digit d then digits_from s' false acc len
            else None
        | EmptyString => None
        end
      else if prev then Some (acc, len, s) else None
  | EmptyString => if prev then Some (acc, len, s) else None
  end.

(** One or more digits, from the start of [s]. *)
Definition digits (s : string) : option (Z * Z * string) :=
  match s with
  | String c _ => if is_digit c then digits_from s false 0 0 else None
  | EmptyString => None
  end.

(** An optional sign: the factor and the rest. *)
Definition sign_of (s : string) : Z * string :=
  match s with
  | String "+" s' => (1, s')
  | String "-" s' => (-1, s')
  | _ => (1, s)
  end.

(** [int(s)] for a [str]: blanks around, a sign, digits.  (The bound that
    recent interpreters put on the number of digits is a setting of the
    interpreter and is left out.) *)
Definition int (s : string) : result Z :=
  let (sg, body) := sign_of (strip_by isspace_num s) in
  match digits body with
  | Some (v, _, EmptyString) => Ok (sg * v)
  | _ => Raise ValueError
  end.

(** [str(n)] for an [int]. *)
Definition str (n : Z) : string := NilZero.string_of_int (Z.to_int n).

(** *** Floats: [float(s)], [round(x)] and [int(x)]

    A float is kept by its exact value: a binary64 number is [m * 2^e]. *)
Inductive float : Type :=
| Finite (m e : Z)
| Inf
| NaN.

(** [a / b] rounded to the nearest integer, ties to even ([0 < b]). *)
Definition div_half_even (a b : Z) : Z :=
  let q := a / b in
  let r := a mod b in
  if 2 * r <? b then q
  else if b <? 2 * r then q + 1
  else if Z.even q then q else q + 1.

(** The binary64 number nearest to [a / b], for [0 <= a] and [0 < b]:
    53 significant bits, least exponent -1074, ties to even, and
    infinity from [2^1024 - 2^970] on. *)
Definition nearest_binary64 (a b : Z) : float :=
  if a =? 0 then Finite 0 0
  else
    let e0 := Z.log2 a - Z.log2 b in
    let below :=
      if 0 <=? e0 then a <? b * 2 ^ e0 else a * 2 ^ (- e0) <? b in
    let e := if below then e0 - 1 else e0 in
    let sh := Z.max (e - 52) (-1074) in
    let m :=
      if 0 <=? sh then div_half_even a (b * 2 ^ sh)
      else div_half_even (a * 2 ^ (- sh)) b in
    if (971 <? sh) || ((sh =? 971) && (2 ^ 53 <=? m)) then Inf
    else Finite m sh.

Definition lower (c : ascii) : ascii :=
  if (65 <=? code c) && (code c <=? 90)
  then ascii_of_N (N_of_ascii c + 32) else c.

Fixpoint lowercase (s : string) : string :=
  match s with
  | EmptyString => EmptyString
  | String c s' => String (lower c) (lowercase s')
  end.

(** Zero or more digits. *)
Definition digits_opt (s : string) : option (Z * Z * string) :=
  match s with
  | String c _ => if is_digit c then digits_from s false 0 0 else Some (0, 0, s)
  | EmptyString => Some (0, 0, s)
  end.

(** The exponent part: nothing, or [e], a sign and digits. *)
Definition exponent (s : string) : option Z :=
  match s with
  | EmptyString => Some 0
  | String c s' =>
      if Ascii.eqb (lower c) "e" then
        let (sg, body) := sign_of s' in
        match digits body with
        | Some (v, _, EmptyString) => Some (sg * v)
        | _ => None
        end
      else None
  end.

(** An unsigned decimal literal [d.dEx], [d.], [.d]: its digits [n] and
    its power of ten [k], for the value [n * 10^k]. *)
Definition decimal (s : string) : option (Z * Z) :=
  match digits_opt s with
  | Some (vi, li, String "." r) =>
      match digits_opt r with
      | Some (vf, lf, r') =>
          if 0 <? li + lf then
            match exponent r' with
            | Some ex => Some (vi * 10 ^ lf + vf, ex - lf)
            | None => None
            end
          else None
      | None => None
      end
  | Some (vi, li, r) =>
      if 0 <? li then
        match exponent r with
        | Some ex => Some (vi, ex)
        | None => None
        end
      else None
  | None => None
  end.

Definition signed (sg : Z) (x : float) : float :=
  match x with
  | Finite m e => Finite (sg * m) e
  | _ => x
  end.

(** [float(s)] for a [str]. *)
Definition float_of (s : string) : result float :=
  let (sg, body) := sign_of (strip_by isspace_num s) in
  let word := lowercase body in
  if String.eqb word "inf" || String.eqb word "infinity" then Ok Inf
  else if String.eqb word "nan" then Ok NaN
  else
    match decimal body with
    | Some (n, k) =>
        Ok (signed sg (if 0 <=? k then nearest_binary64 (n * 10 ^ k) 1
                       else nearest_binary64 n (10 ^ (- k))))
    | None => Raise ValueError
    end.

(** [round(x)] for a float: nearest integer, ties to even. *)
Definition round (x : float) : result Z :=
  match x with
  | Finite m e =>
      Ok (if 0 <=? e then m * 2 ^ e else div_half_even m (2 ^ (- e)))
  | Inf => Raise OverflowError
  | NaN => Raise ValueError
  end.

(** [int(x)] for a float: truncation towards zero. *)
Definition int_of_float (x : float) : result Z :=
  match x with
  | Finite m e =>
      Ok (if 0 <=? e then m * 2 ^ e else Z.quot m (2 ^ (- e)))
  | Inf => Raise OverflowError
  | NaN => Raise ValueError
  end.

Definition and_then {A B} (r : result A) (f : A -> result B) : result B :=
  match r with
  | Ok a => f a
  | Raise e => Raise e
  end.

End Py.

(** ** The document tree

    An [xml.etree.ElementTree.Element]: tag, attribute dict (insertion
    order kept), text and the ordered children.  The loader builds proper
    trees: no node is shared between two parents. *)

Unset Elimination Schemes.
Inductive Element : Type :=
| Elem (tag : string) (attrib : list (string * string))
       (text : option string) (children : list Element).
Set Elimination Schemes.

Definition tag (e : Element) : string :=
  match e with Elem t _ _ _ => t end.
Definition attrib (e : Element) : list (string * string) :=
  match e with Elem _ a _ _ => a end.
Definition text (e : Element) : option string :=
  match e with Elem _ _ x _ => x end.
Definition children (e : Element) : list Element :=
  match e with Elem _ _ _ cs => cs end.

Section Element_tree_ind.
Variable P : Element -> Prop.
Hypothesis P_Elem :
  forall t a x cs, Forall P cs -> P (Elem t a x cs).

Fixpoint Element_tree_ind (e : Element) : P e :=
  match e with
  | Elem t a x cs =>
      P_Elem t a x cs
        ((fix all (l : list Element) : Forall P l :=
            match l with
            | [] => Forall_nil P
            | c :: l' => Forall_cons c (Element_tree_ind c) (all l')
            end) cs)
  end.
End Element_tree_ind.

(** *** Dicts with string keys, in insertion order *)

Section Dict.
Context {V : Type}.

Fixpoint dict_get (d : list (string * V)) (k : string) : option V :=
  match d with
  | [] => None
  | (k', v) :: d' => if String.eqb k k' then Some v else dict_get d' k
  end.

(** [d[k] = v]: in place when the key is there, at the end otherwise. *)
Fixpoint dict_set (d : list (string * V)) (k : string) (v : V)
  : list (string * V) :=
  match d with
  | [] => [(k, v)]
  | (k', v') :: d' =>
      if String.eqb k k' then (k, v) :: d' else (k', v') :: dict_set d' k v
  end.

(** [del d[k]] *)
Definition dict_del (d : list (string * V)) (k : string)
  : list (string * V) :=
  filter (fun kv => negb (String.eqb k (fst kv))) d.

Definition keys (d : list (string * V)) : list string := map fst d.
End Dict.

(** [x in S] for a set of strings. *)
Definition mem (x : string) (S : list string) : bool :=
existsb (String.eqb x) S.

(** ** Configuration *)

Definition STRIP_ATTRS : list string :=
["color"; "default-x"; "default-y"; "font-family"; "font-size";
 "font-weight"; "font-style"; "justify"; "valign"; "enclosure";
 "print-object"].

Definition STRIP_ELEMENTS : list string :=
["page-layout"; "system-layout"; "staff-layout"; "appearance"; "credit";
 "music-font"; "word-font"; "lyric-font"; "lyric-language"; "print"].

Definition ACCIDENTALS : list (string * string) :=
[("2", "x"); ("1", "#"); ("0", ""); ("-1", "b"); ("-2", "bb")].

(** ** Helpers *)

(** [detag] on the tag itself: ['{ns}tag'] gives ['tag']. *)
Definition detag_name (tag : string) : string :=
if Py.contains "}" tag then Py.last_piece (Py.split "}" tag) else tag.

(** ** XML stripping *)

Module Stripper.

Definition detag (element : Element) : string := detag_name (tag element).


(** The loop of [strip_attributes] over a copy of the keys. *)
Definition strip_attrib (attrib : list (string * string))
: list (string * string) :=
fold_left
  (fun d attr => if mem attr STRIP_ATTRS then dict_del d attr else d)
  (keys attrib) attrib.

Definition strip_attributes (element : Element) : Element :=
match element with
| Elem t a x cs => Elem t (strip_attrib a) x cs
end.

(** [strip_tree] returns the tree it leaves behind.  The children marked
  for removal are dropped; each other child has its attributes stripped
  and is walked.  (The source strips the attributes of a child before it
  walks it; the two touch different fields, see
  [strip_attributes_strip_tree].) *)
Fixpoint strip_tree (parent : Element) : Element :=
match parent with
| Elem t a x cs =>
    Elem t a x
      ((fix walk (l : list Element) : list Element :=
          match l with
          | [] => []
          | child :: l' =>
              if mem (detag child) STRIP_ELEMENTS then walk l'
              else strip_attributes (strip_tree child) :: walk l'
          end) cs)
end.

(** The children part of [strip_tree], by name. *)
Fixpoint strip_children (l : list Element) : list Element :=
match l with
| [] => []
| child :: l' =>
    if mem (detag child) STRIP_ELEMENTS then strip_children l'
    else strip_attributes (strip_tree child) :: strip_children l'
end.

(** What [main] does to the root for the stripped-document form. *)
Definition strip_document (root : Element) : Element :=
strip_tree (strip_attributes root).

End Stripper.

(** ** JSON conversion *)

(** The values [build_json] stores in its dicts. *)
Unset Elimination Schemes.
Inductive json : Type :=
| JNull
| JBool (b : bool)
| JInt (n : Z)
| JStr (s : string)
| JList (l : list json)
| JDict (d : list (string * json)).
Set Elimination Schemes.

Definition pydict : Type := list (string * json).

(** [if cond: d[k] = v] *)
Definition set_if (cond : bool) (d : pydict) (k : string) (v : json)
: pydict :=
if cond then dict_set d k v else d.

(** [x is not None] *)
Definition is_some {A : Type} (o : option A) : bool :=
match o with Some _ => true | None => false end.

(** Truth value of a list. *)
Definition nonempty {A : Type} (l : list A) : bool :=
match l with [] => false | _ :: _ => true end.

(** A [str] or [None] as a value. *)
Definition json_of_str (o : option string) : json :=
match o with Some s => JStr s | None => JNull end.

(** The paths the program hands to [find], [findall] and [findtext]:
  ['a/b'] is [[Child "a"; Child "b"]], ['.//a'] is
  [[Self; Descendant "a"]], ['.//a/*'] is
  [[Self; Descendant "a"; AnyChild]]. *)
Inductive step : Type :=
| Self
| Child (name : string)
| Descendant (name : string)
| AnyChild.

Definition path : Type := list step.

(** Computations that may raise. *)
Class PyMonad (M : Type -> Type) : Type := {
ret : forall {A : Type}, A -> M A;
bind : forall {A B : Type}, M A -> (A -> M B) -> M B;
raise : forall {A : Type}, Py.exn -> M A
}.

Notation "x <- c ;; k" := (bind c (fun x => k))
(at level 61, c at next level, right associativity).

(** What the extractor asks of an element [E]: the attributes and methods
  of [Element] that [build_json] and its helpers use. *)
Class ElementAPI (M : Type -> Type) (E : Type) : Type := {
el_tag : E -> M string;                    (* element.tag *)
el_text : E -> M (option string);          (* element.text *)
el_get : E -> string -> M (option string); (* element.get(key) *)
el_children : E -> M (list E);             (* list(element) *)
el_iter : E -> string -> M (list E);       (* element.iter(tag) *)
el_findall : E -> path -> M (list E)       (* element.findall(path) *)
}.

(** The state of a [for] loop after one turn. *)
Inductive loop (S : Type) : Type :=
| Continue (s : S)
| Break (s : S).
Arguments Continue {S} s.
Arguments Break {S} s.

Definition SCHEMA : string :=
"measures[]{number, key_fifths?, time?, tempo?, dynamics[]?, wedges[]?, "
++ "pedals[]?, directions[]?, "
++ "notes[]{voice, staff, pitch|'rest', type, dots?, beam[]?, chord?, tie?, "
++ "grace?, artic[]?, ornament[]?, slur?, tuplet?}}".

Module Extractor.
Section Program.
Context {M : Type -> Type} {E : Type}.
Context {PM : PyMonad M} {API : ElementAPI M E}.

Definition lift {A : Type} (r : Py.result A) : M A :=
  match r with
  | Py.Ok a => ret a
  | Py.Raise e => raise e
  end.

(** [for x in xs: body], with [break]. *)
Fixpoint for_in {A S : Type} (xs : list A) (body : A -> S -> M (loop S))
  (s : S) : M S :=
  match xs with
  | [] => ret s
  | x :: xs' =>
      r <- body x s ;;
      match r with
      | Continue s' => for_in xs' body s'
      | Break s' => ret s'
      end
  end.

(** [element.find(path)]: the first match. *)
Definition find (element : E) (p : path) : M (option E) :=
  found <- el_findall element p ;;
  ret (hd_error found).

(** [element.findtext(path)]: [None] without a match, the text of the
    first match otherwise, [''] when that text is [None]. *)
Definition findtext (element : E) (p : path) : M (option string) :=
  el <- find element p ;;
  match el with
  | None => ret None
  | Some el => t <- el_text el ;; ret (Some (Py.str_of t))
  end.

(** [element.findtext(path, default)] with a [str] default. *)
Definition findtext_or (element : E) (p : path) (default : string)
  : M string :=
  t <- findtext element p ;;
  ret (match t with Some s => s | None => default end).

Definition detag (element : E) : M string :=
  tag <- el_tag element ;;
  ret (detag_name tag).

Definition pitch_name (pitch_el : option E) : M (option string) :=
  match pitch_el with
  | None => ret None
  | Some pitch_el =>
      step <- findtext_or pitch_el [Child "step"] "" ;;
      alter <- findtext_or pitch_el [Child "alter"] "0" ;;
      let alter := Py.strip alter in
      octave <- findtext_or pitch_el [Child "octave"] "" ;;
      alter_key <-
        match Py.and_then (Py.float_of alter) Py.round with
        | Py.Ok n => ret (Py.str n)
        | Py.Raise Py.ValueError => ret "0"
        | Py.Raise e => raise e
        end ;;
      let acc :=
        match dict_get ACCIDENTALS alter_key with
        | Some a => a
        | None => ""
        end in
      ret (Some (step ++ acc ++ octave))
  end.

(** [out.append(x.text.strip())] for each [x] with [if x.text]. *)
Definition texts_of (els : list E) (out : list string)
  : M (list string) :=
  for_in els
    (fun el out =>
       t <- el_text el ;;
       ret (Continue (if Py.truthy t
                      then (out ++ [Py.strip (Py.str_of t)])%list
                      else out)))
    out.

(** [out.append(detag(x))] for each [x]. *)
Definition tags_of (els : list E) (out : list string) : M (list string) :=
  for_in els
    (fun el out => t <- detag el ;; ret (Continue (out ++ [t])%list))
    out.

Definition strs (l : list string) : json := JList (map JStr l).

(** The body of the loop over the notes of a measure. *)
Definition build_note (note_el : E) : M pydict :=
  let n : pydict := [] in
  (* Voice and staff *)
  voice <- findtext note_el [Child "voice"] ;;
  staff <- findtext note_el [Child "staff"] ;;
  n <- (if Py.truthy voice
        then v <- lift (Py.int (Py.str_of voice)) ;;
             ret (dict_set n "voice" (JInt v))
        else ret n) ;;
  n <- (if Py.truthy staff
        then v <- lift (Py.int (Py.str_of staff)) ;;
             ret (dict_set n "staff" (JInt v))
        else ret n) ;;
  (* Pitch (or rest) *)
  rest_el <- find note_el [Child "rest"] ;;
  pitch_el <- find note_el [Child "pitch"] ;;
  n <- match rest_el, pitch_el with
       | Some _, _ => ret (dict_set n "pitch" (JStr "rest"))
       | None, Some _ =>
           p <- pitch_name pitch_el ;;
           ret (dict_set n "pitch" (json_of_str p))
       | None, None => ret n
       end ;;
  (* Duration type and dots *)
  ntype <- findtext note_el [Child "type"] ;;
  let n := set_if (Py.truthy ntype) n "type" (JStr (Py.str_of ntype)) in
  dot_els <- el_findall note_el [Child "dot"] ;;
  let dots := Z.of_nat (List.length dot_els) in
  let n := set_if (negb (dots =? 0)) n "dots" (JInt dots) in
  (* Chord *)
  chord_el <- find note_el [Child "chord"] ;;
  let n := set_if (is_some chord_el) n "chord" (JBool true) in
  (* Beaming *)
  beam_els <- el_findall note_el [Child "beam"] ;;
  beams <- texts_of beam_els [] ;;
  let n := set_if (nonempty beams) n "beam" (strs beams) in
  (* Grace note *)
  grace_el <- find note_el [Child "grace"] ;;
  let n := set_if (is_some grace_el) n "grace" (JBool true) in
  (* Tie *)
  tie_els <- el_findall note_el [Child "tie"] ;;
  n <- for_in tie_els
         (fun tie_el n =>
            tie_type <- el_get tie_el "type" ;;
            ret (if Py.truthy tie_type
                 then Break (dict_set n "tie" (JStr (Py.str_of tie_type)))
                 else Continue n))
         n ;;
  (* Articulations *)
  artic_els <- el_findall note_el [Self; Descendant "articulations"; AnyChild] ;;
  artics <- tags_of artic_els [] ;;
  let n := set_if (nonempty artics) n "artic" (strs artics) in
  (* Ornaments *)
  orn_els <- el_findall note_el [Self; Descendant "ornaments"; AnyChild] ;;
  ornaments <- tags_of orn_els [] ;;
  let n := set_if (nonempty ornaments) n "ornament" (strs ornaments) in
  (* Slur *)
  slur_els <- el_findall note_el [Self; Descendant "slur"] ;;
  n <- for_in slur_els
         (fun slur_el n =>
            slur_type <- el_get slur_el "type" ;;
            ret (if Py.truthy slur_type
                 then Break (dict_set n "slur" (JStr (Py.str_of slur_type)))
                 else Continue n))
         n ;;
  (* Tuplet *)
  tuplet_els <- el_findall note_el [Self; Descendant "tuplet"] ;;
  for_in tuplet_els
    (fun tuplet_el n =>
       tup_type <- el_get tuplet_el "type" ;;
       if String.eqb (Py.str_of tup_type) "start" then
         actual <- findtext note_el [Self; Descendant "actual-notes"] ;;
         normal <- findtext note_el [Self; Descendant "normal-notes"] ;;
         ret (Break
                (set_if (Py.truthy actual && Py.truthy normal) n "tuplet"
                   (JStr (Py.str_of actual ++ ":" ++ Py.str_of normal))))
       else ret (Continue n))
    n.

(** The four loops over the [direction] children of a measure have one
    shape: for each direction, for each match of a path below it, append
    an entry.  [inner] is the body of the inner loop. *)
Definition over_directions {A : Type} (measure_el : E) (p : path)
  (inner : E -> list A -> M (loop (list A))) : M (list A) :=
  dir_els <- el_findall measure_el [Child "direction"] ;;
  for_in dir_els
    (fun dir_el out =>
       els <- el_findall dir_el p ;;
       out <- for_in els inner out ;;
       ret (Continue out))
    [].

(** The bodies of the loops of a measure. *)
Definition metronome_body (metro : E) (m : pydict) : M (loop pydict) :=
  per_minute <- findtext metro [Child "per-minute"] ;;
  if Py.truthy per_minute then
    v <- lift (Py.and_then (Py.float_of (Py.str_of per_minute))
                 Py.int_of_float) ;;
    ret (Break (dict_set m "tempo" (JInt v)))
  else ret (Continue m).

Definition words_body (words_el : E) (directions : list string)
  : M (loop (list string)) :=
  t <- el_text words_el ;;
  ret (Continue (if Py.truthy t
                 then (directions ++ [Py.strip (Py.str_of t)])%list
                 else directions)).

Definition wedge_body (wedge_el : E) (wedges : list json)
  : M (loop (list json)) :=
  type <- el_get wedge_el "type" ;;
  let w : pydict := [("type", json_of_str type)] in
  num <- el_get wedge_el "number" ;;
  w <- (if Py.truthy num
        then v <- lift (Py.int (Py.str_of num)) ;;
             ret (dict_set w "number" (JInt v))
        else ret w) ;;
  ret (Continue (wedges ++ [JDict w])%list).

Definition pedal_body (pedal_el : E) (pedals : list json)
  : M (loop (list json)) :=
  type <- el_get pedal_el "type" ;;
  let p : pydict := [("type", json_of_str type)] in
  line <- el_get pedal_el "line" ;;
  let p := set_if (Py.truthy line) p "line"
             (JBool (String.eqb (Py.str_of line) "yes")) in
  ret (Continue (pedals ++ [JDict p])%list).

Definition note_body (note_el : E) (notes : list json)
  : M (loop (list json)) :=
  n <- build_note note_el ;;
  ret (Continue (notes ++ [JDict n])%list).

(** [for dyn_el in dir_el.find('.//dynamics') or []]: an element
    without children is false. *)
Definition dynamics_body (dir_el : E) (dynamics : list string)
  : M (loop (list string)) :=
  found <- find dir_el [Self; Descendant "dynamics"] ;;
  dyn_els <- match found with
             | Some d =>
                 cs <- el_children d ;;
                 ret (if nonempty cs then cs else [])
             | None => ret []
             end ;;
  dynamics <- tags_of dyn_els dynamics ;;
  ret (Continue dynamics).

(** The body of the loop over the measures. *)
Definition build_measure (measure_el : E) : M pydict :=
  number <- el_get measure_el "number" ;;
  number <- lift (match number with
                  | Some s => Py.int s
                  | None => Py.Ok 0
                  end) ;;
  let m : pydict := [("number", JInt number)] in
  (* Key signature *)
  key_el <- find measure_el [Self; Descendant "key"] ;;
  m <- match key_el with
       | Some key_el =>
           fifths <- findtext key_el [Child "fifths"] ;;
           match fifths with
           | Some fifths =>
               v <- lift (Py.int fifths) ;;
               ret (dict_set m "key_fifths" (JInt v))
           | None => ret m
           end
       | None => ret m
       end ;;
  (* Time signature *)
  time_el <- find measure_el [Self; Descendant "time"] ;;
  m <- match time_el with
       | Some time_el =>
           beats <- findtext time_el [Child "beats"] ;;
           beat_type <- findtext time_el [Child "beat-type"] ;;
           ret (set_if (Py.truthy beats && Py.truthy beat_type) m "time"
                  (JStr (Py.str_of beats ++ "/" ++ Py.str_of beat_type)))
       | None => ret m
       end ;;
  (* Tempo *)
  metros <- el_iter measure_el "metronome" ;;
  m <- for_in metros metronome_body m ;;
  (* Text directions *)
  directions <-
    over_directions measure_el [Self; Descendant "words"] words_body ;;
  let m := set_if (nonempty directions) m "directions" (strs directions) in
  (* Hairpin wedges *)
  wedges <-
    over_directions measure_el [Self; Descendant "wedge"] wedge_body ;;
  let m := set_if (nonempty wedges) m "wedges" (JList wedges) in
  (* Pedal markings *)
  pedals <-
    over_directions measure_el [Self; Descendant "pedal"] pedal_body ;;
  let m := set_if (nonempty pedals) m "pedals" (JList pedals) in
  (* Notes *)
  note_els <- el_findall measure_el [Child "note"] ;;
  notes <- for_in note_els note_body [] ;;
  (* Dynamics, attached to the measure *)
  dir_els <- el_findall measure_el [Child "direction"] ;;
  dynamics <- for_in dir_els dynamics_body [] ;;
  let m := set_if (nonempty dynamics) m "dynamics" (strs dynamics) in
  let m := set_if (nonempty notes) m "notes" (JList notes) in
  ret m.

(** The title: the work title, else the movement title, else [None]. *)
Definition title_of (root : E) : M (option string) :=
  work <- findtext root [Child "work"; Child "work-title"] ;;
  if Py.truthy work then ret work
  else
    movement <- findtext root [Child "movement-title"] ;;
    ret (if Py.truthy movement then movement else None).

Definition creator_body (creator : E) (score : pydict) : M (loop pydict) :=
  type <- el_get creator "type" ;;
  let role := Py.str_of type in
  if String.eqb role "composer" then
    t <- el_text creator ;;
    ret (Continue (dict_set score "composer" (json_of_str t)))
  else if String.eqb role "arranger" then
    t <- el_text creator ;;
    ret (Continue (dict_set score "arranger" (json_of_str t)))
  else ret (Continue score).

Definition measure_body (measure_el : E) (measures : list json)
  : M (loop (list json)) :=
  m <- build_measure measure_el ;;
  ret (Continue (measures ++ [JDict m])%list).

Definition build_json (root : E) : M pydict :=
  let score : pydict := [] in
  let score := dict_set score "_schema" (JStr SCHEMA) in
  title <- title_of root ;;
  let score := dict_set score "title" (json_of_str title) in
  let score := dict_set score "composer" JNull in
  let score := dict_set score "arranger" JNull in
  creators <- el_findall root [Child "identification"; Child "creator"] ;;
  score <- for_in creators creator_body score ;;
  (* Walk measures: the list under 'measures' grows by [append]. *)
  let score := dict_set score "measures" (JList []) in
  measure_els <- el_iter root "measure" ;;
  measures <- for_in measure_els measure_body [] ;;
  ret (dict_set score "measures" (JList measures)).

End Program.
End Extractor.

(** ** The element API on trees *)

Module ET.

(** All the nodes of a tree, the root first, in document order. *)
Fixpoint iter_all (e : Element) : list Element :=
match e with
| Elem _ _ _ cs => e :: flat_map iter_all cs
end.

Definition has_tag (name : string) (e : Element) : bool :=
String.eqb (tag e) name.

(** [element.iter(tag)] for a tag name. *)
Definition iter (e : Element) (name : string) : list Element :=
filter (has_tag name) (iter_all e).

(** The nodes below [e], without [e]. *)
Definition descendants (e : Element) : list Element :=
flat_map iter_all (children e).

Definition children_named (name : string) (e : Element) : list Element :=
filter (has_tag name) (children e).

Definition descendants_named (name : string) (e : Element) : list Element :=
filter (has_tag name) (descendants e).

(** One step of a path, applied to the matches so far. *)
Definition select (st : step) (result : list Element) : list Element :=
match st with
| Self => result
| Child name => flat_map (children_named name) result
| Descendant name => flat_map (descendants_named name) result
| AnyChild => flat_map children result
end.

(** [element.findall(path)] *)
Definition findall (e : Element) (p : path) : list Element :=
fold_left (fun result st => select st result) p [e].

(** [element.find(path)] *)
Definition find (e : Element) (p : path) : option Element :=
hd_error (findall e p).

(** [element.findtext(path)] *)
Definition findtext (e : Element) (p : path) : option string :=
match find e p with
| Some el => Some (Py.str_of (text el))
| None => None
end.

(** [element.get(key)] *)
Definition get (e : Element) (key : string) : option string :=
dict_get (attrib e) key.

End ET.

#[export] Instance result_monad : PyMonad Py.result := {
ret := @Py.Ok;
bind := @Py.and_then;
raise := @Py.Raise
}.

#[export] Instance tree_api : ElementAPI Py.result Element := {
el_tag e := Py.Ok (tag e);
el_text e := Py.Ok (text e);
el_get e key := Py.Ok (ET.get e key);
el_children e := Py.Ok (children e);
el_iter e name := Py.Ok (ET.iter e name);
el_findall e p := Py.Ok (ET.findall e p)
}.

(** The extractor run on a tree. *)
Module OnTree.
Definition pitch_name : option Element -> Py.result (option string) :=
Extractor.pitch_name.
Definition build_note : Element -> Py.result pydict := Extractor.build_note.
Definition build_measure : Element -> Py.result pydict :=
Extractor.build_measure.
Definition build_json : Element -> Py.result pydict := Extractor.build_json.
End OnTree.


(** ** The element API on a document in place

    The document is the state; an element is named by a handle, the path
    of child indices from the root.  Reading goes through the handle, so
    an update of the document is seen by later reads, as with the
    references of the program.  [del_attrib] is the one update that
    [strip_attributes] makes; the extractor is the same program as on
    trees, run on this API. *)

Module Store.

Definition handle : Type := list nat.

Fixpoint node_at (doc : Element) (h : handle) : option Element :=
  match h with
  | [] => Some doc
  | i :: h' =>
      match nth_error (children doc) i with
      | Some c => node_at c h'
      | None => None
      end
  end.

(** What a run gives: a value, an exception, or a handle that names no
    node any more. *)
Inductive outcome (A : Type) : Type :=
| Value (a : A)
| Raised (e : Py.exn)
| Stale.
Arguments Value {A} a.
Arguments Raised {A} e.
Arguments Stale {A}.

Definition St (A : Type) : Type := Element -> outcome A * Element.

Definition st_ret {A : Type} (a : A) : St A := fun doc => (Value a, doc).

Definition st_bind {A B : Type} (c : St A) (f : A -> St B) : St B :=
  fun doc =>
    match c doc with
    | (Value a, doc') => f a doc'
    | (Raised e, doc') => (Raised e, doc')
    | (Stale, doc') => (Stale, doc')
    end.

Definition st_raise {A : Type} (e : Py.exn) : St A :=
  fun doc => (Raised e, doc).

(** Read something off the node under a handle. *)
Definition read {A : Type} (h : handle) (f : Element -> A) : St A :=
  fun doc =>
    match node_at doc h with
    | Some e => (Value (f e), doc)
    | None => (Stale, doc)
    end.

(** Replace the node under a handle. *)
Fixpoint replace_at (doc : Element) (h : handle) (f : Element -> Element)
  : option Element :=
  match h with
  | [] => Some (f doc)
  | i :: h' =>
      match doc with
      | Elem t a x cs =>
          match nth_error cs i with
          | Some c =>
              match replace_at c h' f with
              | Some c' => Some (Elem t a x (firstn i cs ++ c' :: skipn (S i) cs))
              | None => None
              end
          | None => None
          end
      end
  end.

Definition update (h : handle) (f : Element -> Element) : St unit :=
  fun doc =>
    match replace_at doc h f with
    | Some doc' => (Value tt, doc')
    | None => (Stale, doc)
    end.

(** [del element.attrib[attr]] *)
Definition del_attrib (h : handle) (attr : string) : St unit :=
  update h (fun e =>
              match e with
              | Elem t a x cs => Elem t (dict_del a attr) x cs
              end).

(** A node with its handle. *)
Definition located : Type := handle * Element.

(** The nodes of the tree under [h], the root first, in document order,
    each with its handle. *)
Fixpoint iter_all_at (h : handle) (e : Element) : list located :=
  match e with
  | Elem _ _ _ cs =>
      (h, e)
      :: (fix walk (i : nat) (l : list Element) : list located :=
            match l with
            | [] => []
            | c :: l' => (iter_all_at (h ++ [i]) c ++ walk (S i) l')%list
            end) 0%nat cs
  end.

Fixpoint number_from (h : handle) (i : nat) (l : list Element)
  : list located :=
  match l with
  | [] => []
  | c :: l' => ((h ++ [i])%list, c) :: number_from h (S i) l'
  end.

Definition children_at (he : located) : list located :=
  number_from (fst he) 0 (children (snd he)).

Definition descendants_at (he : located) : list located :=
  flat_map (fun hc => iter_all_at (fst hc) (snd hc)) (children_at he).

Definition named (name : string) (l : list located) : list located :=
  filter (fun he => ET.has_tag name (snd he)) l.

Definition select_at (st : step) (result : list located) : list located :=
  match st with
  | Self => result
  | Child name => flat_map (fun he => named name (children_at he)) result
  | Descendant name =>
      flat_map (fun he => named name (descendants_at he)) result
  | AnyChild => flat_map children_at result
  end.

Definition findall_at (he : located) (p : path) : list located :=
  fold_left (fun result st => select_at st result) p [he].

End Store.

#[export] Instance store_monad : PyMonad Store.St := {
  ret := @Store.st_ret;
  bind := @Store.st_bind;
  raise := @Store.st_raise
}.

#[export] Instance store_api : ElementAPI Store.St Store.handle := {
  el_tag h := Store.read h tag;
  el_text h := Store.read h text;
  el_get h key := Store.read h (fun e => ET.get e key);
  el_children h := Store.read h (fun e => map fst (Store.children_at (h, e)));
  el_iter h name :=
    Store.read h
      (fun e => map fst (Store.named name (Store.iter_all_at h e)));
  el_findall h p := Store.read h (fun e => map fst (Store.findall_at (h, e) p))
}.

(** The extractor and the attribute stripper run on a document in place. *)
Module OnStore.

Definition build_json : Store.handle -> Store.St pydict :=
  Extractor.build_json.

Definition build_measure : Store.handle -> Store.St pydict :=
  Extractor.build_measure.

Definition build_note : Store.handle -> Store.St pydict :=
  Extractor.build_note.

(** [strip_attributes], with its [del]. *)
Definition strip_attributes (element : Store.handle) : Store.St unit :=
  attrs <- Store.read element (fun e => keys (attrib e)) ;;
  Extractor.for_in attrs
    (fun attr _ =>
       if mem attr STRIP_ATTRS
       then _ <- Store.del_attrib element attr ;; ret (Continue tt)
       else ret (Continue tt))
    tt.

(** A computation that leaves every document as it found it. *)
Definition read_only {A : Type} (c : Store.St A) : Prop :=
  forall doc, snd (c doc) = doc.

(** *** Vocabulary of the comparison with the run on trees *)

(** Every entry of a list names its node in the document. *)
Definition located_in (doc : Element) (l : list Store.located) : Prop :=
  Forall (fun he => Store.node_at doc (fst he) = Some (snd he)) l.

(** A result of the tree run, as an outcome of the run in place. *)
Definition outcome_of {A : Type} (r : Py.result A)   : Store.outcome A :=
  match r with
  | Py.Ok a => Store.Value a
  | Py.Raise e => Store.Raised e
  end.

Inductive option_rel {A B : Type} (R : A -> B -> Prop)
  : option A -> option B -> Prop :=
| rel_none : option_rel R None None
| rel_some (a : A) (b : B) : R a b -> option_rel R (Some a) (Some b).

(** The handle names the element in [doc]. *)
Definition names_node (doc : Element) (h : Store.handle) (e : Element)
  : Prop :=
  Store.node_at doc h = Some e.

(** The run in place leaves [doc] alone and ends as the run on the tree
    does, with related values. *)
Definition agrees (doc : Element) {A B : Type} (R : A -> B -> Prop)
  (cs : Store.St A) (ct : Py.result B) : Prop :=
  match ct with
  | Py.Ok b => exists a, cs doc = (Store.Value a, doc) /\ R a b
  | Py.Raise e => cs doc = (Store.Raised e, doc)
  end.

End OnStore.

(** ** Closed forms of the extractor on trees

  What [build_note] computes on a tree, written without the monad: the
  conversions that may raise first, the rest as a function.  The
  equations are proved below ([build_note_eq]). *)

Module Closed.

(** The test [if t.get('type'):] of the tie and slur loops. *)
Definition carries_type (t : Element) : bool := Py.truthy (ET.get t "type").

(** The test [t.get('type') == 'start'] of the tuplet loop. *)
Definition is_start (t : Element) : bool :=
String.eqb (Py.str_of (ET.get t "type")) "start".

Definition texts (els : list Element) : list string :=
flat_map
  (fun el => if Py.truthy (text el) then [Py.strip (Py.str_of (text el))]
             else [])
  els.

Definition names (els : list Element) : list string :=
map (fun el => detag_name (tag el)) els.

Definition first_typed (key : string) (els : list Element) (n : pydict)
: pydict :=
match List.find carries_type els with
| Some t => dict_set n key (JStr (Py.str_of (ET.get t "type")))
| None => n
end.

(** Voice, staff and pitch: the part of a note that can raise. *)
Definition note_front (el : Element) : Py.result pydict :=
let voice := ET.findtext el [Child "voice"] in
let staff := ET.findtext el [Child "staff"] in
Py.and_then
  (if Py.truthy voice
   then Py.and_then (Py.int (Py.str_of voice))
          (fun v => Py.Ok (dict_set [] "voice" (JInt v)))
   else Py.Ok [])
  (fun n =>
     Py.and_then
       (if Py.truthy staff
        then Py.and_then (Py.int (Py.str_of staff))
               (fun v => Py.Ok (dict_set n "staff" (JInt v)))
        else Py.Ok n)
       (fun n =>
          match ET.find el [Child "rest"], ET.find el [Child "pitch"] with
          | Some _, _ => Py.Ok (dict_set n "pitch" (JStr "rest"))
          | None, Some p =>
              Py.and_then (OnTree.pitch_name (Some p))
                (fun p => Py.Ok (dict_set n "pitch" (json_of_str p)))
          | None, None => Py.Ok n
          end)).

(** The rest of a note, from the dict [n] built so far. *)
Definition note_back (el : Element) (n : pydict) : pydict :=
let ntype := ET.findtext el [Child "type"] in
let dots := Z.of_nat (List.length (ET.findall el [Child "dot"])) in
let beams := texts (ET.findall el [Child "beam"]) in
let artics :=
  names (ET.findall el [Self; Descendant "articulations"; AnyChild]) in
let ornaments :=
  names (ET.findall el [Self; Descendant "ornaments"; AnyChild]) in
let actual := ET.findtext el [Self; Descendant "actual-notes"] in
let normal := ET.findtext el [Self; Descendant "normal-notes"] in
let n := set_if (Py.truthy ntype) n "type" (JStr (Py.str_of ntype)) in
let n := set_if (negb (dots =? 0)) n "dots" (JInt dots) in
let n := set_if (is_some (ET.find el [Child "chord"])) n "chord"
           (JBool true) in
let n := set_if (nonempty beams) n "beam" (Extractor.strs beams) in
let n := set_if (is_some (ET.find el [Child "grace"])) n "grace"
           (JBool true) in
let n := first_typed "tie" (ET.findall el [Child "tie"]) n in
let n := set_if (nonempty artics) n "artic" (Extractor.strs artics) in
let n := set_if (nonempty ornaments) n "ornament"
           (Extractor.strs ornaments) in
let n := first_typed "slur" (ET.findall el [Self; Descendant "slur"]) n in
match List.find is_start (ET.findall el [Self; Descendant "tuplet"]) with
| Some _ =>
    set_if (Py.truthy actual && Py.truthy normal) n "tuplet"
      (JStr (Py.str_of actual ++ ":" ++ Py.str_of normal))
| None => n
end.

(** The entries a loop appends, one element at a time, when the body may
  raise. *)
Fixpoint collect {A B : Type} (f : A -> Py.result (list B)) (xs : list A)
: Py.result (list B) :=
match xs with
| [] => Py.Ok []
| x :: xs' =>
    Py.and_then (f x)
      (fun l => Py.and_then (collect f xs') (fun ls => Py.Ok (l ++ ls)%list))
end.

(** The matches of [.//name] below the [direction] children of a measure,
  in the order of the two nested loops. *)
Definition under_directions (name : string) (el : Element) : list Element :=
flat_map (ET.descendants_named name) (ET.children_named "direction" el).

Definition measure_number (el : Element) : Py.result Z :=
match ET.get el "number" with
| Some s => Py.int s
| None => Py.Ok 0
end.

Definition key_step (el : Element) (m : pydict) : Py.result pydict :=
match ET.find el [Self; Descendant "key"] with
| Some key_el =>
    match ET.findtext key_el [Child "fifths"] with
    | Some fifths =>
        Py.and_then (Py.int fifths)
          (fun v => Py.Ok (dict_set m "key_fifths" (JInt v)))
    | None => Py.Ok m
    end
| None => Py.Ok m
end.

Definition time_step (el : Element) (m : pydict) : pydict :=
match ET.find el [Self; Descendant "time"] with
| Some time_el =>
    let beats := ET.findtext time_el [Child "beats"] in
    let beat_type := ET.findtext time_el [Child "beat-type"] in
    set_if (Py.truthy beats && Py.truthy beat_type) m "time"
      (JStr (Py.str_of beats ++ "/" ++ Py.str_of beat_type))
| None => m
end.

Definition has_per_minute (metro : Element) : bool :=
Py.truthy (ET.findtext metro [Child "per-minute"]).

Definition tempo_step (el : Element) (m : pydict) : Py.result pydict :=
match List.find has_per_minute (ET.iter el "metronome") with
| Some metro =>
    Py.and_then
      (Py.and_then
         (Py.float_of (Py.str_of (ET.findtext metro [Child "per-minute"])))
         Py.int_of_float)
      (fun v => Py.Ok (dict_set m "tempo" (JInt v)))
| None => Py.Ok m
end.

Definition directions (el : Element) : list string :=
texts (under_directions "words" el).

Definition wedge_entry (wedge_el : Element) : Py.result (list json) :=
let w : pydict := [("type", json_of_str (ET.get wedge_el "type"))] in
let num := ET.get wedge_el "number" in
Py.and_then
  (if Py.truthy num
   then Py.and_then (Py.int (Py.str_of num))
          (fun v => Py.Ok (dict_set w "number" (JInt v)))
   else Py.Ok w)
  (fun w => Py.Ok [JDict w]).

Definition wedges (el : Element) : Py.result (list json) :=
collect wedge_entry (under_directions "wedge" el).

Definition pedal_entry (pedal_el : Element) : list json :=
let p : pydict := [("type", json_of_str (ET.get pedal_el "type"))] in
let line := ET.get pedal_el "line" in
[JDict (set_if (Py.truthy line) p "line"
          (JBool (String.eqb (Py.str_of line) "yes")))].

Definition pedals (el : Element) : list json :=
flat_map pedal_entry (under_directions "pedal" el).

Definition note_entry (note_el : Element) : Py.result (list json) :=
Py.and_then (OnTree.build_note note_el) (fun n => Py.Ok [JDict n]).

Definition notes (el : Element) : Py.result (list json) :=
collect note_entry (ET.children_named "note" el).

Definition dynamics_entry (dir_el : Element) : list string :=
match ET.find dir_el [Self; Descendant "dynamics"] with
| Some d => names (children d)
| None => []
end.

Definition dynamics (el : Element) : list string :=
flat_map dynamics_entry (ET.children_named "direction" el).

(** A measure, step by step. *)
Definition measure (el : Element) : Py.result pydict :=
Py.and_then (measure_number el) (fun number =>
Py.and_then (key_step el [("number", JInt number)]) (fun m =>
Py.and_then (tempo_step el (time_step el m)) (fun m =>
Py.and_then (wedges el) (fun wedges =>
Py.and_then (notes el) (fun notes =>
let m := set_if (nonempty (directions el)) m "directions"
           (Extractor.strs (directions el)) in
let m := set_if (nonempty wedges) m "wedges" (JList wedges) in
let m := set_if (nonempty (pedals el)) m "pedals" (JList (pedals el)) in
let m := set_if (nonempty (dynamics el)) m "dynamics"
           (Extractor.strs (dynamics el)) in
let m := set_if (nonempty notes) m "notes" (JList notes) in
Py.Ok m))))).

(** The key under which [pitch_name] looks the accidental up. *)
Definition alter_key (alter : string) : Py.result string :=
  match Py.and_then (Py.float_of alter) Py.round with
  | Py.Ok n => Py.Ok (Py.str n)
  | Py.Raise Py.ValueError => Py.Ok "0"
  | Py.Raise e => Py.Raise e
  end.

Definition accidental (key : string) : string :=
  match dict_get ACCIDENTALS key with
  | Some a => a
  | None => ""
  end.

Definition pitch (pitch_el : Element) : Py.result (option string) :=
  let step := ET.findtext pitch_el [Child "step"] in
  let alter := ET.findtext pitch_el [Child "alter"] in
  let octave := ET.findtext pitch_el [Child "octave"] in
  Py.and_then
    (alter_key (Py.strip (match alter with Some s => s | None => "0" end)))
    (fun key =>
       Py.Ok (Some (Py.str_of step ++ accidental key ++ Py.str_of octave))).

(** The accidental mapping as the spec words it: from the rounded
    alteration, -2..2, to the symbol; no symbol outside. *)
Definition symbol (n : Z) : string :=
  match n with
  | -2 => "bb"
  | -1 => "b"
  | 0 => ""
  | 1 => "#"
  | 2 => "x"
  | _ => ""
  end.

Definition title (root : Element) : option string :=
  let work := ET.findtext root [Child "work"; Child "work-title"] in
  let movement := ET.findtext root [Child "movement-title"] in
  if Py.truthy work then work
  else if Py.truthy movement then movement else None.

(** The role of a creator entry: its type attribute, [''] without one. *)
Definition role (creator : Element) : string :=
  Py.str_of (ET.get creator "type").

Definition creator_update (score : pydict) (creator : Element) : pydict :=
  if String.eqb (role creator) "composer"
  then dict_set score "composer" (json_of_str (text creator))
  else if String.eqb (role creator) "arranger"
  then dict_set score "arranger" (json_of_str (text creator))
  else score.

Definition creators (root : Element) : list Element :=
  ET.findall root [Child "identification"; Child "creator"].

(** The score before the walk over the measures. *)
Definition score_head (root : Element) : pydict :=
  fold_left creator_update (creators root)
    [("_schema", JStr SCHEMA); ("title", json_of_str (title root));
     ("composer", JNull); ("arranger", JNull)].

Definition measure_entry (measure_el : Element) : Py.result (list json) :=
  Py.and_then (OnTree.build_measure measure_el) (fun m => Py.Ok [JDict m]).

Definition measures (root : Element) : Py.result (list json) :=
  collect measure_entry (ET.iter root "measure").

Definition score (root : Element) : Py.result pydict :=
  Py.and_then (measures root)
    (fun ms => Py.Ok (score_head root ++ [("measures", JList ms)])%list).

End Closed.

(** ** Trees without namespaces

    The tree that C5 compares with: the same tree, every tag replaced by
    its bare name. *)
Fixpoint without_namespaces (e : Element) : Element :=
  match e with
  | Elem t a x cs => Elem (detag_name t) a x (map without_namespaces cs)
  end.

(** The element names the Semantic Extractor hands to [iter], [find],
    [findall] and [findtext], in the order of the source. *)
Definition LOOKUP_NAMES : list string :=
  ["work"; "work-title"; "movement-title"; "identification"; "creator";
   "measure"; "key"; "fifths"; "time"; "beats"; "beat-type"; "metronome";
   "per-minute"; "direction"; "words"; "wedge"; "pedal"; "note"; "voice";
   "staff"; "rest"; "pitch"; "step"; "alter"; "octave"; "type"; "dot";
   "chord"; "beam"; "grace"; "tie"; "articulations"; "ornaments"; "slur";
   "tuplet"; "actual-notes"; "normal-notes"; "dynamics"].

(** A node whose tag, if it is qualified, has a bare name the extractor
    never looks up. *)
Definition lookup_free (node : Element) : Prop :=
  Py.contains "}" (tag node) = true ->
  mem (detag_name (tag node)) LOOKUP_NAMES = false.

(** No qualified tag of the tree has a bare name the extractor looks
    up. *)
Definition lookups_unqualified (e : Element) : Prop :=
  Forall lookup_free (ET.iter_all e).

(** A step of a path that names an element names one of
    [LOOKUP_NAMES]. *)
Definition looked_up (st : step) : Prop :=
  match st with
  | Child name | Descendant name => mem name LOOKUP_NAMES = true
  | Self | AnyChild => True
  end.

(** Every tag of the tree is qualified, as in a document with a default
    namespace. *)
Definition all_qualified (e : Element) : Prop :=
  Forall (fun node => Py.contains "}" (tag node) = true) (ET.iter_all e).

(** The score of a document in which the extractor finds nothing. *)
Definition empty_score : pydict :=
  [("_schema", JStr SCHEMA); ("title", JNull); ("composer", JNull);
   ("arranger", JNull); ("measures", JList [])].

(** ** Vocabulary of the specification *)

Module Spec.
Import Closed.

(** A tie marker that carries a type attribute, as C8 words it: the
    attribute is there, whatever its value. *)
Definition has_type_attribute (t : Element) : bool :=
  is_some (ET.get t "type").

(** A tuplet marker of type start, anywhere below the note. *)
Definition tuplet_start (note_el : Element) : Prop :=
  exists t, In t (ET.descendants_named "tuplet" note_el)
            /\ ET.get t "type" = Some "start".

(** The count under [name] can be read from the note: [findtext] on the
    note gives a text that is not empty. *)
Definition count_read (note_el : Element) (name : string) (c : string) : Prop :=
  ET.findtext note_el [Self; Descendant name] = Some c /\ c <> "".

(** The optional fields and the element that carries each in the source. *)
Definition field_sources : list (string * string) :=
  [("key_fifths", "key"); ("time", "time"); ("tempo", "metronome");
   ("dynamics", "dynamics"); ("directions", "words"); ("wedges", "wedge");
   ("pedals", "pedal")].

(** The directions list as C7 words it: the trimmed text of each words
    element below a direction child, texts that are empty or blank
    skipped. *)
Definition directions_without_blanks (el : Element) : list string :=
  flat_map
    (fun w => let t := Py.strip (Py.str_of (text w)) in
              if Py.is_empty t then [] else [t])
    (under_directions "words" el).

Definition list_field (l : list string) : option json :=
  if nonempty l then Some (Extractor.strs l) else None.

Definition head_keys : list string :=
  ["_schema"; "title"; "composer"; "arranger"].

End Spec.

(** ** Example documents *)

Module Examples.

Definition two_ties : Element :=
  Elem "note" [] None
    [Elem "pitch" [] None
       [Elem "step" [] (Some "G") []; Elem "octave" [] (Some "4") []];
     Elem "tie" [("type", "start")] None [];
     Elem "tie" [("type", "stop")] None []].

Definition triplet_note : Element :=
  Elem "note" [] None
    [Elem "time-modification" [] None
       [Elem "actual-notes" [] (Some "3") [];
        Elem "normal-notes" [] (Some "2") []];
     Elem "notations" [] None [Elem "tuplet" [("type", "start")] None []]].

Definition plain_measure : Element :=
  Elem "measure" [("number", "7")] None
    [Elem "direction" [] None
       [Elem "direction-type" [] None [Elem "rehearsal" [] (Some "A") []]];
     Elem "barline" [] None []].

Definition measure_x1 : Element := Elem "measure" [("number", "X1")] None [].


Definition blank_words : Element :=
  Elem "measure" [("number", "1")] None
    [Elem "direction" [] None
       [Elem "direction-type" [] None
          [Elem "words" [] (Some " dolce ") [];
           Elem "words" [] (Some "  ") [];
           Elem "words" [] None []]]].

Definition pitch_of (s a o : string) : Element :=
  Elem "pitch" [] None
    [Elem "step" [] (Some s) []; Elem "alter" [] (Some a) [];
     Elem "octave" [] (Some o) []].

Definition infinite_alter_score : Element :=
  Elem "score-partwise" [] None
    [Elem "part" [] None
       [Elem "measure" [("number", "1")] None
          [Elem "note" [] None [pitch_of "C" "inf" "4"]]]].

(** The one-measure score of the specification: a time signature 3/4, a
    metronome marking of 96 and a quarter note C5 raised by one. *)
Definition one_measure_score : Element :=
  Elem "score-partwise" [] None
    [Elem "part" [("id", "P1")] None
       [Elem "measure" [("number", "1")] None
          [Elem "attributes" [] None
             [Elem "time" [] None
                [Elem "beats" [] (Some "3") [];
                 Elem "beat-type" [] (Some "4") []]];
           Elem "direction" [] None
             [Elem "direction-type" [] None
                [Elem "metronome" [] None
                   [Elem "beat-unit" [] (Some "quarter") [];
                    Elem "per-minute" [] (Some "96") []]]];
           Elem "note" [] None
             [pitch_of "C" "1" "5"; Elem "type" [] (Some "quarter") []]]]].

(** A measure with a layout child and a visual attribute. *)
Definition laid_out_measure : Element :=
  Elem "measure" [("number", "1"); ("print-object", "no")] None
    [Elem "page-layout" [] None [Elem "page-height" [] (Some "1683") []];
     Elem "note" [("default-x", "83.5"); ("id", "n1")] None
       [Elem "rest" [] None []]].

Definition untitled_score : Element :=
  Elem "score-partwise" [] None
    [Elem "part" [("id", "P1")] None
       [Elem "measure" [("number", "1")] None []]].

Definition qualified_score : Element :=
  Elem "{http://www.musicxml.org/ns}score-partwise" [] None
    [Elem "{http://www.musicxml.org/ns}part" [("id", "P1")] None
       [Elem "{http://www.musicxml.org/ns}measure" [("number", "1")] None []]].

(** A score with qualified tags only where the extractor decodes a name
    and looks nothing up. *)
Definition partly_qualified_score : Element :=
  Elem "score-partwise" [] None
    [Elem "part" [("id", "P1")] None
       [Elem "measure" [("number", "1")] None
          [Elem "direction" [] None
             [Elem "direction-type" [] None
                [Elem "dynamics" [] None [Elem "{urn:x}pp" [] None []]]];
           Elem "note" [] None
             [Elem "pitch" [] None
                [Elem "step" [] (Some "A") [];
                 Elem "octave" [] (Some "3") []];
              Elem "notations" [] None
                [Elem "articulations" [] None
                   [Elem "{urn:x}accent" [] None []]]]]]].

(** A note whose first tie has an empty type attribute. *)
Definition empty_type_tie : Element :=
  Elem "note" [] None
    [Elem "tie" [("type", "")] None [];
     Elem "tie" [("type", "stop")] None []].

End Examples.

(** ** Vocabulary of the further properties *)

Module More.

(** [l] is [l'] with some entries left out, the order kept. *)
Inductive subseq {A : Type} : list A -> list A -> Prop :=
| subseq_nil : subseq [] []
| subseq_skip (x : A) (l l' : list A) : subseq l l' -> subseq l (x :: l')
| subseq_keep (x : A) (l l' : list A) :
    subseq l l' -> subseq (x :: l) (x :: l').

(** No attribute of the node is on the denylist. *)
Definition attributes_kept (node : Element) : Prop :=
  Forall (fun kv => mem (fst kv) STRIP_ATTRS = false) (attrib node).

(** The bare tag of the node is not on the denylist. *)
Definition element_kept (node : Element) : Prop :=
  mem (Stripper.detag node) STRIP_ELEMENTS = false.

(** A tree the stripper has nothing to do on: no denylisted attribute on
    any node, no denylisted element below the root. *)
Definition stripped (root : Element) : Prop :=
  Forall attributes_kept (ET.iter_all root)
  /\ Forall element_kept (ET.descendants root).

(** What is compared when elements are matched up: tag and text. *)
Definition tag_text (node : Element) : string * option string :=
  (tag node, text node).

(** A list field of a record: there when the list is not empty. *)
Definition field_of (l : list json) : option json :=
  match l with
  | [] => None
  | _ :: _ => Some (JList l)
  end.

(** The record of a wedge: its type, null without one, and its number
    when the attribute is there and not empty. *)
Definition wedge_record (wedge_el : Element) (w : pydict) : Prop :=
  match ET.get wedge_el "number" with
  | Some (String c s) =>
      exists v, Py.int (String c s) = Py.Ok v
                /\ w = [("type", json_of_str (ET.get wedge_el "type"));
                        ("number", JInt v)]
  | _ => w = [("type", json_of_str (ET.get wedge_el "type"))]
  end.

(** The record of a pedal marking: its type, and whether its line
    attribute, when there and not empty, is [yes]. *)
Definition pedal_record (pedal_el : Element) : pydict :=
  match ET.get pedal_el "line" with
  | Some (String c s) =>
      [("type", json_of_str (ET.get pedal_el "type"));
       ("line", JBool (String.eqb (String c s) "yes"))]
  | _ => [("type", json_of_str (ET.get pedal_el "type"))]
  end.

(** The text of an element as the list loops take it: stripped when it
    is there and not empty. *)
Definition text_entry (el : Element) : list string :=
  match text el with
  | Some (String c s) => [Py.strip (String c s)]
  | _ => []
  end.

(** The value stored for a text that passed the test [if t:]. *)
Definition text_field (o : option string) : option json :=
  match o with
  | Some (String c s) => Some (JStr (String c s))
  | _ => None
  end.

(** The keys of a measure record after [number], in the order the program
    writes them. *)
Definition measure_keys : list string :=
  ["key_fifths"; "time"; "tempo"; "directions"; "wedges"; "pedals";
   "dynamics"; "notes"].

(** The keys of a note record, in the order the program writes them. *)
Definition note_keys : list string :=
  ["voice"; "staff"; "pitch"; "type"; "dots"; "chord"; "beam"; "grace";
   "tie"; "artic"; "ornament"; "slur"; "tuplet"].

(** The tree with the attribute pass of the stripper run on every node
    and no element removed. *)
Fixpoint bare (e : Element) : Element :=
  match e with
  | Elem t a x cs => Elem t (Stripper.strip_attrib a) x (map bare cs)
  end.

End More.

(** ** Further example documents *)

Module MoreExamples.

(** A score whose second measure has a number that is no integer. *)
Definition second_measure_fails : Element :=
  Elem "score-partwise" [] None
    [Elem "part" [("id", "P1")] None
       [Elem "measure" [("number", "1")] None [];
        Elem "measure" [("number", "X1")] None [];
        Elem "measure" [("number", "3")] None []]].

(** Two composers, the second without a text, and an empty work title. *)
Definition two_composers : Element :=
  Elem "score-partwise" [] None
    [Elem "work" [] None [Elem "work-title" [] None []];
     Elem "movement-title" [] (Some "Allegro") [];
     Elem "identification" [] None
       [Elem "creator" [("type", "composer")] (Some "A. Composer") [];
        Elem "creator" [("type", "lyricist")] (Some "A. Poet") [];
        Elem "creator" [("type", "composer")] None []]].

(** A rest that also has a pitch, one with an alteration that reads as
    an infinity. *)
Definition rest_note : Element :=
  Elem "note" [] None
    [Elem "rest" [] None [];
     Elem "pitch" [] None
       [Elem "step" [] (Some "C") []; Elem "alter" [] (Some "inf") [];
        Elem "octave" [] (Some "4") []];
     Elem "voice" [] (Some "1") []; Elem "type" [] (Some "half") []].

(** A rest whose voice is no integer. *)
Definition rest_bad_voice : Element :=
  Elem "note" [] None
    [Elem "rest" [] None []; Elem "voice" [] (Some "1.5") []].

Definition rest_record : pydict :=
  [("voice", JInt 1); ("pitch", JStr "rest"); ("type", JStr "half")].

Definition first_staccato : Element :=
  Elem "articulations" [] None [Elem "staccato" [] None []].

Definition then_accent : Element :=
  Elem "articulations" [] None [Elem "{urn:x}accent" [] None []].

Definition trill : Element :=
  Elem "ornaments" [] None [Elem "trill-mark" [] None []].

(** A note with dots, beams, two slurs and two groups of articulations. *)
Definition dotted_note : Element :=
  Elem "note" [] None
    [Elem "pitch" [] None
       [Elem "step" [] (Some "E") []; Elem "alter" [] (Some "-1") [];
        Elem "octave" [] (Some "4") []];
     Elem "staff" [] (Some "2") [];
     Elem "type" [] (Some "quarter") [];
     Elem "dot" [] None []; Elem "dot" [] None [];
     Elem "chord" [] None [];
     Elem "beam" [("number", "1")] (Some " begin ") [];
     Elem "beam" [("number", "2")] None [];
     Elem "notations" [] None
       [Elem "slur" [] None [];
        first_staccato;
        Elem "slur" [("type", "stop")] None [];
        then_accent;
        trill]].

Definition dotted_record : pydict :=
  [("staff", JInt 2); ("pitch", JStr "Eb4"); ("type", JStr "quarter");
   ("dots", JInt 2); ("chord", JBool true); ("beam", JList [JStr "begin"]);
   ("artic", JList [JStr "staccato"; JStr "accent"]);
   ("ornament", JList [JStr "trill-mark"]); ("slur", JStr "stop")].

Definition silent_metronome : Element :=
  Elem "metronome" [] None [Elem "per-minute" [] None []].

Definition metronome_96 : Element :=
  Elem "metronome" [] None [Elem "per-minute" [] (Some "96.7") []].

(** A measure with every kind of marking the extractor reads. *)
Definition busy_measure : Element :=
  Elem "measure" [("number", "12")] None
    [Elem "attributes" [] None
       [Elem "key" [] None [Elem "fifths" [] (Some "-3") []];
        Elem "time" [] None
          [Elem "beats" [] (Some "6") []; Elem "beat-type" [] (Some "8") []]];
     Elem "direction" [] None
       [Elem "direction-type" [] None [silent_metronome]];
     Elem "direction" [] None
       [Elem "direction-type" [] None [metronome_96];
        Elem "direction-type" [] None
          [Elem "dynamics" [] None [Elem "pp" [] None []]];
        Elem "direction-type" [] None
          [Elem "dynamics" [] None [Elem "ff" [] None []]];
        Elem "direction-type" [] None
          [Elem "wedge" [("type", "crescendo"); ("number", "1")] None []];
        Elem "direction-type" [] None
          [Elem "wedge" [("number", "")] None []];
        Elem "direction-type" [] None
          [Elem "pedal" [("type", "start"); ("line", "no")] None []]];
     rest_note;
     dotted_note].

Definition busy_record : pydict :=
  [("number", JInt 12); ("key_fifths", JInt (-3)); ("time", JStr "6/8");
   ("tempo", JInt 96);
   ("wedges",
    JList [JDict [("type", JStr "crescendo"); ("number", JInt 1)];
           JDict [("type", JNull)]]);
   ("pedals", JList [JDict [("type", JStr "start"); ("line", JBool false)]]);
   ("dynamics", JList [JStr "pp"]);
   ("notes", JList [JDict rest_record; JDict dotted_record])].

(** A score with layout attributes on its elements and no layout
    element. *)
Definition colored_score : Element :=
  Elem "score-partwise" [("version", "4.0")] None
    [Elem "movement-title" [("font-size", "24")] (Some "Air") [];
     Elem "part" [("id", "P1")] None
       [Elem "measure" [("number", "1"); ("default-x", "12")] None
          [Elem "note" [("color", "#FF0000")] None
             [Elem "pitch" [] None
                [Elem "step" [] (Some "D") [];
                 Elem "octave" [] (Some "5") []];
              Elem "type" [] (Some "whole") []]]]].

Definition two_composers_record : pydict :=
  [("_schema", JStr SCHEMA); ("title", JStr "Allegro"); ("composer", JNull);
   ("arranger", JNull); ("measures", JList [])].

End MoreExamples.

(** * Theorems *)

(** ** The Noise Stripper *)

Module StripperFacts.
Import Stripper.

Lemma strip_tree_eq t a x cs :
  strip_tree (Elem t a x cs) = Elem t a x (strip_children cs).
Proof. reflexivity. Qed.

Lemma strip_attributes_strip_tree e :
  strip_attributes (strip_tree e) = strip_tree (strip_attributes e).
Proof. destruct e as [t a x cs]. now rewrite !strip_tree_eq. Qed.

Lemma filter_filter {A} (p q : A -> bool) (l : list A) :
  filter p (filter q l) = filter (fun x => q x && p x) l.
Proof.
  induction l as [|y l IH]; simpl; [reflexivity|].
  destruct (q y); simpl; [destruct (p y)|]; now rewrite IH.
Qed.

Lemma filter_all {A} (p : A -> bool) (l : list A) :
  (forall x, p x = true) -> filter p l = l.
Proof.
  intro H. induction l as [|y l IH]; simpl; [reflexivity|].
  now rewrite H, IH.
Qed.

Lemma strip_loop_filter (ks : list string) (d : list (string * string)) :
  fold_left
    (fun d attr => if mem attr STRIP_ATTRS then dict_del d attr else d) ks d
  = filter (fun kv => negb (mem (fst kv) STRIP_ATTRS && mem (fst kv) ks)) d.
Proof.
  revert d. induction ks as [|k ks IH]; intro d.
  - simpl. symmetry. apply filter_all. intro kv. now rewrite andb_false_r.
  - cbn [fold_left]. rewrite IH. destruct (mem k STRIP_ATTRS) eqn:Hk.
    + unfold dict_del. rewrite filter_filter. apply filter_ext.
      intros [k' v]. cbn [fst mem existsb].
      rewrite (String.eqb_sym k k').
      destruct (String.eqb k' k) eqn:E; cbn [negb andb orb].
      * apply String.eqb_eq in E. subst k'.
        fold (mem k STRIP_ATTRS). now rewrite Hk.
      * reflexivity.
    + apply filter_ext. intros [k' v]. cbn [fst mem existsb].
      destruct (String.eqb k' k) eqn:E; cbn [orb]; [|reflexivity].
      apply String.eqb_eq in E. subst k'.
      fold (mem k STRIP_ATTRS). now rewrite Hk.
Qed.

Lemma mem_In x S : mem x S = true <-> In x S.
Proof.
  unfold mem. rewrite existsb_exists. split.
  - intros [y [Hy E]]. apply String.eqb_eq in E. now subst.
  - intro H. exists x. split; [assumption|apply String.eqb_refl].
Qed.

(** [strip_attributes] keeps exactly the attributes outside the denylist. *)
Lemma strip_attrib_filter a :
  strip_attrib a = filter (fun kv => negb (mem (fst kv) STRIP_ATTRS)) a.
Proof.
  unfold strip_attrib. rewrite strip_loop_filter. apply filter_ext_in.
  intros [k v] Hin. cbn [fst].
  replace (mem k (keys a)) with true; [now rewrite andb_true_r|].
  symmetry. apply mem_In. unfold keys. apply in_map_iff.
  now exists (k, v).
Qed.

Lemma strip_attrib_idem a : strip_attrib (strip_attrib a) = strip_attrib a.
Proof.
  rewrite !strip_attrib_filter, filter_filter. apply filter_ext.
  intro kv. now destruct (mem (fst kv) STRIP_ATTRS).
Qed.

Lemma strip_attributes_idem e :
  strip_attributes (strip_attributes e) = strip_attributes e.
Proof. destruct e; simpl. now rewrite strip_attrib_idem. Qed.

Lemma detag_strip_attributes e : detag (strip_attributes e) = detag e.
Proof. now destruct e. Qed.

Lemma detag_strip_tree e : detag (strip_tree e) = detag e.
Proof. destruct e. now rewrite strip_tree_eq. Qed.

Lemma strip_tree_idem e : strip_tree (strip_tree e) = strip_tree e.
Proof.
  induction e as [t a x cs IH] using Element_tree_ind.
  rewrite !strip_tree_eq. f_equal.
  induction cs as [|c cs IHcs]; [reflexivity|].
  inversion IH as [|? ? Hc Hcs]; subst.
  cbn [strip_children].
  destruct (mem (detag c) STRIP_ELEMENTS) eqn:Hm; [now apply IHcs|].
  cbn [strip_children].
  rewrite detag_strip_attributes, detag_strip_tree, Hm.
  rewrite <- (strip_attributes_strip_tree (strip_tree c)).
  rewrite strip_attributes_idem, Hc, (IHcs Hcs).
  reflexivity.
Qed.

(** C3. The Noise Stripper is idempotent: the stripping pass (attribute
    removal on the root, then the walk that strips attributes and removes
    layout elements) applied to a tree that was already stripped leaves
    that tree unchanged; so does the walk alone, and so does the
    attribute removal alone. *)
Theorem strip_idempotent (root : Element) :
  strip_document (strip_document root) = strip_document root
  /\ strip_tree (strip_tree root) = strip_tree root
  /\ strip_attributes (strip_attributes root) = strip_attributes root.
Proof.
  split; [|split].
  - unfold strip_document.
    rewrite (strip_attributes_strip_tree (strip_attributes root)).
    now rewrite strip_attributes_idem, strip_tree_idem.
  - apply strip_tree_idem.
  - apply strip_attributes_idem.
Qed.

(** A print-object attribute and a page-layout child go, the note stays
    with the attributes that are not visual. *)
Example strip_laid_out_measure :
  strip_document Examples.laid_out_measure
  = Elem "measure" [("number", "1")] None
      [Elem "note" [("id", "n1")] None [Elem "rest" [] None []]].
Proof. reflexivity. Qed.

End StripperFacts.

(** ** The extractor on trees *)

Module TreeFacts.
Import Closed.

Lemma and_then_ok {A B} (c : Py.result A) (f : A -> Py.result B) b :
  Py.and_then c f = Py.Ok b -> exists a, c = Py.Ok a /\ f a = Py.Ok b.
Proof. destruct c as [a|e]; simpl; [eauto|discriminate]. Qed.

Lemma and_then_ext {A B} (c : Py.result A) (f g : A -> Py.result B) :
  (forall a, f a = g a) -> Py.and_then c f = Py.and_then c g.
Proof. intro H. destruct c; simpl; [apply H|reflexivity]. Qed.

Lemma and_then_assoc {A B C} (c : Py.result A) (f : A -> Py.result B)
  (g : B -> Py.result C) :
  Py.and_then (Py.and_then c f) g
  = Py.and_then c (fun a => Py.and_then (f a) g).
Proof. now destruct c. Qed.

Lemma and_then_id {A} (c : Py.result A) :
  Py.and_then c (fun a => Py.Ok a) = c.
Proof. now destruct c. Qed.

Lemma lift_tree {A} (r : Py.result A) : Extractor.lift r = r.
Proof. now destruct r. Qed.

Lemma find_tree e p : Extractor.find e p = Py.Ok (ET.find e p).
Proof. reflexivity. Qed.

Lemma findtext_tree e p : Extractor.findtext e p = Py.Ok (ET.findtext e p).
Proof.
  unfold Extractor.findtext, ET.findtext. rewrite find_tree. cbn.
  now destruct (ET.find e p).
Qed.

Lemma findtext_or_tree e p d :
  Extractor.findtext_or e p d
  = Py.Ok (match ET.findtext e p with Some s => s | None => d end).
Proof. unfold Extractor.findtext_or. now rewrite findtext_tree. Qed.

(** Loops that never break fold; loops that break at the first element
    passing a test find. *)
Lemma for_in_continue {A S} (f : A -> S -> S) (xs : list A) (s : S) :
  Extractor.for_in xs (fun x s => Py.Ok (Continue (f x s))) s
  = Py.Ok (fold_left (fun s x => f x s) xs s).
Proof.
  revert s. induction xs as [|x xs IH]; intro s; simpl;
    [reflexivity|apply IH].
Qed.

Lemma for_in_first {A S} (p : A -> bool) (f : A -> S -> S) (xs : list A)
  (s : S) :
  Extractor.for_in xs
    (fun x s => Py.Ok (if p x then Break (f x s) else Continue s)) s
  = Py.Ok (match List.find p xs with Some x => f x s | None => s end).
Proof.
  induction xs as [|x xs IH]; simpl; [reflexivity|].
  destruct (p x); [reflexivity|apply IH].
Qed.

Lemma for_in_first_ok {A S} (p : A -> bool) (f : A -> S -> S) (xs : list A)
  (s : S) :
  Extractor.for_in xs
    (fun x s => if p x then Py.Ok (Break (f x s)) else Py.Ok (Continue s)) s
  = Py.Ok (match List.find p xs with Some x => f x s | None => s end).
Proof.
  induction xs as [|x xs IH]; simpl; [reflexivity|].
  destruct (p x); [reflexivity|apply IH].
Qed.

Lemma texts_of_tree els out :
  Extractor.texts_of els out = Py.Ok (out ++ texts els)%list.
Proof.
  unfold Extractor.texts_of. revert out.
  induction els as [|el els IH]; intro out; cbn.
  - now rewrite app_nil_r.
  - rewrite IH. destruct (Py.truthy (text el)); cbn; [|reflexivity].
    now rewrite <- app_assoc.
Qed.

Lemma tags_of_tree els out :
  Extractor.tags_of els out = Py.Ok (out ++ names els)%list.
Proof.
  unfold Extractor.tags_of. revert out.
  induction els as [|el els IH]; intro out; cbn.
  - now rewrite app_nil_r.
  - rewrite IH. now rewrite <- app_assoc.
Qed.

Ltac on_tree :=
  repeat progress
    (rewrite ?findtext_or_tree, ?findtext_tree, ?find_tree, ?texts_of_tree,
       ?tags_of_tree, ?for_in_first, ?for_in_first_ok, ?for_in_continue;
     cbn [bind ret raise result_monad tree_api el_findall el_get el_text
          el_tag el_iter el_children Py.and_then app Extractor.lift]).

Lemma build_note_eq el :
  OnTree.build_note el
  = Py.and_then (note_front el) (fun n => Py.Ok (note_back el n)).
Proof.
  unfold OnTree.build_note, Extractor.build_note, note_front.
  rewrite !and_then_assoc. on_tree. rewrite !lift_tree.
  apply and_then_ext; intro n. rewrite !and_then_assoc.
  apply and_then_ext; intro n0.
  unfold OnTree.pitch_name.
  destruct (ET.find el [Child "rest"]);
    [|destruct (ET.find el [Child "pitch"])];
    cbn [Py.and_then]; try apply and_then_ext; try intro p;
    on_tree; reflexivity.
Qed.

(** *** Reading a dict after an update *)

Lemma dict_get_set {V} (d : list (string * V)) k v k' :
  dict_get (dict_set d k v) k'
  = if String.eqb k' k then Some v else dict_get d k'.
Proof.
  induction d as [|[k0 v0] d IH]; simpl.
  - reflexivity.
  - destruct (String.eqb k k0) eqn:E; simpl.
    + apply String.eqb_eq in E. subst k0. now destruct (String.eqb k' k).
    + rewrite IH. destruct (String.eqb k' k0) eqn:E0; [|reflexivity].
      apply String.eqb_eq in E0. subst k0.
      destruct (String.eqb k' k) eqn:E1; [|reflexivity].
      apply String.eqb_eq in E1. subst k'. now rewrite String.eqb_refl in E.
Qed.

Lemma dict_get_set_if c (d : pydict) k v k' :
  dict_get (set_if c d k v) k'
  = if c && String.eqb k' k then Some v else dict_get d k'.
Proof. unfold set_if. destruct c; [apply dict_get_set|reflexivity]. Qed.

Lemma dict_get_first_typed key els n k' :
  dict_get (first_typed key els n) k'
  = match List.find carries_type els with
    | Some t =>
        if String.eqb k' key then Some (JStr (Py.str_of (ET.get t "type")))
        else dict_get n k'
    | None => dict_get n k'
    end.
Proof.
  unfold first_typed. destruct (List.find carries_type els);
    [apply dict_get_set|reflexivity].
Qed.

(** The front part of a note only writes voice, staff and pitch. *)
Lemma note_front_keys el n k :
  note_front el = Py.Ok n ->
  k <> "voice" -> k <> "staff" -> k <> "pitch" -> dict_get n k = None.
Proof.
  unfold note_front. intros H Hv Hs Hp.
  apply String.eqb_neq in Hv, Hs, Hp.
  apply and_then_ok in H. destruct H as [n1 [H1 H]].
  apply and_then_ok in H. destruct H as [n2 [H2 H]].
  assert (G1 : dict_get n1 k = None).
  { destruct (Py.truthy _) in H1.
    - apply and_then_ok in H1. destruct H1 as [v [_ H1]].
      injection H1 as <-. cbn [dict_get dict_set]. now rewrite Hv.
    - now injection H1 as <-. }
  assert (G2 : dict_get n2 k = None).
  { destruct (Py.truthy _) in H2.
    - apply and_then_ok in H2. destruct H2 as [v [_ H2]].
      injection H2 as <-. now rewrite dict_get_set, Hs.
    - now injection H2 as <-. }
  destruct (ET.find el [Child "rest"]).
  - injection H as <-. now rewrite dict_get_set, Hp.
  - destruct (ET.find el [Child "pitch"]).
    + apply and_then_ok in H. destruct H as [p [_ H]].
      injection H as <-. now rewrite dict_get_set, Hp.
    + now injection H as <-.
Qed.

Lemma build_note_inv el n :
  OnTree.build_note el = Py.Ok n ->
  exists n0, note_front el = Py.Ok n0 /\ n = note_back el n0.
Proof.
  rewrite build_note_eq. intro H. apply and_then_ok in H.
  destruct H as [n0 [H0 H]]. exists n0. split; [assumption|].
  now injection H.
Qed.

Lemma findall_child el name :
  ET.findall el [Child name] = ET.children_named name el.
Proof. cbn. apply app_nil_r. Qed.

Lemma findall_descendant el name :
  ET.findall el [Self; Descendant name] = ET.descendants_named name el.
Proof. cbn. apply app_nil_r. Qed.

Lemma find_first {A} (p : A -> bool) (before : list A) x after :
  Forall (fun y => p y = false) before -> p x = true ->
  List.find p (before ++ x :: after) = Some x.
Proof.
  induction 1 as [|y l Hy _ IH]; intro Hx; simpl.
  - now rewrite Hx.
  - rewrite Hy. now apply IH.
Qed.

Lemma find_all_false {A} (p : A -> bool) (l : list A) :
  Forall (fun y => p y = false) l -> List.find p l = None.
Proof. induction 1 as [|y l Hy _ IH]; simpl; [reflexivity|now rewrite Hy]. Qed.

Lemma dict_get_set_if_ne c (d : pydict) k v k' :
  String.eqb k' k = false -> dict_get (set_if c d k v) k' = dict_get d k'.
Proof. intro H. now rewrite dict_get_set_if, H, andb_false_r. Qed.

Lemma dict_get_first_typed_ne key els n k' :
  String.eqb k' key = false ->
  dict_get (first_typed key els n) k' = dict_get n k'.
Proof.
  intro H. rewrite dict_get_first_typed, H.
  now destruct (List.find carries_type els).
Qed.

(** Skip the updates of other keys. *)
Ltac skip_sets :=
  repeat first
    [ rewrite dict_get_set_if_ne by reflexivity
    | rewrite dict_get_first_typed_ne by reflexivity ].

Lemma dict_get_note_back_tie el n :
  dict_get (note_back el n) "tie"
  = match List.find carries_type (ET.children_named "tie" el) with
    | Some t => Some (JStr (Py.str_of (ET.get t "type")))
    | None => dict_get n "tie"
    end.
Proof.
  unfold note_back. rewrite findall_child.
  destruct (List.find is_start _); skip_sets;
    rewrite dict_get_first_typed;
    (destruct (List.find carries_type _); [reflexivity|]);
    now skip_sets.
Qed.

Lemma dict_get_note_back_tuplet el n :
  dict_get (note_back el n) "tuplet"
  = let actual := ET.findtext el [Self; Descendant "actual-notes"] in
    let normal := ET.findtext el [Self; Descendant "normal-notes"] in
    if existsb is_start (ET.descendants_named "tuplet" el)
       && (Py.truthy actual && Py.truthy normal)
    then Some (JStr (Py.str_of actual ++ ":" ++ Py.str_of normal))
    else dict_get n "tuplet".
Proof.
  unfold note_back. rewrite (findall_descendant el "tuplet"). cbv zeta.
  destruct (List.find is_start _) as [t|] eqn:F.
  - replace (existsb is_start _) with true.
    + rewrite dict_get_set_if. cbn [String.eqb Ascii.eqb Bool.eqb].
      rewrite andb_true_r. cbn [andb].
      destruct (Py.truthy _ && Py.truthy _); [reflexivity|]. now skip_sets.
    + symmetry. apply existsb_exists. apply find_some in F. now exists t.
  - replace (existsb is_start _) with false.
    + cbn [andb]. now skip_sets.
    + symmetry. apply not_true_is_false. intro H.
      apply existsb_exists in H. destruct H as [t [Hin Ht]].
      now rewrite (List.find_none _ _ F t Hin) in Ht.
Qed.

(** *** The loops of a measure *)

Lemma for_in_collect {A B} (f : A -> Py.result (list B))
  (body : A -> list B -> Py.result (loop (list B))) (xs : list A) out :
  (forall x out,
      body x out = Py.and_then (f x) (fun l => Py.Ok (Continue (out ++ l)%list))) ->
  Extractor.for_in xs body out
  = Py.and_then (collect f xs) (fun ls => Py.Ok (out ++ ls)%list).
Proof.
  intro Hbody. revert out.
  induction xs as [|x xs IH]; intro out; cbn.
  - now rewrite app_nil_r.
  - rewrite Hbody, !and_then_assoc. apply and_then_ext. intro l. cbn.
    rewrite IH, and_then_assoc. apply and_then_ext. intro ls. cbn.
    now rewrite app_assoc.
Qed.

Lemma collect_app {A B} (f : A -> Py.result (list B)) (xs ys : list A) :
  collect f (xs ++ ys)
  = Py.and_then (collect f xs)
      (fun l => Py.and_then (collect f ys) (fun ls => Py.Ok (l ++ ls)%list)).
Proof.
  induction xs as [|x xs IH]; cbn.
  - destruct (collect f ys); reflexivity.
  - rewrite IH, !and_then_assoc. apply and_then_ext. intro l.
    rewrite !and_then_assoc. apply and_then_ext. intro l1. cbn.
    rewrite !and_then_assoc. apply and_then_ext. intro l2. cbn.
    now rewrite app_assoc.
Qed.

Lemma collect_pure {A B} (g : A -> list B) (xs : list A) :
  collect (fun x => Py.Ok (g x)) xs = Py.Ok (flat_map g xs).
Proof. induction xs as [|x xs IH]; cbn; [reflexivity|now rewrite IH]. Qed.

Lemma over_directions_collect {B} (f : Element -> Py.result (list B))
  (inner : Element -> list B -> Py.result (loop (list B))) el name :
  (forall x out,
      inner x out
      = Py.and_then (f x) (fun l => Py.Ok (Continue (out ++ l)%list))) ->
  Extractor.over_directions el [Self; Descendant name] inner
  = collect f (under_directions name el).
Proof.
  intro Hinner. unfold Extractor.over_directions, under_directions.
  cbn [bind ret result_monad tree_api el_findall Py.and_then].
  rewrite findall_child.
  assert (G : forall dirs out,
             Extractor.for_in dirs
               (fun dir_el out =>
                  Py.and_then
                    (Extractor.for_in
                       (ET.findall dir_el [Self; Descendant name]) inner out)
                    (fun out => Py.Ok (Continue out)))
               out
             = Py.and_then
                 (collect f (flat_map (ET.descendants_named name) dirs))
                 (fun ls => Py.Ok (out ++ ls)%list)).
  { induction dirs as [|d dirs IH]; intro out; cbn [Extractor.for_in flat_map].
    - cbn. now rewrite app_nil_r.
    - cbn [bind ret result_monad Py.and_then].
      rewrite (for_in_collect f inner _ _ Hinner), findall_descendant.
      rewrite collect_app, !and_then_assoc. apply and_then_ext. intro l.
      cbn [Py.and_then]. rewrite IH, !and_then_assoc.
      apply and_then_ext. intro ls. cbn. now rewrite app_assoc. }
  rewrite G. destruct (collect f _); reflexivity.
Qed.

Lemma words_body_eq w (out : list string) :
  Extractor.words_body w out
  = Py.and_then (Py.Ok (texts [w]))
      (fun l => Py.Ok (Continue (out ++ l)%list)).
Proof.
  unfold Extractor.words_body, texts. cbn.
  destruct (Py.truthy (text w)); cbn; [reflexivity|now rewrite app_nil_r].
Qed.

Lemma wedge_body_eq w (out : list json) :
  Extractor.wedge_body w out
  = Py.and_then (wedge_entry w) (fun l => Py.Ok (Continue (out ++ l)%list)).
Proof.
  unfold Extractor.wedge_body, wedge_entry.
  cbn [bind ret result_monad tree_api el_get Py.and_then].
  rewrite lift_tree, !and_then_assoc. reflexivity.
Qed.

Lemma pedal_body_eq p (out : list json) :
  Extractor.pedal_body p out
  = Py.and_then (Py.Ok (pedal_entry p))
      (fun l => Py.Ok (Continue (out ++ l)%list)).
Proof. reflexivity. Qed.

Lemma note_body_eq note_el (out : list json) :
  Extractor.note_body note_el out
  = Py.and_then (note_entry note_el)
      (fun l => Py.Ok (Continue (out ++ l)%list)).
Proof.
  unfold Extractor.note_body, note_entry, OnTree.build_note.
  cbn [bind ret result_monad]. now rewrite and_then_assoc.
Qed.

Lemma dynamics_body_eq d (out : list string) :
  Extractor.dynamics_body d out
  = Py.and_then (Py.Ok (dynamics_entry d))
      (fun l => Py.Ok (Continue (out ++ l)%list)).
Proof.
  unfold Extractor.dynamics_body, dynamics_entry. on_tree.
  destruct (ET.find d [Self; Descendant "dynamics"]) as [dy|]; on_tree.
  - now destruct (children dy).
  - reflexivity.
Qed.

Lemma texts_flat_map (els : list Element) :
  flat_map (fun w => texts [w]) els = texts els.
Proof.
  unfold texts at 2. apply flat_map_ext. intro w.
  unfold texts. cbn. apply app_nil_r.
Qed.

Lemma tempo_tree metros m :
  Extractor.for_in metros Extractor.metronome_body m
  = match List.find has_per_minute metros with
    | Some metro =>
        Py.and_then
          (Py.and_then
             (Py.float_of (Py.str_of (ET.findtext metro [Child "per-minute"])))
             Py.int_of_float)
          (fun v => Py.Ok (dict_set m "tempo" (JInt v)))
    | None => Py.Ok m
    end.
Proof.
  induction metros as [|metro metros IH]; cbn [Extractor.for_in List.find];
    [reflexivity|].
  unfold Extractor.metronome_body at 1. on_tree. unfold has_per_minute.
  destruct (Py.truthy (ET.findtext metro [Child "per-minute"])).
  - rewrite lift_tree, !and_then_assoc. reflexivity.
  - cbn. apply IH.
Qed.

Lemma build_measure_eq el : OnTree.build_measure el = measure el.
Proof.
  unfold OnTree.build_measure, Extractor.build_measure, measure.
  on_tree.
  rewrite (over_directions_collect _ _ _ _ words_body_eq).
  rewrite (over_directions_collect _ _ _ _ wedge_body_eq).
  rewrite (over_directions_collect _ _ _ _ pedal_body_eq).
  rewrite (for_in_collect _ _ _ _ note_body_eq).
  rewrite (for_in_collect _ _ _ _ dynamics_body_eq).
  rewrite !collect_pure, texts_flat_map, !findall_child.
  on_tree. rewrite lift_tree, and_then_id.
  apply and_then_ext; intro number.
  replace (key_step el [("number", JInt number)])
    with (match ET.find el [Self; Descendant "key"] with
          | Some key_el =>
              Py.and_then (Extractor.findtext key_el [Child "fifths"])
                (fun fifths =>
                   match fifths with
                   | Some fifths0 =>
                       Py.and_then (Extractor.lift (Py.int fifths0))
                         (fun v =>
                            Py.Ok (dict_set [("number", JInt number)]
                                     "key_fifths" (JInt v)))
                   | None => Py.Ok [("number", JInt number)]
                   end)
          | None => Py.Ok [("number", JInt number)]
          end).
  2:{ unfold key_step. destruct (ET.find el [Self; Descendant "key"]);
      [|reflexivity].
      on_tree. destruct (ET.findtext _ _); [|reflexivity].
      now rewrite lift_tree. }
  apply and_then_ext; intro m.
  replace (Py.and_then _ _) with
    (Py.and_then (Py.Ok (time_step el m))
       (fun m0 =>
          Py.and_then
            (Extractor.for_in (ET.iter el "metronome")
               Extractor.metronome_body m0)
            (fun m1 =>
               Py.and_then (collect wedge_entry (under_directions "wedge" el))
                 (fun wedges0 =>
                    Py.and_then (notes el)
                      (fun notes0 =>
                         Py.Ok
                           (set_if (nonempty notes0)
                              (set_if (nonempty (dynamics el))
                                 (set_if (nonempty (pedals el))
                                    (set_if (nonempty wedges0)
                                       (set_if (nonempty (directions el)) m1
                                          "directions"
                                          (Extractor.strs (directions el)))
                                       "wedges" (JList wedges0))
                                    "pedals" (JList (pedals el)))
                                 "dynamics" (Extractor.strs (dynamics el)))
                              "notes" (JList notes0))))))).
  2:{ unfold time_step. destruct (ET.find el [Self; Descendant "time"]);
      on_tree; reflexivity. }
  cbn [Py.and_then]. rewrite tempo_tree. reflexivity.
Qed.

(** *** Keys that the steps of a measure leave alone *)

Lemma key_step_get el m m' k :
  key_step el m = Py.Ok m' -> String.eqb k "key_fifths" = false ->
  dict_get m' k = dict_get m k.
Proof.
  unfold key_step. intros H Hk.
  destruct (ET.find el _); [|now injection H as <-].
  destruct (ET.findtext _ _); [|now injection H as <-].
  apply and_then_ok in H. destruct H as [v [_ H]]. injection H as <-.
  now rewrite dict_get_set, Hk.
Qed.

Lemma time_step_get el m k :
  String.eqb k "time" = false -> dict_get (time_step el m) k = dict_get m k.
Proof.
  unfold time_step. intro Hk. destruct (ET.find el _); [|reflexivity].
  now apply dict_get_set_if_ne.
Qed.

Lemma tempo_step_get el m m' k :
  tempo_step el m = Py.Ok m' -> String.eqb k "tempo" = false ->
  dict_get m' k = dict_get m k.
Proof.
  unfold tempo_step. intros H Hk.
  destruct (List.find _ _); [|now injection H as <-].
  apply and_then_ok in H. destruct H as [v [_ H]]. injection H as <-.
  now rewrite dict_get_set, Hk.
Qed.

(** What a measure record is made of. *)
Lemma build_measure_inv el m :
  OnTree.build_measure el = Py.Ok m ->
  exists number m1 m2 ws ns,
    measure_number el = Py.Ok number
    /\ key_step el [("number", JInt number)] = Py.Ok m1
    /\ tempo_step el (time_step el m1) = Py.Ok m2
    /\ wedges el = Py.Ok ws
    /\ notes el = Py.Ok ns
    /\ m = set_if (nonempty ns)
             (set_if (nonempty (dynamics el))
                (set_if (nonempty (pedals el))
                   (set_if (nonempty ws)
                      (set_if (nonempty (directions el)) m2 "directions"
                         (Extractor.strs (directions el)))
                      "wedges" (JList ws))
                   "pedals" (JList (pedals el)))
                "dynamics" (Extractor.strs (dynamics el)))
             "notes" (JList ns).
Proof.
  rewrite build_measure_eq. unfold measure. intro H.
  apply and_then_ok in H. destruct H as [number [H1 H]].
  apply and_then_ok in H. destruct H as [m1 [H2 H]].
  apply and_then_ok in H. destruct H as [m2 [H3 H]].
  apply and_then_ok in H. destruct H as [ws [H4 H]].
  apply and_then_ok in H. destruct H as [ns [H5 H]].
  injection H as <-. exists number, m1, m2, ws, ns. repeat split; assumption.
Qed.

End TreeFacts.

(** ** Notes: ties and tuplets *)

Module Notes.
Import Closed Spec Examples TreeFacts.

(** A note is turned into a record as soon as its voice, staff and pitch
    convert. *)
Lemma build_note_returns el n0 :
  note_front el = Py.Ok n0 -> OnTree.build_note el = Py.Ok (note_back el n0).
Proof. intro H. now rewrite build_note_eq, H. Qed.

(** C8, as the code has it.  For every note element the tie field is
    the type attribute of the first tie child of the note whose type
    attribute is there and is not the empty string, whatever tie children
    follow it; tie children before it that have no type attribute or an
    empty one are passed over.  When no tie child has a non-empty type
    attribute, the field is omitted. *)
Theorem tie_first_wins (note_el : Element) (n : pydict) :
  OnTree.build_note note_el = Py.Ok n ->
  (forall before tie after tie_type,
      ET.children_named "tie" note_el = (before ++ tie :: after)%list ->
      Forall (fun t => Py.truthy (ET.get t "type") = false) before ->
      ET.get tie "type" = Some tie_type -> tie_type <> "" ->
      dict_get n "tie" = Some (JStr tie_type))
  /\ (Forall (fun t => Py.truthy (ET.get t "type") = false)
        (ET.children_named "tie" note_el) ->
      dict_get n "tie" = None).
Proof.
  intro H. apply build_note_inv in H. destruct H as [n0 [H0 ->]].
  rewrite dict_get_note_back_tie. split.
  - intros before tie after tie_type Hsplit Hbefore Htie Hne.
    rewrite Hsplit, (find_first carries_type before tie after Hbefore).
    + now rewrite Htie.
    + unfold carries_type. rewrite Htie. now destruct tie_type.
  - intro Hnone. rewrite (find_all_false carries_type _ Hnone).
    apply (note_front_keys _ _ _ H0); discriminate.
Qed.

(** A note with a start tie and then a stop tie keeps the start; a first
    tie with an empty type is passed over. *)
Lemma tie_first_wins_witness :
  (exists n, OnTree.build_note two_ties = Py.Ok n
             /\ dict_get n "tie" = Some (JStr "start"))
  /\ (exists n, OnTree.build_note empty_type_tie = Py.Ok n
                /\ dict_get n "tie" = Some (JStr "stop")).
Proof.
  split.
  - exists [("pitch", JStr "G4"); ("tie", JStr "start")].
    split; [reflexivity|].
    exact (proj1 (tie_first_wins two_ties _ eq_refl) []
             (Elem "tie" [("type", "start")] None [])
             [Elem "tie" [("type", "stop")] None []] "start"
             eq_refl (Forall_nil _) eq_refl ltac:(discriminate)).
  - exists [("tie", JStr "stop")]. split; [reflexivity|].
    exact (proj1 (tie_first_wins empty_type_tie _ eq_refl)
             [Elem "tie" [("type", "")] None []]
             (Elem "tie" [("type", "stop")] None []) [] "stop"
             eq_refl ltac:(repeat constructor) eq_refl
             ltac:(discriminate)).
Defined.

(** C8 as stated fails: a tie marker whose type attribute is the empty
    string carries a type attribute, yet the program passes it over and
    takes the type of the next one. *)
Lemma tie_counterexample :
  ~ (forall note_el n,
        OnTree.build_note note_el = Py.Ok n ->
        forall before tie after,
          ET.children_named "tie" note_el = (before ++ tie :: after)%list ->
          Forall (fun t => has_type_attribute t = false) before ->
          has_type_attribute tie = true ->
          dict_get n "tie" = Some (json_of_str (ET.get tie "type"))).
Proof.
  intro H.
  specialize (H empty_type_tie [("tie", JStr "stop")] eq_refl []
                (Elem "tie" [("type", "")] None [])
                [Elem "tie" [("type", "stop")] None []]
                eq_refl (Forall_nil _) eq_refl).
  discriminate H.
Qed.

(** A tie whose type attribute is the empty string is passed over. *)
Example tie_empty_type_skipped :
  OnTree.build_note
    (Elem "note" [] None
       [Elem "tie" [("type", "")] None [];
        Elem "tie" [("type", "stop")] None []])
  = Py.Ok [("tie", JStr "stop")].
Proof. reflexivity. Qed.

Lemma is_start_iff t : is_start t = true <-> ET.get t "type" = Some "start".
Proof.
  unfold is_start. rewrite String.eqb_eq. destruct (ET.get t "type"); simpl.
  - split; congruence.
  - split; discriminate.
Qed.

Lemma tuplet_start_iff el :
  existsb is_start (ET.descendants_named "tuplet" el) = true
  <-> tuplet_start el.
Proof.
  rewrite existsb_exists. unfold tuplet_start.
  split; intros [t [Hin Ht]]; exists t; (split; [assumption|]);
    now apply is_start_iff.
Qed.

Lemma truthy_iff o : Py.truthy o = true <-> exists c, o = Some c /\ c <> "".
Proof.
  split.
  - destruct o as [[|a s]|]; simpl; try discriminate.
    intros _. eexists. split; [reflexivity|discriminate].
  - intros [c [-> Hc]]. destruct c; [contradiction|reflexivity].
Qed.

(** C4. For every note element the tuplet field is recorded if and only
    if a tuplet marker with type "start" is found anywhere below the note
    and both the actual-notes count and the normal-notes count can be read
    from the note; it is then "actual:normal".  Without a start marker, or
    without both counts, there is no tuplet field. *)
Theorem tuplet_conditional (note_el : Element) (n : pydict) :
  OnTree.build_note note_el = Py.Ok n ->
  (forall actual normal,
      tuplet_start note_el ->
      count_read note_el "actual-notes" actual ->
      count_read note_el "normal-notes" normal ->
      dict_get n "tuplet" = Some (JStr (actual ++ ":" ++ normal)))
  /\ (dict_get n "tuplet" <> None ->
      tuplet_start note_el
      /\ (exists actual, count_read note_el "actual-notes" actual)
      /\ (exists normal, count_read note_el "normal-notes" normal)).
Proof.
  intro H. apply build_note_inv in H. destruct H as [n0 [H0 ->]].
  rewrite dict_get_note_back_tuplet. cbv zeta. split.
  - intros actual normal Hs [Ha Hane] [Hn Hnne].
    apply tuplet_start_iff in Hs. rewrite Hs, Ha, Hn.
    destruct actual; [contradiction|]. destruct normal; [contradiction|].
    reflexivity.
  - intro Hget.
    destruct (existsb is_start _) eqn:Es; cbn [andb] in Hget.
    + destruct (Py.truthy (ET.findtext note_el [Self; Descendant "actual-notes"]))
        eqn:Ea; cbn [andb] in Hget.
      * destruct (Py.truthy (ET.findtext note_el [Self; Descendant "normal-notes"]))
          eqn:En.
        -- split; [now apply tuplet_start_iff|].
           split; now apply truthy_iff.
        -- exfalso. apply Hget.
           apply (note_front_keys _ _ _ H0); discriminate.
      * exfalso. apply Hget.
        apply (note_front_keys _ _ _ H0); discriminate.
    + exfalso. apply Hget. apply (note_front_keys _ _ _ H0); discriminate.
Qed.

Lemma tuplet_conditional_witness :
  exists n, OnTree.build_note triplet_note = Py.Ok n
            /\ dict_get n "tuplet" = Some (JStr "3:2").
Proof.
  exists [("tuplet", JStr "3:2")].
  split; [reflexivity|].
  refine (proj1 (tuplet_conditional triplet_note _ eq_refl) "3" "2" _ _ _).
  - exists (Elem "tuplet" [("type", "start")] None []).
    split; [vm_compute; left; reflexivity|reflexivity].
  - split; [reflexivity|discriminate].
  - split; [reflexivity|discriminate].
Defined.

(** A start marker without the counts leaves no tuplet field. *)
Example tuplet_without_counts :
  OnTree.build_note
    (Elem "note" [] None
       [Elem "notations" [] None [Elem "tuplet" [("type", "start")] None []]])
  = Py.Ok [].
Proof. reflexivity. Qed.

End Notes.

(** ** Measures: the sparse record, the number, the directions *)

Module Measures.
Import Closed Spec Examples TreeFacts.

(** *** What lies below a child lies below the parent *)

Lemma iter_all_eq e : ET.iter_all e = e :: ET.descendants e.
Proof. now destruct e. Qed.

Lemma In_descendants_child el d x :
  In d (children el) -> In x (ET.iter_all d) -> In x (ET.descendants el).
Proof.
  intros Hd Hx. unfold ET.descendants. apply in_flat_map. now exists d.
Qed.

Lemma descendants_named_child name el d :
  In d (children el) ->
  ET.descendants_named name el = [] -> ET.descendants_named name d = [].
Proof.
  intros Hd Hnil. unfold ET.descendants_named in *.
  destruct (filter (ET.has_tag name) (ET.descendants d)) as [|x l] eqn:F;
    [reflexivity|].
  assert (Hx : In x (filter (ET.has_tag name) (ET.descendants d)))
    by (rewrite F; now left).
  apply filter_In in Hx. destruct Hx as [Hx Ht].
  assert (G : In x (filter (ET.has_tag name) (ET.descendants el))).
  { apply filter_In. split; [|assumption].
    apply (In_descendants_child el d x Hd). rewrite iter_all_eq. now right. }
  rewrite Hnil in G. destruct G.
Qed.

Lemma flat_map_nil {A B} (f : A -> list B) (l : list A) :
  (forall x, In x l -> f x = []) -> flat_map f l = [].
Proof.
  induction l as [|x l IH]; intro H; cbn; [reflexivity|].
  rewrite (H x (or_introl eq_refl)). apply IH.
  intros y Hy. apply H. now right.
Qed.

Lemma children_named_In name el d :
  In d (ET.children_named name el) -> In d (children el).
Proof. unfold ET.children_named. intro H. now apply filter_In in H. Qed.

Lemma under_directions_nil name el :
  ET.descendants_named name el = [] -> under_directions name el = [].
Proof.
  intro Hnil. unfold under_directions. apply flat_map_nil.
  intros d Hd. apply (descendants_named_child name el d); [|assumption].
  now apply children_named_In in Hd.
Qed.

Lemma find_descendant_nil name el :
  ET.descendants_named name el = [] ->
  ET.find el [Self; Descendant name] = None.
Proof.
  intro Hnil. unfold ET.find. now rewrite findall_descendant, Hnil.
Qed.

Lemma dynamics_nil el :
  ET.descendants_named "dynamics" el = [] -> dynamics el = [].
Proof.
  intro Hnil. unfold dynamics. apply flat_map_nil. intros d Hd.
  unfold dynamics_entry. rewrite find_descendant_nil; [reflexivity|].
  apply (descendants_named_child _ el d); [|assumption].
  now apply children_named_In in Hd.
Qed.

Lemma iter_measure name el :
  tag el = "measure" -> String.eqb "measure" name = false ->
  ET.iter el name = ET.descendants_named name el.
Proof.
  intros Ht Hn. unfold ET.iter, ET.descendants_named.
  rewrite iter_all_eq. cbn [filter]. unfold ET.has_tag at 1.
  now rewrite Ht, Hn.
Qed.

(** *** The steps of a measure without their source *)

Lemma key_step_nil el m :
  ET.descendants_named "key" el = [] -> key_step el m = Py.Ok m.
Proof. intro H. unfold key_step. now rewrite find_descendant_nil. Qed.

Lemma time_step_nil el m :
  ET.descendants_named "time" el = [] -> time_step el m = m.
Proof. intro H. unfold time_step. now rewrite find_descendant_nil. Qed.

Lemma tempo_step_nil el m :
  tag el = "measure" ->
  ET.descendants_named "metronome" el = [] -> tempo_step el m = Py.Ok m.
Proof.
  intros Ht H. unfold tempo_step.
  now rewrite (iter_measure "metronome" _ Ht eq_refl), H.
Qed.

Lemma directions_nil el :
  ET.descendants_named "words" el = [] -> directions el = [].
Proof. intro H. unfold directions. now rewrite under_directions_nil. Qed.

Lemma wedges_nil el :
  ET.descendants_named "wedge" el = [] -> wedges el = Py.Ok [].
Proof. intro H. unfold wedges. now rewrite under_directions_nil. Qed.

Lemma pedals_nil el :
  ET.descendants_named "pedal" el = [] -> pedals el = [].
Proof. intro H. unfold pedals. now rewrite under_directions_nil. Qed.

Lemma notes_nil el :
  ET.children_named "note" el = [] -> notes el = Py.Ok [].
Proof. intro H. unfold notes. now rewrite H. Qed.

Lemma number_only number k :
  String.eqb k "number" = false ->
  dict_get [("number", JInt number)] k = None.
Proof. intro H. cbn [dict_get]. now rewrite H. Qed.

Ltac through_steps H2 H3 :=
  skip_sets;
  try (rewrite (tempo_step_get _ _ _ _ H3) by reflexivity);
  try (rewrite time_step_get by reflexivity);
  try (rewrite (key_step_get _ _ _ _ H2) by reflexivity);
  try (apply number_only; reflexivity).

Lemma field_absent el m k name :
  tag el = "measure" ->
  OnTree.build_measure el = Py.Ok m ->
  In (k, name) field_sources ->
  ET.descendants_named name el = [] -> dict_get m k = None.
Proof.
  intros Ht H Hin Hnil. apply build_measure_inv in H.
  destruct H as [number [m1 [m2 [ws [ns [H1 [H2 [H3 [H4 [H5 ->]]]]]]]]]].
  repeat (destruct Hin as [Hin|Hin];
          [injection Hin as <- <-|]); [| | | | | | |destruct Hin].
  - (* key_fifths *)
    rewrite (key_step_nil _ _ Hnil) in H2. injection H2 as <-.
    now through_steps H2 H3.
  - (* time *)
    skip_sets. rewrite (tempo_step_get _ _ _ _ H3) by reflexivity.
    rewrite (time_step_nil _ _ Hnil).
    rewrite (key_step_get _ _ _ _ H2) by reflexivity.
    now apply number_only.
  - (* tempo *)
    rewrite (tempo_step_nil _ _ Ht Hnil) in H3. injection H3 as <-.
    skip_sets. rewrite time_step_get by reflexivity.
    rewrite (key_step_get _ _ _ _ H2) by reflexivity.
    now apply number_only.
  - (* dynamics *)
    skip_sets. rewrite (dynamics_nil _ Hnil). cbn [nonempty set_if].
    now through_steps H2 H3.
  - (* directions *)
    skip_sets. rewrite (directions_nil _ Hnil). cbn [nonempty set_if].
    now through_steps H2 H3.
  - (* wedges *)
    rewrite (wedges_nil _ Hnil) in H4. injection H4 as <-.
    skip_sets. cbn [nonempty set_if]. now through_steps H2 H3.
  - (* pedals *)
    skip_sets. rewrite (pedals_nil _ Hnil). cbn [nonempty set_if].
    now through_steps H2 H3.
Qed.

Lemma notes_absent el m :
  OnTree.build_measure el = Py.Ok m ->
  ET.children_named "note" el = [] -> dict_get m "notes" = None.
Proof.
  intros H Hnil. apply build_measure_inv in H.
  destruct H as [number [m1 [m2 [ws [ns [H1 [H2 [H3 [H4 [H5 ->]]]]]]]]]].
  rewrite (notes_nil _ Hnil) in H5. injection H5 as <-.
  cbn [nonempty set_if]. now through_steps H2 H3.
Qed.

(** C1. A measure element that contains no key signature, time signature,
    metronome marking, dynamics, text direction, wedge or pedal, and has no
    note child, yields a record whose only field is its number (the record
    exists as soon as the number converts); and in any measure record each
    optional field is there only when the measure carries the element it
    is read from. *)
Theorem measure_sparse (measure_el : Element) :
  tag measure_el = "measure" ->
  ((forall k name, In (k, name) field_sources ->
                   ET.descendants_named name measure_el = []) ->
   ET.children_named "note" measure_el = [] ->
   OnTree.build_measure measure_el
   = Py.and_then (measure_number measure_el)
       (fun number => Py.Ok [("number", JInt number)]))
  /\ (forall m,
        OnTree.build_measure measure_el = Py.Ok m ->
        (forall k name, In (k, name) field_sources ->
                        ET.descendants_named name measure_el = [] ->
                        dict_get m k = None)
        /\ (ET.children_named "note" measure_el = [] ->
            dict_get m "notes" = None)).
Proof.
  intro Ht. split.
  - intros Hnone Hnotes. rewrite build_measure_eq. unfold measure.
    assert (Hsrc : forall name,
               In name (map snd field_sources) ->
               ET.descendants_named name measure_el = []).
    { intros name Hin. apply in_map_iff in Hin.
      destruct Hin as [[k name'] [E Hin]]. cbn in E. subst name'.
      now apply (Hnone k). }
    apply and_then_ext. intro number.
    rewrite key_step_nil by (apply Hsrc; cbn; tauto). cbn [Py.and_then].
    rewrite time_step_nil by (apply Hsrc; cbn; tauto).
    rewrite tempo_step_nil by (try assumption; apply Hsrc; cbn; tauto).
    cbn [Py.and_then].
    rewrite wedges_nil by (apply Hsrc; cbn; tauto). cbn [Py.and_then].
    rewrite notes_nil by assumption. cbn [Py.and_then].
    rewrite directions_nil by (apply Hsrc; cbn; tauto).
    rewrite pedals_nil by (apply Hsrc; cbn; tauto).
    rewrite dynamics_nil by (apply Hsrc; cbn; tauto).
    reflexivity.
  - intros m H. split.
    + intros k name. now apply field_absent.
    + now apply notes_absent.
Qed.

Lemma measure_sparse_witness :
  OnTree.build_measure plain_measure = Py.Ok [("number", JInt 7)].
Proof.
  rewrite (proj1 (measure_sparse plain_measure eq_refl)).
  - reflexivity.
  - intros k name Hin. cbn in Hin.
    repeat (destruct Hin as [Hin|Hin];
            [injection Hin as <- <-; reflexivity|]).
    destruct Hin.
  - reflexivity.
Defined.

(** *** The number of a measure *)

Lemma dict_get_number el m number m1 m2 ws ns :
  key_step el [("number", JInt number)] = Py.Ok m1 ->
  tempo_step el (time_step el m1) = Py.Ok m2 ->
  m = set_if (nonempty ns)
        (set_if (nonempty (dynamics el))
           (set_if (nonempty (pedals el))
              (set_if (nonempty ws)
                 (set_if (nonempty (directions el)) m2 "directions"
                    (Extractor.strs (directions el)))
                 "wedges" (JList ws))
              "pedals" (JList (pedals el)))
           "dynamics" (Extractor.strs (dynamics el)))
        "notes" (JList ns) ->
  dict_get m "number" = Some (JInt number).
Proof.
  intros H2 H3 ->. skip_sets.
  rewrite (tempo_step_get _ _ _ _ H3) by reflexivity.
  rewrite time_step_get by reflexivity.
  now rewrite (key_step_get _ _ _ _ H2) by reflexivity.
Qed.

Lemma measure_number_field el m number :
  measure_number el = Py.Ok number ->
  OnTree.build_measure el = Py.Ok m ->
  dict_get m "number" = Some (JInt number).
Proof.
  intros Hn H. apply build_measure_inv in H.
  destruct H as [number' [m1 [m2 [ws [ns [H1 [H2 [H3 [H4 [H5 E]]]]]]]]]].
  rewrite Hn in H1. injection H1 as <-.
  exact (dict_get_number _ _ _ _ _ _ _ H2 H3 E).
Qed.

(** C6, as the code has it.  The number field of a measure record is the
    number attribute of the measure converted by [int], and 0 when the
    measure has no number attribute; when the attribute is there and is not
    an integer literal, the conversion raises and the measure yields no
    record. *)
Theorem measure_number_rule (measure_el : Element) :
  (ET.get measure_el "number" = None ->
   forall m, OnTree.build_measure measure_el = Py.Ok m ->
             dict_get m "number" = Some (JInt 0))
  /\ (forall s number,
        ET.get measure_el "number" = Some s -> Py.int s = Py.Ok number ->
        forall m, OnTree.build_measure measure_el = Py.Ok m ->
                  dict_get m "number" = Some (JInt number))
  /\ (forall s e,
        ET.get measure_el "number" = Some s -> Py.int s = Py.Raise e ->
        OnTree.build_measure measure_el = Py.Raise e).
Proof.
  split; [|split].
  - intros Hget m H. apply (measure_number_field measure_el); [|assumption].
    unfold measure_number. now rewrite Hget.
  - intros s number Hget Hint m H.
    apply (measure_number_field measure_el); [|assumption].
    unfold measure_number. now rewrite Hget.
  - intros s e Hget Hint. rewrite build_measure_eq. unfold measure.
    unfold measure_number. now rewrite Hget, Hint.
Qed.

Lemma measure_number_rule_witness :
  OnTree.build_measure (Elem "measure" [] None []) = Py.Ok [("number", JInt 0)]
  /\ dict_get [("number", JInt 0)] "number" = Some (JInt 0)
  /\ dict_get [("number", JInt 7)] "number" = Some (JInt 7)
  /\ OnTree.build_measure measure_x1 = Py.Raise Py.ValueError.
Proof.
  split; [reflexivity|]. split; [|split].
  - exact (proj1 (measure_number_rule (Elem "measure" [] None []))
             eq_refl [("number", JInt 0)] eq_refl).
  - exact (proj1 (proj2 (measure_number_rule plain_measure))
             "7" 7 eq_refl eq_refl [("number", JInt 7)] eq_refl).
  - exact (proj2 (proj2 (measure_number_rule measure_x1))
             "X1" Py.ValueError eq_refl eq_refl).
Defined.

(** C6 as stated fails: a measure whose number attribute is not an integer
    literal (here the unnumbered-measure token X1) makes the extraction
    raise, where the claim promises a record with number 0. *)
Lemma measure_number_counterexample :
  ~ (forall measure_el,
        children measure_el = [] ->
        exists m, OnTree.build_measure measure_el = Py.Ok m
                  /\ dict_get m "number"
                     = Some (JInt (match measure_number measure_el with
                                   | Py.Ok number => number
                                   | Py.Raise _ => 0
                                   end))).
Proof.
  intro H. destruct (H measure_x1 eq_refl) as [m [Hm _]].
  discriminate Hm.
Qed.

(** *** The text directions of a measure *)

(** C7, as the code has it.  The directions list holds, in document order,
    the trimmed text of each words element found below a direction child
    of the measure whose text is there and not empty; a text of blanks only
    passes that test and contributes the empty string.  The field is
    omitted when the list is empty. *)
Theorem directions_rule (measure_el : Element) (m : pydict) :
  OnTree.build_measure measure_el = Py.Ok m ->
  dict_get m "directions"
  = list_field
      (flat_map
         (fun w => match text w with
                   | Some t => if Py.is_empty t then [] else [Py.strip t]
                   | None => []
                   end)
         (flat_map (ET.descendants_named "words")
            (ET.children_named "direction" measure_el))).
Proof.
  intro H. apply build_measure_inv in H.
  destruct H as [number [m1 [m2 [ws [ns [H1 [H2 [H3 [H4 [H5 ->]]]]]]]]]].
  skip_sets. rewrite dict_get_set_if. cbn [String.eqb Ascii.eqb Bool.eqb].
  rewrite andb_true_r. unfold list_field.
  replace (flat_map _ (flat_map _ _)) with (directions measure_el).
  - destruct (nonempty (directions measure_el)); [reflexivity|].
    rewrite (tempo_step_get _ _ _ _ H3) by reflexivity.
    rewrite time_step_get by reflexivity.
    rewrite (key_step_get _ _ _ _ H2) by reflexivity.
    reflexivity.
  - unfold directions, texts, under_directions. apply flat_map_ext.
    intro w. now destruct (text w) as [[|c t]|].
Qed.

Lemma directions_rule_witness :
  exists m, OnTree.build_measure blank_words = Py.Ok m
            /\ dict_get m "directions" = Some (JList [JStr "dolce"; JStr ""]).
Proof.
  exists [("number", JInt 1);
          ("directions", JList [JStr "dolce"; JStr ""])].
  split; [reflexivity|].
  exact (directions_rule blank_words _ eq_refl).
Defined.

(** C7 as stated fails: a words element whose text is blanks only
    contributes an empty string. *)
Lemma directions_counterexample :
  ~ (forall measure_el m,
        OnTree.build_measure measure_el = Py.Ok m ->
        dict_get m "directions"
        = list_field (directions_without_blanks measure_el)).
Proof.
  intro H.
  specialize (H blank_words _ eq_refl). vm_compute in H. discriminate H.
Qed.

End Measures.

(** ** The Pitch Decoder *)

Module Pitch.
Import Closed Spec Examples TreeFacts.

Lemma pitch_name_eq p : OnTree.pitch_name (Some p) = pitch p.
Proof.
  unfold OnTree.pitch_name, Extractor.pitch_name, pitch, alter_key. on_tree.
  destruct (Py.and_then (Py.float_of _) Py.round) as [n|[|]]; reflexivity.
Qed.

(** [str] is one to one on the integers. *)
Lemma to_int_proper n :
  Z.to_int n <> Decimal.Pos Decimal.Nil /\ Z.to_int n <> Decimal.Neg Decimal.Nil.
Proof.
  destruct n as [|p|p]; cbn; split; try discriminate;
    intro H; injection H as H; now apply DecimalPos.Unsigned.to_uint_nonnil in H.
Qed.

Lemma str_inj a b : Py.str a = Py.str b -> a = b.
Proof.
  unfold Py.str. intro H. apply DecimalZ.to_int_inj.
  assert (G : Some (Z.to_int a) = Some (Z.to_int b)).
  { rewrite <- (NilZero.isi (Z.to_int a)), <- (NilZero.isi (Z.to_int b));
      try apply to_int_proper.
    now rewrite H. }
  now injection G.
Qed.

Lemma str_eqb a b : String.eqb (Py.str a) (Py.str b) = Z.eqb a b.
Proof.
  destruct (Z.eqb a b) eqn:E.
  - apply Z.eqb_eq in E. subst. apply String.eqb_refl.
  - apply String.eqb_neq. intro H. apply str_inj in H.
    subst. now rewrite Z.eqb_refl in E.
Qed.

(** The lookup in [ACCIDENTALS] under [str(n)] is the mapping of the spec. *)
Lemma accidental_symbol n : accidental (Py.str n) = symbol n.
Proof.
  unfold accidental, ACCIDENTALS. cbn [dict_get].
  change "-1" with (Py.str (-1)). change "-2" with (Py.str (-2)).
  change "2" with (Py.str 2). change "1" with (Py.str 1).
  change "0" with (Py.str 0). rewrite !str_eqb.
  destruct (Z.eqb_spec n 2) as [->|H2]; [reflexivity|].
  destruct (Z.eqb_spec n 1) as [->|H1]; [reflexivity|].
  destruct (Z.eqb_spec n 0) as [->|H0]; [reflexivity|].
  destruct (Z.eqb_spec n (-1)) as [->|Hm1]; [reflexivity|].
  destruct (Z.eqb_spec n (-2)) as [->|Hm2]; [reflexivity|].
  destruct n as [|p|p]; try congruence;
    (destruct p as [p|p|]; try congruence; try reflexivity;
     destruct p; try congruence; reflexivity).
Qed.

(** [float] raises [ValueError] only. *)
Lemma float_of_raises a e : Py.float_of a = Py.Raise e -> e = Py.ValueError.
Proof.
  unfold Py.float_of. destruct (Py.sign_of _) as [sg body].
  destruct (_ || _); [discriminate|].
  destruct (String.eqb _ "nan"); [discriminate|].
  destruct (Py.decimal body) as [[n k]|]; [discriminate|].
  now intros [= <-].
Qed.

(** What the Pitch Decoder renders for a pitch with step [s], alteration
    [a] and octave [o]: [s], the symbol of the rounded alteration, [o];
    no symbol when [a] is not a float literal or is a NaN.  An alteration
    that reads as an infinity raises [OverflowError]. *)
Lemma pitch_name_decodes p s a o :
  ET.findtext p [Child "step"] = Some s ->
  ET.findtext p [Child "alter"] = Some a ->
  ET.findtext p [Child "octave"] = Some o ->
  OnTree.pitch_name (Some p)
  = match Py.float_of (Py.strip a) with
    | Py.Raise _ => Py.Ok (Some (s ++ o))
    | Py.Ok Py.NaN => Py.Ok (Some (s ++ o))
    | Py.Ok Py.Inf => Py.Raise Py.OverflowError
    | Py.Ok (Py.Finite m e) =>
        match Py.round (Py.Finite m e) with
        | Py.Ok n => Py.Ok (Some (s ++ symbol n ++ o))
        | Py.Raise err => Py.Raise err
        end
    end.
Proof.
  intros Hs Ha Ho. rewrite pitch_name_eq. unfold pitch, alter_key.
  rewrite Hs, Ha, Ho. cbn [Py.str_of].
  destruct (Py.float_of (Py.strip a)) as [[m e| |]|err] eqn:F; cbn.
  - now rewrite accidental_symbol.
  - reflexivity.
  - reflexivity.
  - now rewrite (float_of_raises _ _ F).
Qed.

(** The alterations 1.49 and 1.0 render as sharp, 0.98 too; 1.5 is a tie
    and rounds to the even 2; a word is natural. *)
Example pitch_sharp :
  OnTree.pitch_name (Some (pitch_of "C" "1.49" "5")) = Py.Ok (Some "C#5")
  /\ OnTree.pitch_name (Some (pitch_of "C" "1.0" "5")) = Py.Ok (Some "C#5")
  /\ OnTree.pitch_name (Some (pitch_of "C" "0.98" "5")) = Py.Ok (Some "C#5")
  /\ OnTree.pitch_name (Some (pitch_of "C" "1.5" "5")) = Py.Ok (Some "Cx5")
  /\ OnTree.pitch_name (Some (pitch_of "A" "-1" "4")) = Py.Ok (Some "Ab4")
  /\ OnTree.pitch_name (Some (pitch_of "A" "sharp" "4")) = Py.Ok (Some "A4")
  /\ OnTree.pitch_name (Some (pitch_of "A" "3" "4")) = Py.Ok (Some "A4").
Proof. repeat split; vm_compute; reflexivity. Qed.

(** C2 at an alteration that reads as an infinity.  [float('inf')]
    succeeds, [round] raises [OverflowError], and the handler of
    [pitch_name] catches [ValueError] only: the decoder renders nothing
    and the whole extraction raises. *)
Theorem pitch_name_infinite_alter :
  Py.float_of "inf" = Py.Ok Py.Inf
  /\ Py.round Py.Inf = Py.Raise Py.OverflowError
  /\ OnTree.pitch_name (Some (pitch_of "C" "inf" "4"))
     = Py.Raise Py.OverflowError
  /\ OnTree.pitch_name (Some (pitch_of "C" "1e999" "4"))
     = Py.Raise Py.OverflowError
  /\ OnTree.build_json infinite_alter_score = Py.Raise Py.OverflowError.
Proof. repeat split; vm_compute; reflexivity. Qed.

End Pitch.

(** ** The score record and the namespaces *)

Module Score.
Import Closed Spec Examples TreeFacts.

Lemma measure_body_eq measure_el (out : list json) :
  Extractor.measure_body measure_el out
  = Py.and_then (measure_entry measure_el)
      (fun l => Py.Ok (Continue (out ++ l)%list)).
Proof.
  unfold Extractor.measure_body, measure_entry, OnTree.build_measure.
  cbn [bind ret result_monad]. now rewrite and_then_assoc.
Qed.

Lemma creators_tree (cs : list Element) (score : pydict) :
  Extractor.for_in cs Extractor.creator_body score
  = Py.Ok (fold_left creator_update cs score).
Proof.
  revert score. induction cs as [|c cs IH]; intro score;
    cbn [Extractor.for_in fold_left]; [reflexivity|].
  unfold Extractor.creator_body at 1, creator_update at 2, role.
  cbn [bind ret result_monad tree_api el_get el_text Py.and_then].
  destruct (String.eqb _ "composer"); cbn [Py.and_then]; [apply IH|].
  destruct (String.eqb _ "arranger"); cbn [Py.and_then]; apply IH.
Qed.

Lemma title_tree root : Extractor.title_of root = Py.Ok (title root).
Proof.
  unfold Extractor.title_of, title. on_tree.
  destruct (Py.truthy (ET.findtext root [Child "work"; Child "work-title"]));
    on_tree; reflexivity.
Qed.

Lemma keys_dict_set {V} (d : list (string * V)) k v :
  In k (keys d) -> keys (dict_set d k v) = keys d.
Proof.
  unfold keys. induction d as [|[k0 v0] d IH]; cbn; [tauto|].
  intros [E|Hin].
  - subst k0. now rewrite String.eqb_refl.
  - destruct (String.eqb k k0) eqn:E; cbn.
    + apply String.eqb_eq in E. now subst k0.
    + now rewrite IH.
Qed.

Lemma dict_set_app {V} (d : list (string * V)) k v tail :
  In k (keys d) -> dict_set (d ++ tail) k v = (dict_set d k v ++ tail)%list.
Proof.
  unfold keys. induction d as [|[k0 v0] d IH]; cbn; [tauto|].
  intros [E|Hin].
  - subst k0. now rewrite String.eqb_refl.
  - destruct (String.eqb k k0); cbn; [reflexivity|]. now rewrite IH.
Qed.

Lemma dict_set_new {V} (d : list (string * V)) k v :
  dict_get d k = None -> dict_set d k v = (d ++ [(k, v)])%list.
Proof.
  induction d as [|[k0 v0] d IH]; cbn; [reflexivity|].
  destruct (String.eqb k k0); [discriminate|]. intro H. now rewrite IH.
Qed.

Lemma dict_set_twice {V} (d : list (string * V)) k v v' :
  dict_set (dict_set d k v) k v' = dict_set d k v'.
Proof.
  induction d as [|[k0 v0] d IH]; cbn.
  - now rewrite String.eqb_refl.
  - destruct (String.eqb k k0) eqn:E; cbn.
    + now rewrite String.eqb_refl.
    + now rewrite E, IH.
Qed.

Lemma creator_update_keys score c :
  keys score = head_keys -> keys (creator_update score c) = head_keys.
Proof.
  intro H. unfold creator_update.
  destruct (String.eqb _ "composer");
    [|destruct (String.eqb _ "arranger")];
    [rewrite keys_dict_set|rewrite keys_dict_set|]; try assumption;
    rewrite H; cbn; tauto.
Qed.

Lemma fold_creators_keys cs score :
  keys score = head_keys -> keys (fold_left creator_update cs score) = head_keys.
Proof.
  revert score. induction cs as [|c cs IH]; intros score H; cbn;
    [assumption|].
  apply IH. now apply creator_update_keys.
Qed.

Lemma score_head_keys root : keys (score_head root) = head_keys.
Proof. unfold score_head. now apply fold_creators_keys. Qed.

Lemma dict_get_keys {V} (d : list (string * V)) k :
  ~ In k (keys d) -> dict_get d k = None.
Proof.
  unfold keys. induction d as [|[k0 v0] d IH]; cbn; [reflexivity|]. intro H.
  destruct (String.eqb k k0) eqn:E.
  - apply String.eqb_eq in E. subst k0. tauto.
  - apply IH. tauto.
Qed.

Lemma build_json_eq root : OnTree.build_json root = score root.
Proof.
  unfold OnTree.build_json, Extractor.build_json, score.
  rewrite title_tree. on_tree. rewrite creators_tree. on_tree.
  rewrite (for_in_collect _ _ _ _ measure_body_eq). on_tree.
  rewrite and_then_id.
  apply and_then_ext. intro ms.
  change (fold_left creator_update _ _) with (score_head root).
  rewrite dict_set_twice, dict_set_new; [reflexivity|].
  apply dict_get_keys. rewrite score_head_keys. cbn. intuition discriminate.
Qed.

Lemma dict_get_app {V} (d tail : list (string * V)) k :
  dict_get (d ++ tail) k
  = match dict_get d k with Some v => Some v | None => dict_get tail k end.
Proof.
  induction d as [|[k0 v0] d IH]; cbn; [reflexivity|].
  now destruct (String.eqb k k0).
Qed.

Lemma keys_app {V} (d tail : list (string * V)) :
  keys (d ++ tail) = (keys d ++ keys tail)%list.
Proof. unfold keys. apply map_app. Qed.

Lemma role_not r c : ET.get c "type" <> Some r -> r <> "" ->
  String.eqb (role c) r = false.
Proof.
  intros H Hr. apply String.eqb_neq. unfold role. intro E.
  destruct (ET.get c "type") as [ty|]; cbn in E; [|congruence].
  apply H. now subst.
Qed.

(** The creator loop leaves a key alone unless a creator has that role. *)
Lemma fold_creators_get cs score k :
  (k = "composer" \/ k = "arranger" ->
   Forall (fun c => ET.get c "type" <> Some k) cs) ->
  dict_get (fold_left creator_update cs score) k = dict_get score k.
Proof.
  revert score. induction cs as [|c cs IH]; intros score H; cbn;
    [reflexivity|].
  rewrite IH.
  - unfold creator_update.
    destruct (String.eqb (role c) "composer") eqn:Ec.
    + rewrite dict_get_set. destruct (String.eqb k "composer") eqn:Ek;
        [|reflexivity].
      apply String.eqb_eq in Ek. subst k.
      assert (G := H (or_introl eq_refl)). inversion G as [|? ? Hc _]; subst.
      rewrite (role_not "composer" c Hc) in Ec; discriminate.
    + destruct (String.eqb (role c) "arranger") eqn:Ea; [|reflexivity].
      rewrite dict_get_set. destruct (String.eqb k "arranger") eqn:Ek;
        [|reflexivity].
      apply String.eqb_eq in Ek. subst k.
      assert (G := H (or_intror eq_refl)). inversion G as [|? ? Hc _]; subst.
      rewrite (role_not "arranger" c Hc) in Ea; discriminate.
  - intro Hk. specialize (H Hk). now inversion H.
Qed.

Lemma findtext_nil el p : ET.findall el p = [] -> ET.findtext el p = None.
Proof. intro H. unfold ET.findtext, ET.find. now rewrite H. Qed.

(** C10. The score record always has the top-level keys _schema, title,
    composer, arranger and measures, in that order; title, composer and
    arranger are null when the source has no title element, no creator of
    type composer, no creator of type arranger.  There is a record as soon
    as every measure yields one. *)
Theorem score_keys (root : Element) :
  (forall score,
      OnTree.build_json root = Py.Ok score ->
      keys score = ["_schema"; "title"; "composer"; "arranger"; "measures"]
      /\ (ET.findall root [Child "work"; Child "work-title"] = [] ->
          ET.findall root [Child "movement-title"] = [] ->
          dict_get score "title" = Some JNull)
      /\ (Forall (fun c => ET.get c "type" <> Some "composer") (creators root) ->
          dict_get score "composer" = Some JNull)
      /\ (Forall (fun c => ET.get c "type" <> Some "arranger") (creators root) ->
          dict_get score "arranger" = Some JNull))
  /\ (forall ms,
        measures root = Py.Ok ms ->
        exists score, OnTree.build_json root = Py.Ok score
                      /\ dict_get score "measures" = Some (JList ms)).
Proof.
  rewrite build_json_eq. unfold score. split.
  - intros sc H. apply and_then_ok in H. destruct H as [ms [_ H]].
    injection H as <-. rewrite keys_app, score_head_keys.
    split; [reflexivity|]. rewrite !dict_get_app. unfold score_head.
    split; [|split].
    + intros Hw Hm. rewrite fold_creators_get by (intros [E|E]; discriminate E).
      unfold title. rewrite (findtext_nil _ _ Hw), (findtext_nil _ _ Hm).
      reflexivity.
    + intro Hc. rewrite fold_creators_get; [reflexivity|]. now intros _.
    + intro Ha. rewrite fold_creators_get; [reflexivity|]. now intros _.
  - intros ms Hms. rewrite Hms. cbn [Py.and_then]. eexists.
    split; [reflexivity|]. rewrite dict_get_app.
    rewrite dict_get_keys; [cbn; reflexivity|].
    rewrite score_head_keys. cbn. intuition discriminate.
Qed.

Lemma score_keys_witness :
  exists score,
    OnTree.build_json untitled_score = Py.Ok score
    /\ keys score = ["_schema"; "title"; "composer"; "arranger"; "measures"]
    /\ dict_get score "title" = Some JNull
    /\ dict_get score "composer" = Some JNull
    /\ dict_get score "arranger" = Some JNull
    /\ dict_get score "measures" = Some (JList [JDict [("number", JInt 1)]]).
Proof.
  destruct (proj2 (score_keys untitled_score) [JDict [("number", JInt 1)]]
              eq_refl) as [score [Hscore Hms]].
  exists score.
  destruct (proj1 (score_keys untitled_score) score Hscore)
    as [Hk [Ht [Hc Ha]]].
  repeat split; try assumption.
  - exact (Ht eq_refl eq_refl).
  - exact (Hc (Forall_nil _)).
  - exact (Ha (Forall_nil _)).
Defined.

(** The one-measure score of the specification, end to end. *)
Example one_measure_record :
  OnTree.build_json one_measure_score
  = Py.Ok
      [("_schema", JStr SCHEMA); ("title", JNull); ("composer", JNull);
       ("arranger", JNull);
       ("measures",
        JList
          [JDict
             [("number", JInt 1); ("time", JStr "3/4"); ("tempo", JInt 96);
              ("notes",
               JList [JDict [("pitch", JStr "C#5");
                             ("type", JStr "quarter")]])]])].
Proof. vm_compute. reflexivity. Qed.

(** *** Namespaces *)

Lemma split_nonempty c s : Py.split c s <> [].
Proof.
  destruct s as [|d s]; cbn; [discriminate|].
  destruct (Ascii.eqb c d); [discriminate|].
  destruct (Py.split c s); discriminate.
Qed.

Lemma last_cons {A} (x : A) l d : l <> [] -> List.last (x :: l) d = List.last l d.
Proof. destruct l; [congruence|reflexivity]. Qed.

Lemma last_piece_bare c s :
  Py.contains c (Py.last_piece (Py.split c s)) = false.
Proof.
  unfold Py.last_piece. induction s as [|d s IH]; cbn [Py.split];
    [reflexivity|].
  destruct (Ascii.eqb c d) eqn:E.
  - rewrite last_cons by apply split_nonempty. exact IH.
  - destruct (Py.split c s) as [|piece rest] eqn:S.
    + now destruct (split_nonempty c s).
    + destruct rest as [|r rest].
      * cbn in *. now rewrite E.
      * exact IH.
Qed.

Lemma detag_name_bare t : Py.contains "}" (detag_name t) = false.
Proof.
  unfold detag_name. destruct (Py.contains "}" t) eqn:E; [|assumption].
  apply last_piece_bare.
Qed.

Lemma detag_name_id t : Py.contains "}" t = false -> detag_name t = t.
Proof. intro H. unfold detag_name. now rewrite H. Qed.

Lemma detag_name_idem t : detag_name (detag_name t) = detag_name t.
Proof. apply detag_name_id, detag_name_bare. Qed.

Lemma strip_attributes_without_namespaces e :
  Stripper.strip_attributes (without_namespaces e)
  = without_namespaces (Stripper.strip_attributes e).
Proof. now destruct e. Qed.

Lemma detag_without_namespaces e :
  Stripper.detag (without_namespaces e) = Stripper.detag e.
Proof. destruct e. apply detag_name_idem. Qed.

Lemma strip_tree_without_namespaces e :
  Stripper.strip_tree (without_namespaces e)
  = without_namespaces (Stripper.strip_tree e).
Proof.
  induction e as [t a x cs IH] using Element_tree_ind.
  cbn [without_namespaces]. rewrite !StripperFacts.strip_tree_eq.
  cbn [without_namespaces]. f_equal.
  induction cs as [|c cs IHcs]; [reflexivity|].
  inversion IH as [|? ? Hc Hcs]; subst.
  cbn [map Stripper.strip_children]. rewrite detag_without_namespaces.
  destruct (mem (Stripper.detag c) STRIP_ELEMENTS); [now apply IHcs|].
  cbn [map]. rewrite Hc, strip_attributes_without_namespaces.
  now rewrite (IHcs Hcs).
Qed.

(** *** The extractor on a tree without its namespaces *)

Lemma tag_without_namespaces e :
  tag (without_namespaces e) = detag_name (tag e).
Proof. now destruct e. Qed.

Lemma text_without_namespaces e : text (without_namespaces e) = text e.
Proof. now destruct e. Qed.

Lemma get_without_namespaces e k :
  ET.get (without_namespaces e) k = ET.get e k.
Proof. now destruct e. Qed.

Lemma children_without_namespaces e :
  children (without_namespaces e) = map without_namespaces (children e).
Proof. now destruct e. Qed.

Lemma flat_map_map_tree {B C} (w : Element -> Element) (g : B -> C)
  (f : Element -> list B) (f' : Element -> list C) l :
  Forall (fun c => f' (w c) = map g (f c)) l ->
  flat_map f' (map w l) = map g (flat_map f l).
Proof.
  induction 1 as [|c l Hc _ IH]; cbn; [reflexivity|].
  now rewrite map_app, Hc, IH.
Qed.

Lemma iter_all_without_namespaces e :
  ET.iter_all (without_namespaces e) = map without_namespaces (ET.iter_all e).
Proof.
  induction e as [t a x cs IH] using Element_tree_ind.
  cbn [without_namespaces ET.iter_all map]. f_equal.
  now apply flat_map_map_tree.
Qed.

Lemma descendants_without_namespaces e :
  ET.descendants (without_namespaces e)
  = map without_namespaces (ET.descendants e).
Proof.
  unfold ET.descendants. rewrite children_without_namespaces.
  apply flat_map_map_tree. apply Forall_forall. intros c _.
  apply iter_all_without_namespaces.
Qed.

(** The names looked up are bare. *)
Lemma lookup_name_bare name :
  mem name LOOKUP_NAMES = true -> Py.contains "}" name = false.
Proof.
  intro H. apply StripperFacts.mem_In in H. unfold LOOKUP_NAMES in H.
  repeat (destruct H as [<-|H]; [reflexivity|]). destruct H.
Qed.

(** A lookup by name sees a node of such a tree as it sees the node
    without its namespace. *)
Lemma has_tag_without_namespaces name x :
  lookup_free x -> mem name LOOKUP_NAMES = true ->
  ET.has_tag name (without_namespaces x) = ET.has_tag name x.
Proof.
  intros Hx Hname. unfold ET.has_tag. rewrite tag_without_namespaces.
  destruct (Py.contains "}" (tag x)) eqn:Q.
  - specialize (Hx Q).
    replace (String.eqb (detag_name (tag x)) name) with false.
    + symmetry. apply String.eqb_neq. intro E. rewrite E in Q.
      now rewrite (lookup_name_bare name Hname) in Q.
    + symmetry. apply String.eqb_neq. intro E. rewrite E in Hx.
      now rewrite Hname in Hx.
  - now rewrite (detag_name_id _ Q).
Qed.

Lemma filter_tag_without_namespaces name l :
  Forall lookup_free l -> mem name LOOKUP_NAMES = true ->
  filter (ET.has_tag name) (map without_namespaces l)
  = map without_namespaces (filter (ET.has_tag name) l).
Proof.
  intros Hl Hname. induction Hl as [|c l Hc _ IH]; cbn [map filter];
    [reflexivity|].
  rewrite (has_tag_without_namespaces name c Hc Hname).
  destruct (ET.has_tag name c); cbn [map]; now rewrite IH.
Qed.

(** *** The nodes of a tree *)

Lemma In_iter_all_self e : In e (ET.iter_all e).
Proof. rewrite Measures.iter_all_eq. now left. Qed.

Lemma In_iter_all_trans e x y :
  In x (ET.iter_all e) -> In y (ET.iter_all x) -> In y (ET.iter_all e).
Proof.
  induction e as [t a u cs IH] using Element_tree_ind.
  cbn [ET.iter_all]. intros [<-|Hx] Hy; [exact Hy|]. right.
  apply in_flat_map in Hx. destruct Hx as [c [Hc Hx]].
  apply in_flat_map. exists c. split; [assumption|].
  rewrite Forall_forall in IH. now apply (IH c Hc).
Qed.

Lemma In_children_iter_all e c : In c (children e) -> In c (ET.iter_all e).
Proof.
  intro H. rewrite Measures.iter_all_eq. right.
  apply (Measures.In_descendants_child e c c H), In_iter_all_self.
Qed.

Lemma In_descendants_iter_all e x :
  In x (ET.descendants e) -> In x (ET.iter_all e).
Proof. intro H. rewrite Measures.iter_all_eq. now right. Qed.

Lemma lookups_below e x :
  lookups_unqualified e -> In x (ET.iter_all e) -> lookups_unqualified x.
Proof.
  unfold lookups_unqualified. rewrite !Forall_forall. intros H Hx y Hy.
  apply H. exact (In_iter_all_trans e x y Hx Hy).
Qed.

Lemma lookups_nodes e l :
  lookups_unqualified e -> Forall (fun x => In x (ET.iter_all e)) l ->
  Forall lookup_free l /\ Forall lookups_unqualified l.
Proof.
  intros H Hl. split; apply Forall_forall; intros x Hx;
    rewrite Forall_forall in Hl; specialize (Hl x Hx).
  - unfold lookups_unqualified in H. rewrite Forall_forall in H.
    now apply H.
  - exact (lookups_below e x H Hl).
Qed.

(** *** Selections *)

Lemma select_nodes st l x :
  In x (ET.select st l) -> exists c, In c l /\ In x (ET.iter_all c).
Proof.
  destruct st as [|name|name|]; cbn [ET.select].
  - intro H. exists x. split; [assumption|apply In_iter_all_self].
  - intro H. apply in_flat_map in H. destruct H as [c [Hc H]].
    exists c. split; [assumption|]. apply In_children_iter_all.
    now apply Measures.children_named_In in H.
  - intro H. apply in_flat_map in H. destruct H as [c [Hc H]].
    exists c. split; [assumption|]. apply In_descendants_iter_all.
    unfold ET.descendants_named in H. now apply filter_In in H.
  - intro H. apply in_flat_map in H. destruct H as [c [Hc H]].
    exists c. split; [assumption|]. now apply In_children_iter_all.
Qed.

Lemma select_below e st l :
  Forall (fun x => In x (ET.iter_all e)) l ->
  Forall (fun x => In x (ET.iter_all e)) (ET.select st l).
Proof.
  rewrite !Forall_forall. intros H x Hx.
  apply select_nodes in Hx. destruct Hx as [c [Hc Hx]].
  exact (In_iter_all_trans e c x (H c Hc) Hx).
Qed.

Lemma fold_select_below e p l :
  Forall (fun x => In x (ET.iter_all e)) l ->
  Forall (fun x => In x (ET.iter_all e))
    (fold_left (fun result st => ET.select st result) p l).
Proof.
  revert l. induction p as [|st p IH]; intros l H; cbn [fold_left];
    [assumption|].
  apply IH. now apply select_below.
Qed.

Lemma findall_below e p :
  Forall (fun x => In x (ET.iter_all e)) (ET.findall e p).
Proof.
  apply fold_select_below. constructor; [apply In_iter_all_self|constructor].
Qed.

Lemma children_named_without_namespaces name e :
  lookups_unqualified e -> mem name LOOKUP_NAMES = true ->
  ET.children_named name (without_namespaces e)
  = map without_namespaces (ET.children_named name e).
Proof.
  intros H Hname. unfold ET.children_named.
  rewrite children_without_namespaces.
  apply filter_tag_without_namespaces; [|assumption].
  apply (lookups_nodes e); [assumption|]. apply Forall_forall.
  intros c Hc. now apply In_children_iter_all.
Qed.

Lemma descendants_named_without_namespaces name e :
  lookups_unqualified e -> mem name LOOKUP_NAMES = true ->
  ET.descendants_named name (without_namespaces e)
  = map without_namespaces (ET.descendants_named name e).
Proof.
  intros H Hname. unfold ET.descendants_named.
  rewrite descendants_without_namespaces.
  apply filter_tag_without_namespaces; [|assumption].
  apply (lookups_nodes e); [assumption|]. apply Forall_forall.
  intros c Hc. now apply In_descendants_iter_all.
Qed.

Lemma select_without_namespaces st l :
  Forall lookups_unqualified l -> looked_up st ->
  ET.select st (map without_namespaces l)
  = map without_namespaces (ET.select st l).
Proof.
  intros Hl Hst. destruct st as [|name|name|]; cbn [ET.select];
    [reflexivity| | |]; apply flat_map_map_tree;
    apply Forall_forall; intros c Hc; rewrite Forall_forall in Hl.
  - apply children_named_without_namespaces; [now apply Hl|exact Hst].
  - apply descendants_named_without_namespaces; [now apply Hl|exact Hst].
  - apply children_without_namespaces.
Qed.

Lemma fold_select_without_namespaces e p l :
  lookups_unqualified e -> Forall (fun x => In x (ET.iter_all e)) l ->
  Forall looked_up p ->
  fold_left (fun result st => ET.select st result) p
    (map without_namespaces l)
  = map without_namespaces
      (fold_left (fun result st => ET.select st result) p l).
Proof.
  intros He Hl Hp. revert l Hl.
  induction Hp as [|st p Hst _ IH]; intros l Hl; cbn [fold_left];
    [reflexivity|].
  rewrite select_without_namespaces;
    [|now apply (lookups_nodes e)|assumption].
  apply IH. now apply select_below.
Qed.

Lemma findall_without_namespaces e p :
  lookups_unqualified e -> Forall looked_up p ->
  ET.findall (without_namespaces e) p
  = map without_namespaces (ET.findall e p).
Proof.
  intros He Hp. unfold ET.findall.
  change [without_namespaces e] with (map without_namespaces [e]).
  apply (fold_select_without_namespaces e); try assumption.
  constructor; [apply In_iter_all_self|constructor].
Qed.

Lemma find_without_namespaces e p :
  lookups_unqualified e -> Forall looked_up p ->
  ET.find (without_namespaces e) p
  = option_map without_namespaces (ET.find e p).
Proof.
  intros He Hp. unfold ET.find. rewrite findall_without_namespaces by assumption.
  now destruct (ET.findall e p).
Qed.

Lemma findtext_without_namespaces e p :
  lookups_unqualified e -> Forall looked_up p ->
  ET.findtext (without_namespaces e) p = ET.findtext e p.
Proof.
  intros He Hp. unfold ET.findtext. rewrite find_without_namespaces by assumption.
  destruct (ET.find e p); cbn; [now rewrite text_without_namespaces|reflexivity].
Qed.

Lemma iter_without_namespaces e name :
  lookups_unqualified e -> mem name LOOKUP_NAMES = true ->
  ET.iter (without_namespaces e) name
  = map without_namespaces (ET.iter e name).
Proof.
  intros He Hname. unfold ET.iter. rewrite iter_all_without_namespaces.
  now apply filter_tag_without_namespaces.
Qed.

(** What a lookup finds in such a tree is such a tree. *)
Lemma lookups_find e p x :
  lookups_unqualified e -> ET.find e p = Some x -> lookups_unqualified x.
Proof.
  intros He H. apply (lookups_below e x He).
  pose proof (findall_below e p) as Hb. unfold ET.find in H.
  destruct (ET.findall e p) as [|y l]; [discriminate|].
  injection H as ->. now inversion Hb.
Qed.

Lemma lookups_findall e p :
  lookups_unqualified e -> Forall lookups_unqualified (ET.findall e p).
Proof. intro He. exact (proj2 (lookups_nodes e _ He (findall_below e p))). Qed.

Lemma lookups_children_named e name :
  lookups_unqualified e -> Forall lookups_unqualified (ET.children_named name e).
Proof. intro He. rewrite <- findall_child. now apply lookups_findall. Qed.

Lemma lookups_iter e name :
  lookups_unqualified e -> Forall lookups_unqualified (ET.iter e name).
Proof.
  intro He. apply (lookups_nodes e _ He). apply Forall_forall.
  intros x Hx. unfold ET.iter in Hx. now apply filter_In in Hx.
Qed.

(** The paths of the program. *)
Ltac looked := repeat constructor.

(** *** The closed forms on such a tree *)

Lemma find_map_tree (w : Element -> Element) (p : Element -> bool) l :
  (forall x, p (w x) = p x) ->
  List.find p (map w l) = option_map w (List.find p l).
Proof.
  intro H. induction l as [|x l IH]; cbn; [reflexivity|].
  rewrite H. now destruct (p x).
Qed.

Lemma flat_map_tree {B} (w : Element -> Element) (f : Element -> list B) l :
  Forall (fun x => f (w x) = f x) l -> flat_map f (map w l) = flat_map f l.
Proof.
  induction 1 as [|x l Hx _ IH]; cbn; [reflexivity|]. now rewrite Hx, IH.
Qed.

Lemma collect_tree {B} (w : Element -> Element)
  (f : Element -> Py.result (list B)) l :
  Forall (fun x => f (w x) = f x) l -> collect f (map w l) = collect f l.
Proof.
  induction 1 as [|x l Hx _ IH]; cbn; [reflexivity|]. now rewrite Hx, IH.
Qed.

Lemma carries_type_without_namespaces t :
  carries_type (without_namespaces t) = carries_type t.
Proof. unfold carries_type. now rewrite get_without_namespaces. Qed.

Lemma is_start_without_namespaces t :
  is_start (without_namespaces t) = is_start t.
Proof. unfold is_start. now rewrite get_without_namespaces. Qed.

Lemma texts_without_namespaces l :
  texts (map without_namespaces l) = texts l.
Proof.
  unfold texts. apply flat_map_tree. apply Forall_forall. intros x _.
  now rewrite text_without_namespaces.
Qed.

(** The names written under artic, ornament and dynamics are bare either
    way. *)
Lemma names_without_namespaces l :
  names (map without_namespaces l) = names l.
Proof.
  unfold names. rewrite map_map. apply map_ext. intro x.
  now rewrite tag_without_namespaces, detag_name_idem.
Qed.

Lemma first_typed_without_namespaces key l n :
  first_typed key (map without_namespaces l) n = first_typed key l n.
Proof.
  unfold first_typed.
  rewrite (find_map_tree _ _ _ carries_type_without_namespaces).
  destruct (List.find carries_type l); cbn;
    [now rewrite get_without_namespaces|reflexivity].
Qed.

Lemma pitch_name_without_namespaces p :
  lookups_unqualified p ->
  OnTree.pitch_name (Some (without_namespaces p)) = OnTree.pitch_name (Some p).
Proof.
  intro Hp. rewrite !Pitch.pitch_name_eq. unfold pitch.
  now rewrite !findtext_without_namespaces by (assumption || looked).
Qed.

Lemma is_some_map {A} (w : A -> A) (o : option A) :
  is_some (option_map w o) = is_some o.
Proof. now destruct o. Qed.

Lemma note_front_without_namespaces el :
  lookups_unqualified el ->
  note_front (without_namespaces el) = note_front el.
Proof.
  intro He. unfold note_front.
  rewrite !findtext_without_namespaces by (assumption || looked).
  rewrite !find_without_namespaces by (assumption || looked).
  apply and_then_ext. intro n1. apply and_then_ext. intro n2.
  destruct (ET.find el [Child "rest"]); cbn [option_map]; [reflexivity|].
  destruct (ET.find el [Child "pitch"]) as [p|] eqn:Hp; cbn [option_map];
    [|reflexivity].
  now rewrite (pitch_name_without_namespaces p (lookups_find el _ p He Hp)).
Qed.

Lemma note_back_without_namespaces el n :
  lookups_unqualified el ->
  note_back (without_namespaces el) n = note_back el n.
Proof.
  intro He. unfold note_back.
  rewrite !findtext_without_namespaces by (assumption || looked).
  rewrite !find_without_namespaces by (assumption || looked).
  rewrite !findall_without_namespaces by (assumption || looked).
  rewrite !is_some_map, !texts_without_namespaces, !names_without_namespaces.
  rewrite !first_typed_without_namespaces, !length_map.
  rewrite (find_map_tree _ _ _ is_start_without_namespaces).
  now destruct (List.find is_start _).
Qed.

Lemma build_note_without_namespaces el :
  lookups_unqualified el ->
  OnTree.build_note (without_namespaces el) = OnTree.build_note el.
Proof.
  intro He. rewrite !build_note_eq, (note_front_without_namespaces el He).
  apply and_then_ext. intro n. now rewrite note_back_without_namespaces.
Qed.

Lemma under_directions_without_namespaces name el :
  lookups_unqualified el -> mem name LOOKUP_NAMES = true ->
  under_directions name (without_namespaces el)
  = map without_namespaces (under_directions name el).
Proof.
  intros He Hname. unfold under_directions.
  rewrite children_named_without_namespaces by (assumption || reflexivity).
  apply flat_map_map_tree.
  pose proof (lookups_children_named el "direction" He) as Hd.
  rewrite Forall_forall in Hd. apply Forall_forall. intros c Hc.
  apply descendants_named_without_namespaces; [now apply Hd|assumption].
Qed.

Lemma measure_number_without_namespaces el :
  measure_number (without_namespaces el) = measure_number el.
Proof. unfold measure_number. now rewrite get_without_namespaces. Qed.

Lemma key_step_without_namespaces el m :
  lookups_unqualified el -> key_step (without_namespaces el) m = key_step el m.
Proof.
  intro He. unfold key_step.
  rewrite find_without_namespaces by (assumption || looked).
  destruct (ET.find el _) as [k|] eqn:Hk; cbn [option_map]; [|reflexivity].
  rewrite findtext_without_namespaces; [reflexivity| |looked].
  exact (lookups_find el _ k He Hk).
Qed.

Lemma time_step_without_namespaces el m :
  lookups_unqualified el -> time_step (without_namespaces el) m = time_step el m.
Proof.
  intro He. unfold time_step.
  rewrite find_without_namespaces by (assumption || looked).
  destruct (ET.find el _) as [k|] eqn:Hk; cbn [option_map]; [|reflexivity].
  pose proof (lookups_find el _ k He Hk) as Hl.
  now rewrite !findtext_without_namespaces by (assumption || looked).
Qed.

Lemma tempo_step_without_namespaces el m :
  lookups_unqualified el ->
  tempo_step (without_namespaces el) m = tempo_step el m.
Proof.
  intro He. unfold tempo_step.
  rewrite iter_without_namespaces by (assumption || reflexivity).
  pose proof (lookups_iter el "metronome" He) as Hm.
  induction (ET.iter el "metronome") as [|metro l IH]; [reflexivity|].
  inversion Hm as [|? ? Hmetro Hl]; subst. cbn [map List.find].
  assert (E : has_per_minute (without_namespaces metro) = has_per_minute metro).
  { unfold has_per_minute.
    now rewrite findtext_without_namespaces by (assumption || looked). }
  rewrite E. destruct (has_per_minute metro); [|now apply IH].
  now rewrite findtext_without_namespaces by (assumption || looked).
Qed.

Lemma directions_without_namespaces el :
  lookups_unqualified el -> directions (without_namespaces el) = directions el.
Proof.
  intro He. unfold directions.
  rewrite under_directions_without_namespaces by (assumption || reflexivity).
  apply texts_without_namespaces.
Qed.

Lemma wedges_without_namespaces el :
  lookups_unqualified el -> wedges (without_namespaces el) = wedges el.
Proof.
  intro He. unfold wedges.
  rewrite under_directions_without_namespaces by (assumption || reflexivity).
  apply collect_tree. apply Forall_forall. intros w _.
  unfold wedge_entry. now rewrite !get_without_namespaces.
Qed.

Lemma pedals_without_namespaces el :
  lookups_unqualified el -> pedals (without_namespaces el) = pedals el.
Proof.
  intro He. unfold pedals.
  rewrite under_directions_without_namespaces by (assumption || reflexivity).
  apply flat_map_tree. apply Forall_forall. intros p _.
  unfold pedal_entry. now rewrite !get_without_namespaces.
Qed.

Lemma notes_without_namespaces el :
  lookups_unqualified el -> notes (without_namespaces el) = notes el.
Proof.
  intro He. unfold notes.
  rewrite children_named_without_namespaces by (assumption || reflexivity).
  apply collect_tree.
  pose proof (lookups_children_named el "note" He) as Hn.
  rewrite Forall_forall in Hn. apply Forall_forall. intros note_el Hin.
  unfold note_entry. now rewrite build_note_without_namespaces by now apply Hn.
Qed.

Lemma dynamics_without_namespaces el :
  lookups_unqualified el -> dynamics (without_namespaces el) = dynamics el.
Proof.
  intro He. unfold dynamics.
  rewrite children_named_without_namespaces by (assumption || reflexivity).
  apply flat_map_tree.
  pose proof (lookups_children_named el "direction" He) as Hd.
  rewrite Forall_forall in Hd. apply Forall_forall. intros d Hin.
  unfold dynamics_entry.
  rewrite find_without_namespaces by (looked || now apply Hd).
  destruct (ET.find d _); cbn [option_map]; [|reflexivity].
  now rewrite children_without_namespaces, names_without_namespaces.
Qed.

Lemma build_measure_without_namespaces el :
  lookups_unqualified el ->
  OnTree.build_measure (without_namespaces el) = OnTree.build_measure el.
Proof.
  intro He. rewrite !build_measure_eq. unfold measure.
  rewrite measure_number_without_namespaces.
  rewrite (wedges_without_namespaces el He), (notes_without_namespaces el He).
  rewrite (directions_without_namespaces el He).
  rewrite (pedals_without_namespaces el He), (dynamics_without_namespaces el He).
  apply and_then_ext. intro number.
  rewrite (key_step_without_namespaces el _ He).
  apply and_then_ext. intro m.
  now rewrite (time_step_without_namespaces el _ He),
    (tempo_step_without_namespaces el _ He).
Qed.

Lemma fold_creators_without_namespaces cs score :
  fold_left creator_update (map without_namespaces cs) score
  = fold_left creator_update cs score.
Proof.
  revert score. induction cs as [|c cs IH]; intro score; cbn;
    [reflexivity|].
  rewrite <- IH. f_equal. unfold creator_update, role.
  now rewrite get_without_namespaces, text_without_namespaces.
Qed.

Lemma build_json_without_namespaces root :
  lookups_unqualified root ->
  OnTree.build_json (without_namespaces root) = OnTree.build_json root.
Proof.
  intro He. rewrite !build_json_eq. unfold score, measures, score_head.
  unfold creators, title.
  rewrite iter_without_namespaces by (assumption || reflexivity).
  rewrite !findtext_without_namespaces by (assumption || looked).
  rewrite findall_without_namespaces by (assumption || looked).
  rewrite fold_creators_without_namespaces.
  replace (collect measure_entry (map without_namespaces (ET.iter root "measure")))
    with (collect measure_entry (ET.iter root "measure")); [reflexivity|].
  symmetry. apply collect_tree.
  pose proof (lookups_iter root "measure" He) as Hm.
  rewrite Forall_forall in Hm. apply Forall_forall. intros m Hin.
  unfold measure_entry.
  now rewrite build_measure_without_namespaces by now apply Hm.
Qed.

(** *** A tree whose tags are all qualified *)

Lemma has_tag_qualified name x :
  Py.contains "}" (tag x) = true -> mem name LOOKUP_NAMES = true ->
  ET.has_tag name x = false.
Proof.
  intros Q Hname. unfold ET.has_tag. apply String.eqb_neq. intro E.
  rewrite E in Q. now rewrite (lookup_name_bare name Hname) in Q.
Qed.

Lemma filter_tag_qualified name l :
  Forall (fun node => Py.contains "}" (tag node) = true) l ->
  mem name LOOKUP_NAMES = true -> filter (ET.has_tag name) l = [].
Proof.
  intros Hl Hname. induction Hl as [|x l Hx _ IH]; cbn; [reflexivity|].
  now rewrite (has_tag_qualified name x Hx Hname).
Qed.

Lemma iter_qualified root name :
  all_qualified root -> mem name LOOKUP_NAMES = true -> ET.iter root name = [].
Proof. intros H Hname. now apply filter_tag_qualified. Qed.

Lemma children_named_qualified root name :
  all_qualified root -> mem name LOOKUP_NAMES = true ->
  ET.children_named name root = [].
Proof.
  intros H Hname. apply filter_tag_qualified; [|assumption].
  unfold all_qualified in H. rewrite Forall_forall in H.
  apply Forall_forall. intros c Hc. apply H.
  now apply In_children_iter_all.
Qed.

Lemma build_json_qualified root :
  all_qualified root -> OnTree.build_json root = Py.Ok empty_score.
Proof.
  intro H. rewrite build_json_eq. unfold score, measures, score_head.
  unfold creators, title, ET.findtext, ET.find, ET.findall.
  rewrite (iter_qualified root "measure" H eq_refl).
  cbn [fold_left ET.select flat_map]. rewrite !app_nil_r.
  rewrite (children_named_qualified root "work" H eq_refl).
  rewrite (children_named_qualified root "movement-title" H eq_refl).
  rewrite (children_named_qualified root "identification" H eq_refl).
  reflexivity.
Qed.

(** C5, as the code has it.  [detag] gives a bare name, and the program
    applies it where it calls it: in the denylist test of the Noise
    Stripper, so that stripping and removing the namespaces commute, and
    to the names listed under artic, ornament and dynamics.  The lookups
    of the Semantic Extractor ([find], [findall], [findtext], [iter])
    compare whole tags: a tree whose tags are all qualified yields the
    empty score, and the score is the same with or without the namespace
    removal whenever no qualified tag of the tree has a bare name that
    the extractor looks up. *)
Theorem namespace_rule :
  (forall t, Py.contains "}" (detag_name t) = false)
  /\ (forall root,
        Stripper.strip_document (without_namespaces root)
        = without_namespaces (Stripper.strip_document root))
  /\ (forall els : list Element,
        exists l, Extractor.tags_of els [] = Py.Ok l
                  /\ l = map (fun el => detag_name (tag el)) els
                  /\ Forall (fun name => Py.contains "}" name = false) l)
  /\ (forall root,
        all_qualified root -> OnTree.build_json root = Py.Ok empty_score)
  /\ (forall root,
        lookups_unqualified root ->
        OnTree.build_json (without_namespaces root) = OnTree.build_json root).
Proof.
  split; [exact detag_name_bare|]. split; [|split; [|split]].
  - intro root. unfold Stripper.strip_document.
    now rewrite strip_attributes_without_namespaces,
      strip_tree_without_namespaces.
  - intro els. eexists. split; [apply tags_of_tree|].
    split; [reflexivity|]. cbn [app]. unfold names.
    apply Forall_forall. intros name Hin. apply in_map_iff in Hin.
    destruct Hin as [el [<- _]]. apply detag_name_bare.
  - exact build_json_qualified.
  - exact build_json_without_namespaces.
Qed.

(** A score with a qualified dynamic and a qualified articulation gives
    the record of its bare form; a score qualified throughout gives the
    empty record. *)
Lemma namespace_rule_witness :
  OnTree.build_json (without_namespaces partly_qualified_score)
  = OnTree.build_json partly_qualified_score
  /\ without_namespaces partly_qualified_score <> partly_qualified_score
  /\ OnTree.build_json qualified_score = Py.Ok empty_score.
Proof.
  split; [|split].
  - apply (proj2 (proj2 (proj2 (proj2 namespace_rule)))
             partly_qualified_score).
    unfold lookups_unqualified.
    cbn [ET.iter_all partly_qualified_score flat_map app].
    repeat constructor; intro Q; try discriminate Q; reflexivity.
  - discriminate.
  - apply (proj1 (proj2 (proj2 (proj2 namespace_rule))) qualified_score).
    unfold all_qualified. cbn [ET.iter_all qualified_score flat_map app].
    repeat constructor.
Defined.

(** C5 as stated fails: in a namespace-qualified tree the extractor finds
    no measure, while it finds one after the prefixes are removed. *)
Lemma namespace_counterexample :
  ~ (forall root,
        OnTree.build_json root = OnTree.build_json (without_namespaces root)).
Proof.
  intro H. specialize (H qualified_score). vm_compute in H.
  discriminate H.
Qed.

End Score.

(** ** The extractor on a document in place *)

Module StoreFacts.
Import Store OnStore.
Local Open Scope list_scope.

(** *** The API in place agrees with the API on trees *)

Lemma node_at_snoc doc h i :
  node_at doc (h ++ [i])
  = match node_at doc h with
    | Some e => nth_error (children e) i
    | None => None
    end.
Proof.
  revert doc. induction h as [|j h IH]; intro doc; cbn.
  - now destruct (nth_error (children doc) i).
  - destruct (nth_error (children doc) j); [apply IH|reflexivity].
Qed.

Lemma number_from_snd h i l : map snd (number_from h i l) = l.
Proof.
  revert i. induction l as [|c l IH]; intro i; cbn; [reflexivity|].
  now rewrite IH.
Qed.

Lemma number_from_located doc h e i l :
  node_at doc h = Some e ->
  (forall k c, nth_error l k = Some c ->
               nth_error (children e) (i + k) = Some c) ->
  located_in doc (number_from h i l).
Proof.
  intro Hh. revert i. induction l as [|c l IH]; intros i Hl; cbn;
    constructor.
  - cbn. rewrite node_at_snoc, Hh. rewrite <- (Nat.add_0_r i).
    now apply Hl.
  - apply IH. intros k c' Hk. rewrite Nat.add_succ_comm.
    now apply Hl.
Qed.

Lemma children_at_snd he : map snd (children_at he) = children (snd he).
Proof. apply number_from_snd. Qed.

Lemma children_at_located doc he :
  node_at doc (fst he) = Some (snd he) -> located_in doc (children_at he).
Proof.
  intro H. unfold children_at.
  apply (number_from_located doc (fst he) (snd he)); [assumption|].
  now intros k c Hk.
Qed.

Lemma iter_all_at_eq h e :
  iter_all_at h e
  = (h, e) :: flat_map (fun hc => iter_all_at (fst hc) (snd hc))
                (children_at (h, e)).
Proof.
  destruct e as [t a x cs]. cbn [iter_all_at]. f_equal.
  unfold children_at. cbn [fst snd children]. generalize 0%nat.
  induction cs as [|c cs IH]; intro i; cbn; [reflexivity|].
  now rewrite IH.
Qed.

Lemma iter_all_at_snd h e : map snd (iter_all_at h e) = ET.iter_all e.
Proof.
  revert h. induction e as [t a x cs IH] using Element_tree_ind. intro h.
  cbn [iter_all_at ET.iter_all map snd]. f_equal. generalize 0%nat.
  induction cs as [|c cs IHcs]; intro i; cbn; [reflexivity|].
  inversion IH as [|? ? Hc Hcs]; subst.
  now rewrite map_app, Hc, (IHcs Hcs).
Qed.

Lemma flat_map_snd {A} (f : A -> list located) (g : Element -> list Element)
  (proj : A -> Element) (l : list A) :
  (forall x, map snd (f x) = g (proj x)) ->
  map snd (flat_map f l) = flat_map g (map proj l).
Proof.
  intro H. induction l as [|x l IH]; cbn [flat_map map]; [reflexivity|].
  rewrite map_app, H. f_equal. exact IH.
Qed.

Lemma descendants_at_snd he :
  map snd (descendants_at he) = ET.descendants (snd he).
Proof.
  unfold descendants_at, ET.descendants.
  rewrite <- (children_at_snd he).
  apply flat_map_snd. intros [h c]. apply iter_all_at_snd.
Qed.

Lemma named_snd name l :
  map snd (named name l) = filter (ET.has_tag name) (map snd l).
Proof.
  unfold named. induction l as [|[h e] l IH]; cbn; [reflexivity|].
  destruct (ET.has_tag name e); cbn; now rewrite IH.
Qed.

(** One step of a path selects the same nodes in place and on trees. *)
Lemma select_at_snd st l :
  map snd (select_at st l) = ET.select st (map snd l).
Proof.
  destruct st as [|name|name|]; cbn [select_at ET.select].
  - reflexivity.
  - apply flat_map_snd. intro he. unfold ET.children_named.
    now rewrite named_snd, children_at_snd.
  - apply flat_map_snd. intro he. unfold ET.descendants_named.
    now rewrite named_snd, descendants_at_snd.
  - apply flat_map_snd. intro he. apply children_at_snd.
Qed.

Lemma fold_select_snd p l :
  map snd (fold_left (fun result st => select_at st result) p l)
  = fold_left (fun result st => ET.select st result) p (map snd l).
Proof.
  revert l. induction p as [|st p IH]; intro l; cbn [fold_left];
    [reflexivity|].
  now rewrite IH, select_at_snd.
Qed.

Lemma findall_at_snd he p :
  map snd (findall_at he p) = ET.findall (snd he) p.
Proof. unfold findall_at, ET.findall. apply fold_select_snd. Qed.

Lemma located_in_app doc l1 l2 :
  located_in doc l1 -> located_in doc l2 -> located_in doc (l1 ++ l2).
Proof. intros H1 H2. apply Forall_app. now split. Qed.

Lemma located_in_flat_map_in doc (f : located -> list located) l :
  located_in doc l ->
  (forall he, In he l -> node_at doc (fst he) = Some (snd he) ->
              located_in doc (f he)) ->
  located_in doc (flat_map f l).
Proof.
  intros Hl Hf. induction Hl as [|he l Hhe _ IH]; cbn [flat_map];
    [constructor|].
  apply located_in_app.
  - apply Hf; [now left|exact Hhe].
  - apply IH. intros he' Hin. apply Hf. now right.
Qed.

Lemma located_in_flat_map doc (f : located -> list located) l :
  located_in doc l ->
  (forall he, node_at doc (fst he) = Some (snd he) -> located_in doc (f he)) ->
  located_in doc (flat_map f l).
Proof.
  intros Hl Hf. apply located_in_flat_map_in; [exact Hl|].
  intros he _. apply Hf.
Qed.

Lemma named_located doc name l :
  located_in doc l -> located_in doc (named name l).
Proof.
  intro H. apply Forall_forall. intros he Hin.
  apply filter_In in Hin. destruct Hin as [Hin _].
  revert he Hin. now apply Forall_forall.
Qed.

Lemma iter_all_at_located doc h e :
  node_at doc h = Some e -> located_in doc (iter_all_at h e).
Proof.
  revert h. induction e as [t a x cs IH] using Element_tree_ind.
  intros h Hh. rewrite iter_all_at_eq. constructor; [exact Hh|].
  apply located_in_flat_map_in.
  - now apply (children_at_located doc (h, Elem t a x cs)).
  - intros [h' c] Hin Hc. cbn [fst snd] in *.
    assert (Hcs : In c cs).
    { change cs with (children (snd (h, Elem t a x cs))).
      rewrite <- children_at_snd. apply in_map_iff. now exists (h', c). }
    rewrite Forall_forall in IH. now apply IH.
Qed.

Lemma descendants_at_located doc he :
  node_at doc (fst he) = Some (snd he) -> located_in doc (descendants_at he).
Proof.
  intro H. unfold descendants_at.
  apply located_in_flat_map; [now apply children_at_located|].
  intros hc Hhc. now apply iter_all_at_located.
Qed.

Lemma select_at_located doc st l :
  located_in doc l -> located_in doc (select_at st l).
Proof.
  intro H. destruct st as [|name|name|]; cbn [select_at].
  - exact H.
  - apply located_in_flat_map; [exact H|]. intros he Hhe.
    now apply named_located, children_at_located.
  - apply located_in_flat_map; [exact H|]. intros he Hhe.
    now apply named_located, descendants_at_located.
  - apply located_in_flat_map; [exact H|]. intros he Hhe.
    now apply children_at_located.
Qed.

Lemma fold_select_located doc p l :
  located_in doc l ->
  located_in doc (fold_left (fun result st => select_at st result) p l).
Proof.
  revert l. induction p as [|st p IH]; intros l Hl; cbn [fold_left];
    [exact Hl|].
  now apply IH, select_at_located.
Qed.

Lemma findall_at_located doc he p :
  node_at doc (fst he) = Some (snd he) -> located_in doc (findall_at he p).
Proof.
  intro H. unfold findall_at. apply fold_select_located. now constructor.
Qed.

(** [findall] in place gives the handles of the nodes [findall] gives on
    the tree, in the same order. *)
Lemma el_findall_agrees doc h e p :
  node_at doc h = Some e ->
  exists l,
    el_findall h p doc = (Value (map fst l), doc)
    /\ map snd l = ET.findall e p
    /\ located_in doc l.
Proof.
  intro H. exists (findall_at (h, e) p).
  cbn [el_findall store_api]. unfold read. rewrite H.
  split; [reflexivity|]. split.
  - apply (findall_at_snd (h, e)).
  - now apply findall_at_located.
Qed.

(** *** The stripper updates in place, the extractor only reads *)

Lemma strip_attributes_in_place (root : Element) :
  OnStore.strip_attributes [] root
  = (Value tt, Stripper.strip_attributes root).
Proof.
  destruct root as [t a x cs]. unfold OnStore.strip_attributes.
  cbn [bind store_monad]. unfold st_bind, read. cbn [node_at attrib].
  unfold Stripper.strip_attributes, Stripper.strip_attrib.
  generalize (keys a) as ks. intro ks. revert a.
  induction ks as [|k ks IH]; intro a; cbn [Extractor.for_in fold_left];
    [reflexivity|].
  cbn [bind ret store_monad]. unfold st_bind at 1.
  destruct (mem k STRIP_ATTRS); cbn; apply IH.
Qed.

Example strip_attributes_updates :
  snd (OnStore.strip_attributes []
         (Elem "note" [("color", "#FF0000"); ("id", "n1")] None []))
  = Elem "note" [("id", "n1")] None [].
Proof. reflexivity. Qed.

Lemma ro_ret {A} (a : A) : read_only (ret a).
Proof. intro doc. reflexivity. Qed.

Lemma ro_raise {A} (e : Py.exn) : read_only (raise (A := A) e).
Proof. intro doc. reflexivity. Qed.

Lemma ro_read {A} h (f : Element -> A) : read_only (read h f).
Proof. intro doc. unfold read. now destruct (node_at doc h). Qed.

Lemma ro_bind {A B} (c : St A) (f : A -> St B) :
  read_only c -> (forall a, read_only (f a)) -> read_only (bind c f).
Proof.
  intros Hc Hf doc. cbn [bind store_monad]. unfold st_bind.
  specialize (Hc doc). destruct (c doc) as [[a|e|] doc']; cbn in Hc; subst;
    [apply Hf|reflexivity|reflexivity].
Qed.

Lemma ro_lift {A} (r : Py.result A) : read_only (Extractor.lift r).
Proof. destruct r; [apply ro_ret|apply ro_raise]. Qed.

Lemma ro_for_in {A S} (xs : list A) (body : A -> S -> St (loop S)) (s : S) :
  (forall x s, read_only (body x s)) -> read_only (Extractor.for_in xs body s).
Proof.
  intro Hbody. revert s. induction xs as [|x xs IH]; intro s;
    cbn [Extractor.for_in]; [apply ro_ret|].
  apply ro_bind; [apply Hbody|]. intros [s'|s']; [apply IH|apply ro_ret].
Qed.

(** One step of the proof that a program only reads: through [bind], a
    loop, a branch, down to the calls of the API. *)
Ltac only_reads :=
  repeat first
    [ apply ro_ret
    | apply ro_raise
    | apply ro_read
    | apply ro_lift
    | apply ro_for_in; intros
    | apply ro_bind; [|intros]
    | match goal with
      | |- read_only (if ?c then _ else _) => destruct c
      | |- read_only (match ?x with _ => _ end) => destruct x
      end ].

Lemma ro_find h p : read_only (Extractor.find h p).
Proof. unfold Extractor.find. cbn [el_findall store_api]. only_reads. Qed.

Lemma ro_findtext h p : read_only (Extractor.findtext h p).
Proof.
  unfold Extractor.findtext. apply ro_bind; [apply ro_find|intros].
  cbn [el_text store_api]. only_reads.
Qed.

Lemma ro_findtext_or h p d : read_only (Extractor.findtext_or h p d).
Proof.
  unfold Extractor.findtext_or. apply ro_bind; [apply ro_findtext|intros].
  only_reads.
Qed.

Ltac api_reads :=
  cbn [el_tag el_text el_get el_children el_iter el_findall store_api];
  repeat first
    [ apply ro_find | apply ro_findtext | apply ro_findtext_or
    | progress only_reads ].

Lemma ro_detag h : read_only (Extractor.detag h).
Proof. unfold Extractor.detag. api_reads. Qed.

Lemma ro_tags_of els out : read_only (Extractor.tags_of els out).
Proof.
  unfold Extractor.tags_of. apply ro_for_in. intros.
  apply ro_bind; [apply ro_detag|intros]. only_reads.
Qed.

Lemma ro_texts_of els out : read_only (Extractor.texts_of els out).
Proof. unfold Extractor.texts_of. api_reads. Qed.

Lemma ro_pitch_name p : read_only (Extractor.pitch_name p).
Proof. unfold Extractor.pitch_name. api_reads. Qed.

Lemma ro_build_note h : read_only (OnStore.build_note h).
Proof.
  unfold OnStore.build_note, Extractor.build_note.
  repeat first
    [ apply ro_pitch_name | apply ro_tags_of | apply ro_texts_of
    | progress api_reads ].
Qed.

Lemma ro_over_directions {A} h p
  (inner : handle -> list A -> St (loop (list A))) :
  (forall x out, read_only (inner x out)) ->
  read_only (Extractor.over_directions h p inner).
Proof. intro H. unfold Extractor.over_directions. api_reads; apply H. Qed.

Lemma ro_build_measure h : read_only (OnStore.build_measure h).
Proof.
  unfold OnStore.build_measure, Extractor.build_measure.
  repeat first
    [ apply ro_over_directions; intros
    | apply ro_build_note | apply ro_tags_of
    | progress
        unfold Extractor.metronome_body, Extractor.words_body,
          Extractor.wedge_body, Extractor.pedal_body, Extractor.note_body,
          Extractor.dynamics_body
    | progress api_reads ].
Qed.

(** C9. The Semantic Extractor never mutates the document tree: whatever
    the document and whatever element of it the extraction starts from,
    and whether it returns a score or raises, the document after
    [build_json] is the document before it, so every node keeps its tag,
    its attributes, its text and its children. *)
Theorem build_json_read_only (root : handle) (doc : Element) :
  snd (OnStore.build_json root doc) = doc.
Proof.
  revert doc. change (read_only (OnStore.build_json root)).
  unfold OnStore.build_json, Extractor.build_json.
  repeat first
    [ apply ro_build_measure
    | progress
        unfold Extractor.title_of, Extractor.creator_body,
          Extractor.measure_body
    | progress api_reads ].
Qed.

End StoreFacts.

(** ** The run in place and the run on the tree give the same record *)

Module Agreement.
Import Store OnStore StoreFacts.
Local Open Scope list_scope.

Section Agrees.
Variable doc : Element.
Local Abbreviation names_node := (OnStore.names_node doc).
Local Abbreviation agrees := (OnStore.agrees doc).

Lemma agrees_ret {A B} (R : A -> B -> Prop) a b :
  R a b -> agrees R (ret a) (ret b).
Proof. intro H. exists a. now split. Qed.

Lemma agrees_bind {A B A' B'} (R : A -> B -> Prop) (R' : A' -> B' -> Prop)
  (cs : St A) (ct : Py.result B) (fs : A -> St A') (ft : B -> Py.result B') :
  agrees R cs ct ->
  (forall a b, R a b -> agrees R' (fs a) (ft b)) ->
  agrees R' (bind cs fs) (bind ct ft).
Proof.
  intros Hc Hf. cbn [bind store_monad result_monad].
  destruct ct as [b|e]; cbn [agrees Py.and_then] in *.
  - destruct Hc as [a [Ha Hab]]. specialize (Hf a b Hab).
    unfold agrees, st_bind in *. now rewrite Ha.
  - unfold st_bind. now rewrite Hc.
Qed.

Lemma agrees_lift {A} (r : Py.result A) :
  agrees eq (Extractor.lift r) (Extractor.lift r).
Proof. destruct r as [a|e]; cbn; [now exists a|reflexivity]. Qed.

Lemma agrees_raise {A B} (R : A -> B -> Prop) e :
  agrees R (raise e) (raise e).
Proof. reflexivity. Qed.

Lemma agrees_for_in {S} (xs : list handle) (ys : list Element)
  (bs : handle -> S -> St (loop S)) (bt : Element -> S -> Py.result (loop S)) :
  Forall2 names_node xs ys ->
  (forall x y s, names_node x y -> agrees eq (bs x s) (bt y s)) ->
  forall s, agrees eq (Extractor.for_in xs bs s) (Extractor.for_in ys bt s).
Proof.
  intros Hxs Hb. induction Hxs as [|x y xs ys Hxy _ IH]; intro s;
    cbn [Extractor.for_in].
  - now apply agrees_ret.
  - apply (agrees_bind eq); [now apply Hb|].
    intros r r' <-. destruct r as [s'|s']; [apply IH|now apply agrees_ret].
Qed.

(** *** The six calls of the API *)

Lemma agrees_read {A} (f : Element -> A) h e :
  names_node h e -> agrees eq (read h f) (Py.Ok (f e)).
Proof. intro H. exists (f e). unfold read. now rewrite H. Qed.

Lemma located_Forall2 (l : list located) :
  located_in doc l -> Forall2 names_node (map fst l) (map snd l).
Proof. induction 1; cbn; constructor; assumption. Qed.

Lemma agrees_located (g : Element -> list located) (k : Element -> list Element)
  h e :
  names_node h e ->
  map snd (g e) = k e -> located_in doc (g e) ->
  agrees (Forall2 names_node) (read h (fun e => map fst (g e))) (Py.Ok (k e)).
Proof.
  intros H Hsnd Hloc. exists (map fst (g e)). unfold read. rewrite H.
  split; [reflexivity|]. rewrite <- Hsnd. now apply located_Forall2.
Qed.

Lemma agrees_tag h e : names_node h e -> agrees eq (el_tag h) (el_tag e).
Proof. apply agrees_read. Qed.

Lemma agrees_text h e : names_node h e -> agrees eq (el_text h) (el_text e).
Proof. apply agrees_read. Qed.

Lemma agrees_get h e key :
  names_node h e -> agrees eq (el_get h key) (el_get e key).
Proof. apply (agrees_read (fun e => ET.get e key)). Qed.

Lemma agrees_children h e :
  names_node h e ->
  agrees (Forall2 names_node) (el_children h) (el_children e).
Proof.
  intro H.
  apply (agrees_located (fun e => children_at (h, e)) children); [exact H| |].
  - apply (children_at_snd (h, e)).
  - now apply (children_at_located doc (h, e)).
Qed.

Lemma agrees_iter h e name :
  names_node h e ->
  agrees (Forall2 names_node) (el_iter h name) (el_iter e name).
Proof.
  intro H.
  apply (agrees_located (fun e => named name (iter_all_at h e))
           (fun e => ET.iter e name)); [exact H| |].
  - unfold ET.iter. now rewrite named_snd, iter_all_at_snd.
  - now apply named_located, iter_all_at_located.
Qed.

Lemma agrees_findall h e p :
  names_node h e ->
  agrees (Forall2 names_node) (el_findall h p) (el_findall e p).
Proof.
  intro H.
  apply (agrees_located (fun e => findall_at (h, e) p)
           (fun e => ET.findall e p)); [exact H| |].
  - apply (findall_at_snd (h, e)).
  - now apply (findall_at_located doc (h, e)).
Qed.

(** *** The program, function by function *)

Lemma agrees_find h e p :
  names_node h e ->
  agrees (option_rel names_node) (Extractor.find h p) (Extractor.find e p).
Proof.
  intro H. unfold Extractor.find.
  apply (agrees_bind (Forall2 names_node)); [now apply agrees_findall|].
  intros l l' Hl. apply agrees_ret.
  destruct Hl; cbn; constructor. assumption.
Qed.

Lemma agrees_findtext h e p :
  names_node h e ->
  agrees eq (Extractor.findtext h p) (Extractor.findtext e p).
Proof.
  intro H. unfold Extractor.findtext.
  apply (agrees_bind (option_rel names_node)); [now apply agrees_find|].
  intros o o' Ho. destruct Ho as [|x y Hxy]; [now apply agrees_ret|].
  apply (agrees_bind eq); [now apply agrees_text|].
  intros t t' <-. now apply agrees_ret.
Qed.

Lemma agrees_findtext_or h e p d :
  names_node h e ->
  agrees eq (Extractor.findtext_or h p d) (Extractor.findtext_or e p d).
Proof.
  intro H. unfold Extractor.findtext_or.
  apply (agrees_bind eq); [now apply agrees_findtext|].
  intros t t' <-. now apply agrees_ret.
Qed.

Lemma agrees_detag h e :
  names_node h e -> agrees eq (Extractor.detag h) (Extractor.detag e).
Proof.
  intro H. unfold Extractor.detag.
  apply (agrees_bind eq); [now apply agrees_tag|].
  intros t t' <-. now apply agrees_ret.
Qed.

Lemma is_some_rel {A B} {R : A -> B -> Prop} {o o'} :
  option_rel R o o' -> is_some o = is_some o'.
Proof. now destruct 1. Qed.

(** Two runs of the same code, step by step.  [known_calls] grows with
    the functions already shown to agree. *)
Ltac known_calls := fail.

Ltac same_code :=
  repeat first
    [ progress subst
    | known_calls
    | match goal with
      | |- agrees _ (ret _) (ret _) => apply agrees_ret; reflexivity
      | |- agrees _ (raise _) (raise _) => apply agrees_raise
      | |- agrees _ (Extractor.lift _) _ => apply agrees_lift
      | |- agrees _ (Extractor.findtext_or _ _ _) _ =>
          apply agrees_findtext_or; assumption
      | |- agrees _ (Extractor.findtext _ _) _ =>
          apply agrees_findtext; assumption
      | |- agrees _ (Extractor.find _ _) _ => apply agrees_find; assumption
      | |- agrees _ (Extractor.detag _) _ => apply agrees_detag; assumption
      | |- agrees _ (el_findall _ _) _ => apply agrees_findall; assumption
      | |- agrees _ (el_iter _ _) _ => apply agrees_iter; assumption
      | |- agrees _ (el_children _) _ => apply agrees_children; assumption
      | |- agrees _ (el_get _ _) _ => apply agrees_get; assumption
      | |- agrees _ (el_text _) _ => apply agrees_text; assumption
      | |- agrees _ (el_tag _) _ => apply agrees_tag; assumption
      | |- agrees _ (Extractor.for_in _ _ _) _ =>
          apply agrees_for_in; [assumption|intros ? ? ? ?]
      | |- agrees _ (bind _ _) (bind _ _) =>
          eapply agrees_bind; [solve [same_code]|intros ? ? ?]
      | H : option_rel _ ?x _ |- agrees _ (match ?x with _ => _ end) _ =>
          destruct H
      | H : option_rel _ ?x _ |- context [is_some ?x] =>
          rewrite (is_some_rel H)
      | H : Forall2 names_node ?a _ |- context [List.length ?a] =>
          rewrite (Forall2_length H)
      | |- agrees _ (if ?c then _ else _) _ => destruct c
      | |- agrees _ (match ?x with _ => _ end) _ => destruct x
      end ].

Lemma agrees_tags_of xs ys out :
  Forall2 names_node xs ys ->
  agrees eq (Extractor.tags_of xs out) (Extractor.tags_of ys out).
Proof. intro H. unfold Extractor.tags_of. same_code. Qed.

Lemma agrees_texts_of xs ys out :
  Forall2 names_node xs ys ->
  agrees eq (Extractor.texts_of xs out) (Extractor.texts_of ys out).
Proof. intro H. unfold Extractor.texts_of. same_code. Qed.

Lemma agrees_pitch_name p p' :
  option_rel names_node p p' ->
  agrees eq (Extractor.pitch_name p) (Extractor.pitch_name p').
Proof. intro H. unfold Extractor.pitch_name. same_code. Qed.

Ltac known_calls ::=
  match goal with
  | |- agrees _ (Extractor.pitch_name _) _ =>
      apply agrees_pitch_name; constructor; assumption
  | |- agrees _ (Extractor.tags_of _ _) _ => apply agrees_tags_of; assumption
  | |- agrees _ (Extractor.texts_of _ _) _ =>
      apply agrees_texts_of; assumption
  end.

Lemma agrees_build_note h e :
  names_node h e ->
  agrees eq (Extractor.build_note h) (Extractor.build_note e).
Proof. intro H. unfold Extractor.build_note. same_code. Qed.

Lemma agrees_over_directions {A} h e p
  (bs : handle -> list A -> St (loop (list A)))
  (bt : Element -> list A -> Py.result (loop (list A))) :
  names_node h e ->
  (forall x y s, names_node x y -> agrees eq (bs x s) (bt y s)) ->
  agrees eq (Extractor.over_directions h p bs)
    (Extractor.over_directions e p bt).
Proof.
  intros H Hb. unfold Extractor.over_directions.
  apply (agrees_bind (Forall2 names_node)); [now apply agrees_findall|].
  intros dirs dirs' Hdirs. apply agrees_for_in; [assumption|].
  intros d d' out Hd.
  apply (agrees_bind (Forall2 names_node)); [now apply agrees_findall|].
  intros els els' Hels.
  apply (agrees_bind eq); [now apply agrees_for_in|].
  intros out1 out2 <-. now apply agrees_ret.
Qed.

Lemma agrees_dynamics_body x y s :
  names_node x y ->
  agrees eq (Extractor.dynamics_body x s) (Extractor.dynamics_body y s).
Proof.
  intro H. unfold Extractor.dynamics_body.
  apply (agrees_bind (option_rel names_node)); [now apply agrees_find|].
  intros found found' Hf.
  apply (agrees_bind (Forall2 names_node)).
  - destruct Hf as [|d d' Hd]; [apply agrees_ret; constructor|].
    apply (agrees_bind (Forall2 names_node)); [now apply agrees_children|].
    intros cs cs' Hcs. apply agrees_ret. now destruct Hcs; cbn; constructor.
  - intros els els' Hels. same_code.
Qed.

Ltac known_calls ::=
  match goal with
  | |- agrees _ (Extractor.tags_of _ _) _ => apply agrees_tags_of; assumption
  | |- agrees _ (Extractor.build_note _) _ =>
      apply agrees_build_note; assumption
  | |- agrees _ (Extractor.dynamics_body _ _) _ =>
      apply agrees_dynamics_body; assumption
  | |- agrees _ (Extractor.over_directions _ _ _) _ =>
      apply agrees_over_directions; [assumption|intros ? ? ? ?]
  end.

Lemma agrees_build_measure h e :
  names_node h e ->
  agrees eq (Extractor.build_measure h) (Extractor.build_measure e).
Proof.
  intro H. unfold Extractor.build_measure.
  repeat first
    [ progress same_code
    | progress
        unfold Extractor.metronome_body, Extractor.words_body,
          Extractor.wedge_body, Extractor.pedal_body, Extractor.note_body ].
Qed.

Ltac known_calls ::=
  match goal with
  | |- agrees _ (Extractor.build_measure _) _ =>
      apply agrees_build_measure; assumption
  end.

Lemma agrees_build_json h e :
  names_node h e ->
  agrees eq (Extractor.build_json h) (Extractor.build_json e).
Proof.
  intro H. unfold Extractor.build_json.
  repeat first
    [ progress same_code
    | progress
        unfold Extractor.title_of, Extractor.creator_body,
          Extractor.measure_body ].
Qed.

End Agrees.

(** The extraction in place, started at the root, returns what the
    extraction on the tree returns, or raises what it raises, and leaves
    the document as it was. *)
Theorem build_json_in_place (root : Element) :
  OnStore.build_json [] root = (outcome_of (OnTree.build_json root), root).
Proof.
  assert (H := agrees_build_json root [] root eq_refl).
  unfold agrees in H. unfold OnStore.build_json, OnTree.build_json.
  destruct (Extractor.build_json root) as [score|e]; cbn [outcome_of].
  - destruct H as [score' [H <-]]. exact H.
  - exact H.
Qed.

End Agreement.

(** ** More on the Noise Stripper *)

Module StripperMore.
Import Stripper StripperFacts More.
Local Open Scope list_scope.

Lemma iter_all_cons e : ET.iter_all e = e :: ET.descendants e.
Proof. now destruct e. Qed.

Lemma descendants_strip_attributes e :
  ET.descendants (strip_attributes e) = ET.descendants e.
Proof. now destruct e. Qed.

Lemma attributes_kept_strip_attributes e :
  attributes_kept (strip_attributes e).
Proof.
  destruct e as [t a x cs]. unfold attributes_kept. cbn [strip_attributes attrib].
  rewrite strip_attrib_filter. apply Forall_forall. intros kv Hin.
  apply filter_In in Hin. destruct Hin as [_ H].
  now apply negb_true_iff in H.
Qed.

(** The attributes of the nodes below are untouched by [strip_attributes]. *)
Lemma below_strip_tree e :
  Forall attributes_kept (ET.descendants (strip_tree e))
  /\ Forall element_kept (ET.descendants (strip_tree e)).
Proof.
  induction e as [t a x cs IH] using Element_tree_ind.
  rewrite strip_tree_eq. unfold ET.descendants. cbn [children].
  induction cs as [|c cs IHcs]; cbn [strip_children flat_map];
    [split; constructor|].
  inversion IH as [|? ? [Hc1 Hc2] Hcs]; subst.
  destruct (IHcs Hcs) as [H1 H2].
  destruct (mem (detag c) STRIP_ELEMENTS) eqn:Hm; [now split|].
  cbn [flat_map]. rewrite iter_all_cons, descendants_strip_attributes.
  split; apply Forall_app; split; try assumption; constructor;
    try assumption.
  - apply attributes_kept_strip_attributes.
  - unfold element_kept.
    now rewrite detag_strip_attributes, detag_strip_tree.
Qed.

(** X1. What the stripping pass leaves behind: no attribute of the
    denylist on any node, the root included, and no element of the
    denylist anywhere below the root. *)
Theorem strip_document_stripped (root : Element) :
  stripped (strip_document root).
Proof.
  unfold stripped, strip_document.
  destruct (below_strip_tree (strip_attributes root)) as [H1 H2].
  split; [|exact H2].
  rewrite iter_all_cons. constructor; [|exact H1].
  rewrite <- strip_attributes_strip_tree.
  apply attributes_kept_strip_attributes.
Qed.

Lemma filter_kept {A} (p : A -> bool) (l : list A) :
  Forall (fun x => p x = true) l -> filter p l = l.
Proof.
  induction 1 as [|x l Hx _ IH]; cbn; [reflexivity|]. now rewrite Hx, IH.
Qed.

Lemma strip_attributes_kept e :
  attributes_kept e -> strip_attributes e = e.
Proof.
  destruct e as [t a x cs]. unfold attributes_kept.
  cbn [strip_attributes attrib]. intro H. f_equal.
  rewrite strip_attrib_filter. apply filter_kept.
  apply Forall_forall. intros kv Hin. rewrite Forall_forall in H.
  now rewrite (H kv Hin).
Qed.

Lemma strip_tree_stripped e :
  Forall attributes_kept (ET.descendants e) ->
  Forall element_kept (ET.descendants e) ->
  strip_tree e = e.
Proof.
  induction e as [t a x cs IH] using Element_tree_ind.
  unfold ET.descendants. cbn [children]. intros Ha He.
  rewrite strip_tree_eq. f_equal.
  induction cs as [|c cs IHcs]; [reflexivity|].
  inversion IH as [|? ? Hc Hcs]; subst.
  cbn [flat_map] in Ha, He. rewrite iter_all_cons in Ha, He.
  apply Forall_app in Ha, He. destruct Ha as [Ha1 Ha2], He as [He1 He2].
  inversion Ha1 as [|? ? Hca Hda]; subst.
  inversion He1 as [|? ? Hce Hde]; subst.
  cbn [strip_children]. unfold element_kept in Hce. rewrite Hce.
  rewrite (Hc Hda Hde), (strip_attributes_kept _ Hca).
  now rewrite (IHcs Hcs Ha2 He2).
Qed.

(** X2. A tree with no denylisted attribute on any node and no denylisted
    element below the root comes out of the stripping pass as it went in:
    the pass removes nothing else. *)
Theorem strip_document_fixpoint (root : Element) :
  stripped root -> strip_document root = root.
Proof.
  intros [Ha He]. unfold strip_document.
  rewrite iter_all_cons in Ha. inversion Ha as [|? ? Hroot Hbelow]; subst.
  rewrite (strip_attributes_kept _ Hroot).
  now apply strip_tree_stripped.
Qed.

Lemma strip_document_fixpoint_witness :
  strip_document
    (Elem "measure" [("number", "1")] None
       [Elem "note" [("id", "n1")] None [Elem "rest" [] None []]])
  = Elem "measure" [("number", "1")] None
      [Elem "note" [("id", "n1")] None [Elem "rest" [] None []]].
Proof.
  apply strip_document_fixpoint. split; cbn; repeat constructor.
Defined.

(** X3. What [strip_attributes] does to one element: the attributes left
    are exactly those whose name is not on the denylist, in their order
    and with their values; tag, text and children are untouched. *)
Theorem strip_attributes_keeps (element : Element) :
  attrib (strip_attributes element)
  = filter (fun kv => negb (mem (fst kv) STRIP_ATTRS)) (attrib element)
  /\ tag (strip_attributes element) = tag element
  /\ text (strip_attributes element) = text element
  /\ children (strip_attributes element) = children element.
Proof.
  destruct element as [t a x cs]. cbn. split; [|now repeat split].
  apply strip_attrib_filter.
Qed.

(** *** The order of what is left *)

Lemma subseq_refl {A} (l : list A) : subseq l l.
Proof. induction l; constructor; assumption. Qed.

Lemma subseq_app {A} (l1 l1' l2 l2' : list A) :
  subseq l1 l1' -> subseq l2 l2' -> subseq (l1 ++ l2) (l1' ++ l2').
Proof.
  intros H1 H2. induction H1; cbn; try constructor; assumption.
Qed.

Lemma subseq_drop {A} (l l' skipped : list A) :
  subseq l l' -> subseq l (skipped ++ l').
Proof.
  intro H. induction skipped; cbn; [assumption|now constructor].
Qed.

Lemma tag_text_strip_attributes e :
  tag_text (strip_attributes e) = tag_text e.
Proof. now destruct e. Qed.

Lemma map_tag_text_strip_attributes e :
  map tag_text (ET.iter_all (strip_attributes e))
  = map tag_text (ET.iter_all e).
Proof. now destruct e. Qed.

Lemma strip_tree_order e :
  subseq (map tag_text (ET.iter_all (strip_tree e)))
    (map tag_text (ET.iter_all e)).
Proof.
  induction e as [t a x cs IH] using Element_tree_ind.
  rewrite strip_tree_eq. cbn [ET.iter_all map]. apply subseq_keep.
  induction cs as [|c cs IHcs]; cbn [strip_children flat_map];
    [constructor|].
  inversion IH as [|? ? Hc Hcs]; subst. rewrite map_app.
  destruct (mem (detag c) STRIP_ELEMENTS).
  - apply subseq_drop. now apply IHcs.
  - cbn [flat_map]. rewrite map_app, map_tag_text_strip_attributes.
    apply subseq_app; [exact Hc|now apply IHcs].
Qed.

(** X4. The stripping pass never renames, reorders or invents an element
    and never touches a text: the elements of the result, read in
    document order by tag and text, are those of the input with some left
    out, and the root is always among them. *)
Theorem strip_document_order (root : Element) :
  subseq (map tag_text (ET.iter_all (strip_document root)))
    (map tag_text (ET.iter_all root))
  /\ tag_text (strip_document root) = tag_text root.
Proof.
  unfold strip_document. split.
  - rewrite <- (map_tag_text_strip_attributes root). apply strip_tree_order.
  - destruct root as [t a x cs]. reflexivity.
Qed.

End StripperMore.

(** ** More on the helpers: [detag] and [pitch_name] *)

Module HelpersMore.
Import Closed TreeFacts.

Lemma contains_app c a b :
  Py.contains c (a ++ b) = Py.contains c a || Py.contains c b.
Proof.
  induction a as [|d a IH]; cbn; [reflexivity|].
  now rewrite IH, orb_assoc.
Qed.

Lemma split_without c s : Py.contains c s = false -> Py.split c s = [s].
Proof.
  induction s as [|d s IH]; cbn; [reflexivity|].
  intro H. apply orb_false_iff in H. destruct H as [Hd Hs].
  now rewrite Hd, (IH Hs).
Qed.

Lemma split_after c pre s :
  exists piece l,
    Py.split c (pre ++ String c s) = ((piece :: l) ++ Py.split c s)%list.
Proof.
  induction pre as [|d pre [piece [l IH]]]; cbn [append Py.split].
  - rewrite Ascii.eqb_refl. now exists "", [].
  - destruct (Ascii.eqb c d).
    + exists "", (piece :: l). now rewrite IH.
    + rewrite IH. now exists (String d piece), l.
Qed.

Lemma last_after {A} (l1 l2 : list A) d :
  l2 <> [] -> List.last (l1 ++ l2) d = List.last l2 d.
Proof.
  intro H. induction l1 as [|x l1 IH]; [reflexivity|].
  cbn [app]. rewrite Score.last_cons; [exact IH|].
  destruct l1; cbn; [assumption|discriminate].
Qed.

(** X5. [detag] keeps what follows the last closing brace: a tag
    ['{ns}name'], whatever the namespace, gives ['name'], and a tag
    without a brace is its own bare name. *)
Theorem detag_qualified (prefix name : string) :
  Py.contains "}" name = false ->
  detag_name (prefix ++ "}" ++ name) = name /\ detag_name name = name.
Proof.
  intro H. split; [|now apply Score.detag_name_id].
  unfold detag_name. rewrite contains_app. cbn [append Py.contains].
  rewrite Ascii.eqb_refl, orb_true_r.
  destruct (split_after "}" prefix name) as [piece [l E]].
  change ("}" ++ name) with (String "}" name). rewrite E.
  unfold Py.last_piece. rewrite last_after by apply Score.split_nonempty.
  now rewrite (split_without _ _ H).
Qed.

Lemma detag_qualified_witness :
  detag_name "{http://www.musicxml.org/ns}measure" = "measure"
  /\ detag_name "measure" = "measure".
Proof.
  exact (detag_qualified "{http://www.musicxml.org/ns" "measure" eq_refl).
Defined.

(** X6. What the Pitch Decoder gives.  Without an element it gives
    [None].  For an element it joins the text of step, the symbol of the
    alteration and the text of octave, a missing step or octave counting
    as [''] and a missing alteration as ['0']: the symbol is that of the
    alteration rounded to the nearest integer, ties to even, when it is a
    finite float literal, and none when it is no float literal or a NaN.
    It raises in one case only, an alteration that reads as an infinity,
    and then with [OverflowError]. *)
Theorem pitch_name_rule (pitch_el : Element) :
  let s := Py.str_of (ET.findtext pitch_el [Child "step"]) in
  let a := match ET.findtext pitch_el [Child "alter"] with
           | Some a => a
           | None => "0"
           end in
  let o := Py.str_of (ET.findtext pitch_el [Child "octave"]) in
  OnTree.pitch_name None = Py.Ok None
  /\ match Py.float_of (Py.strip a) with
     | Py.Ok (Py.Finite m e) =>
         exists n, Py.round (Py.Finite m e) = Py.Ok n
                   /\ OnTree.pitch_name (Some pitch_el)
                      = Py.Ok (Some (s ++ symbol n ++ o))
     | Py.Ok Py.Inf =>
         OnTree.pitch_name (Some pitch_el) = Py.Raise Py.OverflowError
     | Py.Ok Py.NaN | Py.Raise _ =>
         OnTree.pitch_name (Some pitch_el) = Py.Ok (Some (s ++ o))
     end.
Proof.
  cbv zeta. split; [reflexivity|].
  rewrite Pitch.pitch_name_eq. unfold pitch, alter_key.
  destruct (Py.float_of _) as [[m e| |]|err] eqn:F; cbn.
  - eexists. split; [reflexivity|]. now rewrite Pitch.accidental_symbol.
  - reflexivity.
  - reflexivity.
  - now rewrite (Pitch.float_of_raises _ _ F).
Qed.

End HelpersMore.

(** ** The score record: title, creators, measures *)

Module ScoreMore.
Import Closed Spec TreeFacts More MoreExamples.
#[local] Open Scope list_scope.

(** *** How a run fails *)

Lemma and_then_raise {A B} (c : Py.result A) (f : A -> Py.result B) e :
  Py.and_then c f = Py.Raise e ->
  c = Py.Raise e \/ exists a, c = Py.Ok a /\ f a = Py.Raise e.
Proof.
  destruct c as [a|e']; cbn; intro H; [right; now exists a|].
  left. now injection H as ->.
Qed.

(** *** Loops that append one entry per element *)

Lemma collect_entries_ok {A B C} (f : A -> Py.result B) (g : B -> C) xs l :
  collect (fun x => Py.and_then (f x) (fun b => Py.Ok [g b])) xs = Py.Ok l ->
  exists bs, Forall2 (fun x b => f x = Py.Ok b) xs bs /\ l = map g bs.
Proof.
  revert l. induction xs as [|x xs IH]; intros l H; cbn in H.
  - injection H as <-. exists []. now split.
  - apply and_then_ok in H. destruct H as [l1 [H1 H]].
    apply and_then_ok in H. destruct H as [l2 [H2 H]]. injection H as <-.
    apply and_then_ok in H1.
    destruct H1 as [b [Hb H1]]. injection H1 as <-.
    destruct (IH _ H2) as [bs [Hbs ->]].
    exists (b :: bs). split; [now constructor|reflexivity].
Qed.

Lemma collect_entries_raise {A B C} (f : A -> Py.result B) (g : B -> C) xs e :
  collect (fun x => Py.and_then (f x) (fun b => Py.Ok [g b])) xs
  = Py.Raise e ->
  exists before x after,
    xs = before ++ x :: after
    /\ Forall (fun y => exists b, f y = Py.Ok b) before
    /\ f x = Py.Raise e.
Proof.
  induction xs as [|x xs IH]; intro H; cbn in H; [discriminate|].
  destruct (f x) as [b|e'] eqn:Hx; cbn in H.
  - destruct (collect _ xs) as [l|e''] eqn:Hxs; cbn in H;
      [discriminate|]. injection H as ->.
    destruct (IH eq_refl) as [before [y [after [-> [Hb Hy]]]]].
    exists (x :: before), y, after. repeat split; [|assumption].
    constructor; [now exists b|assumption].
  - injection H as ->. exists [], x, xs. now repeat split.
Qed.

Lemma build_json_measures root score :
  OnTree.build_json root = Py.Ok score ->
  exists ms, measures root = Py.Ok ms
             /\ score = score_head root ++ [("measures", JList ms)].
Proof.
  rewrite Score.build_json_eq. unfold Closed.score. intro H.
  apply and_then_ok in H. destruct H as [ms [Hms H]].
  injection H as <-. now exists ms.
Qed.

Lemma dict_get_head root ms k :
  In k head_keys ->
  dict_get (score_head root ++ [("measures", JList ms)]) k
  = dict_get (score_head root) k.
Proof.
  intro Hin. rewrite Score.dict_get_app.
  destruct (dict_get (score_head root) k) eqn:E; [reflexivity|].
  cbn in Hin. cbn [dict_get].
  destruct Hin as [<-|[<-|[<-|[<-|[]]]]]; reflexivity.
Qed.

(** X8. One measure record per element tagged measure, the root and
    every depth included, in document order.  When the extraction raises,
    it is with the error of the first measure that yields no record, every
    measure before it having yielded one. *)
Theorem measures_rule (root : Element) :
  (forall score,
      OnTree.build_json root = Py.Ok score ->
      exists ms,
        Forall2 (fun el m => OnTree.build_measure el = Py.Ok m)
          (ET.iter root "measure") ms
        /\ dict_get score "measures" = Some (JList (map JDict ms)))
  /\ (forall e,
        OnTree.build_json root = Py.Raise e ->
        exists before el after,
          ET.iter root "measure" = before ++ el :: after
          /\ Forall (fun x => exists m, OnTree.build_measure x = Py.Ok m)
               before
          /\ OnTree.build_measure el = Py.Raise e).
Proof.
  split.
  - intros score H. apply build_json_measures in H.
    destruct H as [l [Hl ->]].
    apply (collect_entries_ok OnTree.build_measure JDict) in Hl.
    destruct Hl as [ms [Hms ->]]. exists ms. split; [assumption|].
    rewrite Score.dict_get_app, Score.dict_get_keys; [reflexivity|].
    rewrite Score.score_head_keys. cbn. intuition discriminate.
  - intros e H. rewrite Score.build_json_eq in H. unfold Closed.score in H.
    destruct (measures root) as [l|e'] eqn:Hl; cbn in H; [discriminate|].
    injection H as ->.
    exact (collect_entries_raise OnTree.build_measure JDict _ _ Hl).
Qed.

Lemma measures_rule_witness :
  (exists ms,
      Forall2 (fun el m => OnTree.build_measure el = Py.Ok m)
        (ET.iter Examples.one_measure_score "measure") ms)
  /\ (exists before el after,
        ET.iter second_measure_fails "measure" = before ++ el :: after
        /\ OnTree.build_measure el = Py.Raise Py.ValueError).
Proof.
  split.
  - destruct (proj1 (measures_rule Examples.one_measure_score) _ eq_refl)
      as [ms [Hms _]].
    now exists ms.
  - destruct (proj2 (measures_rule second_measure_fails) Py.ValueError eq_refl)
      as [before [el [after [Hsplit [_ Hel]]]]].
    now exists before, el, after.
Defined.

(** X9. The title of the score record is the text of the first
    work-title under a work child of the root when that text is not
    empty; otherwise the text of the first movement-title child when that
    one is not empty; otherwise null.  An empty work-title does not hide
    a movement-title. *)
Theorem title_rule (root : Element) (score : pydict) :
  OnTree.build_json root = Py.Ok score ->
  let work := ET.findtext root [Child "work"; Child "work-title"] in
  let movement := ET.findtext root [Child "movement-title"] in
  (forall t, work = Some t -> t <> "" ->
             dict_get score "title" = Some (JStr t))
  /\ (forall t, Py.truthy work = false -> movement = Some t -> t <> "" ->
                dict_get score "title" = Some (JStr t))
  /\ (Py.truthy work = false -> Py.truthy movement = false ->
      dict_get score "title" = Some JNull).
Proof.
  intro H. apply build_json_measures in H. destruct H as [ms [_ ->]].
  cbv zeta. rewrite dict_get_head by (cbn; tauto).
  unfold score_head.
  rewrite Score.fold_creators_get by (intros [E|E]; discriminate E).
  cbn [dict_get String.eqb Ascii.eqb Bool.eqb]. unfold title.
  split; [|split].
  - intros t -> Ht. destruct t; [contradiction|reflexivity].
  - intros t -> -> Ht. destruct t; [contradiction|reflexivity].
  - now intros -> ->.
Qed.

Lemma title_rule_witness :
  exists score,
    OnTree.build_json two_composers = Py.Ok score
    /\ dict_get score "title" = Some (JStr "Allegro").
Proof.
  exists two_composers_record. split; [reflexivity|].
  exact (proj1 (proj2 (title_rule two_composers two_composers_record eq_refl))
           "Allegro" eq_refl eq_refl ltac:(discriminate)).
Defined.

Lemma creator_update_role score c k :
  k = "composer" \/ k = "arranger" ->
  ET.get c "type" = Some k ->
  dict_get (creator_update score c) k = Some (json_of_str (text c)).
Proof.
  intros Hk Hc. unfold creator_update, role. rewrite Hc. cbn [Py.str_of].
  destruct Hk as [-> | ->]; cbn [String.eqb Ascii.eqb Bool.eqb];
    now rewrite dict_get_set, String.eqb_refl.
Qed.

(** X10. The composer and the arranger of the score record are the text,
    as it stands, of the last creator under an identification child of
    the root whose type is [composer], respectively [arranger]: a later
    creator of the same type replaces an earlier one, and one without
    text resets the field to null. *)
Theorem creator_last_wins (root : Element) (score : pydict) (k : string)
  (before : list Element) (c : Element) (after : list Element) :
  OnTree.build_json root = Py.Ok score ->
  k = "composer" \/ k = "arranger" ->
  ET.findall root [Child "identification"; Child "creator"]
  = before ++ c :: after ->
  ET.get c "type" = Some k ->
  Forall (fun c' => ET.get c' "type" <> Some k) after ->
  dict_get score k = Some (json_of_str (text c)).
Proof.
  intros H Hk Hsplit Hc Hafter.
  apply build_json_measures in H. destruct H as [ms [_ ->]].
  rewrite dict_get_head by (cbn; destruct Hk as [-> | ->]; tauto).
  unfold score_head, creators. rewrite Hsplit, fold_left_app.
  cbn [fold_left]. rewrite Score.fold_creators_get by (intros _; exact Hafter).
  now apply creator_update_role.
Qed.

Lemma creator_last_wins_witness :
  exists score,
    OnTree.build_json two_composers = Py.Ok score
    /\ dict_get score "composer" = Some JNull.
Proof.
  exists two_composers_record. split; [reflexivity|].
  exact (creator_last_wins two_composers two_composers_record "composer"
           [Elem "creator" [("type", "composer")] (Some "A. Composer") [];
            Elem "creator" [("type", "lyricist")] (Some "A. Poet") []]
           (Elem "creator" [("type", "composer")] None []) []
           eq_refl (or_introl eq_refl) eq_refl eq_refl (Forall_nil _)).
Defined.

End ScoreMore.

(** ** The order of the keys of a record *)

Module Orders.
Import Closed TreeFacts More StripperMore.
#[local] Open Scope list_scope.

Lemma subseq_In {A} (l l' : list A) x : subseq l l' -> In x l -> In x l'.
Proof.
  induction 1 as [|y l l' _ IH|y l l' _ IH]; cbn; [tauto| |]; intuition.
Qed.

Lemma subseq_longer {A} (l P : list A) k : subseq l P -> subseq l (P ++ [k]).
Proof.
  intro H. rewrite <- (app_nil_r l).
  apply subseq_app; [assumption|repeat constructor].
Qed.

Lemma dict_get_In {V} (d : list (string * V)) k v :
  dict_get d k = Some v -> In k (keys d).
Proof.
  intro H. destruct (in_dec string_dec k (keys d)) as [Hin|Hout];
    [assumption|].
  rewrite (Score.dict_get_keys d k Hout) in H. discriminate H.
Qed.

Lemma keys_set_new {V} (d : list (string * V)) k v :
  ~ In k (keys d) -> keys (dict_set d k v) = keys d ++ [k].
Proof.
  intro H. rewrite Score.dict_set_new by now apply Score.dict_get_keys.
  apply Score.keys_app.
Qed.

Lemma within_set P (d : pydict) k v :
  subseq (keys d) P -> ~ In k P -> subseq (keys (dict_set d k v)) (P ++ [k]).
Proof.
  intros H Hk. rewrite keys_set_new.
  - apply subseq_app; [assumption|apply subseq_refl].
  - intro Hin. apply Hk. exact (subseq_In _ _ _ H Hin).
Qed.

Lemma within_set_if P c (d : pydict) k v :
  subseq (keys d) P -> ~ In k P ->
  subseq (keys (set_if c d k v)) (P ++ [k]).
Proof.
  intros H Hk. destruct c; cbn [set_if];
    [now apply within_set|now apply subseq_longer].
Qed.

Lemma within_first_typed P els (d : pydict) k :
  subseq (keys d) P -> ~ In k P ->
  subseq (keys (first_typed k els d)) (P ++ [k]).
Proof.
  intros H Hk. unfold first_typed. destruct (List.find _ _);
    [now apply within_set|now apply subseq_longer].
Qed.

(** A record that has its first possible key starts with it. *)
Lemma headed {A} (l P : list A) h :
  subseq l (h :: P) -> In h l -> ~ In h P ->
  exists rest, l = h :: rest /\ subseq rest P.
Proof.
  intros H Hin Hout. inversion H as [|x l0 l' H0|x l0 l' H0]; subst.
  - elim Hout. exact (subseq_In _ _ _ H0 Hin).
  - now exists l0.
Qed.

(** A list of literals with some left out. *)
Ltac left_out :=
  repeat first [apply subseq_nil | apply subseq_keep | apply subseq_skip].

(** One more update, the keys so far being those of the list but its
    last. *)
Ltac one_more :=
  match goal with
  | |- subseq _ ?L =>
      let P := eval cbn in (removelast L) in
      first [ apply (within_set_if P) | apply (within_first_typed P)
            | apply (within_set P) ];
      [|cbn; intuition discriminate]
  end.

Ltac no_more :=
  match goal with
  | |- subseq _ ?L =>
      let P := eval cbn in (removelast L) in
      apply (subseq_longer _ P)
  end.

End Orders.

(** ** The fields of a measure record *)

Module MeasureMore.
Import Closed Spec TreeFacts More MoreExamples ScoreMore Orders.
#[local] Open Scope list_scope.

(** The record as the steps leave it. *)
Ltac measure_parts H :=
  apply build_measure_inv in H;
  destruct H as [?number [?m1 [?m2 [?ws [?ns [?H1 [?H2 [?H3 [?H4 [?H5 ->]]]]]]]]]].

Lemma nonempty_field (l : list json) k (d : pydict) :
  dict_get (set_if (nonempty l) d k (JList l)) k
  = match field_of l with Some v => Some v | None => dict_get d k end.
Proof.
  rewrite dict_get_set_if, String.eqb_refl, andb_true_r.
  now destruct l.
Qed.

Lemma nonempty_strs (l : list string) k (d : pydict) :
  dict_get (set_if (nonempty l) d k (Extractor.strs l)) k
  = match field_of (map JStr l) with
    | Some v => Some v
    | None => dict_get d k
    end.
Proof.
  rewrite dict_get_set_if, String.eqb_refl, andb_true_r.
  now destruct l.
Qed.

(** A key the three steps before the lists do not write. *)
Lemma steps_leave el number m1 m2 k :
  key_step el [("number", JInt number)] = Py.Ok m1 ->
  tempo_step el (time_step el m1) = Py.Ok m2 ->
  String.eqb k "number" = false -> String.eqb k "key_fifths" = false ->
  String.eqb k "time" = false -> String.eqb k "tempo" = false ->
  dict_get m2 k = None.
Proof.
  intros H2 H3 Hn Hk Ht Hp.
  rewrite (tempo_step_get _ _ _ _ H3 Hp), (time_step_get _ _ _ Ht).
  rewrite (key_step_get _ _ _ _ H2 Hk). cbn [dict_get]. now rewrite Hn.
Qed.

(** X11. The key_fifths field of a measure record comes from the first
    key element anywhere below the measure: the text of its fifths child
    converted by [int].  It is absent without a key element or without a
    fifths child; a fifths child whose text is no integer literal, an
    empty one included, leaves no record at all. *)
Theorem key_fifths_rule (measure_el : Element) (m : pydict) :
  OnTree.build_measure measure_el = Py.Ok m ->
  match ET.find measure_el [Self; Descendant "key"] with
  | Some key_el =>
      match ET.findtext key_el [Child "fifths"] with
      | Some fifths =>
          exists v, Py.int fifths = Py.Ok v
                    /\ dict_get m "key_fifths" = Some (JInt v)
      | None => dict_get m "key_fifths" = None
      end
  | None => dict_get m "key_fifths" = None
  end.
Proof.
  intro H. measure_parts H. skip_sets.
  rewrite (tempo_step_get _ _ _ _ H3) by reflexivity.
  rewrite time_step_get by reflexivity.
  unfold key_step in H2.
  destruct (ET.find measure_el _) as [key_el|];
    [|now injection H2 as <-].
  destruct (ET.findtext key_el _) as [fifths|];
    [|now injection H2 as <-].
  apply and_then_ok in H2. destruct H2 as [v [Hv H2]]. injection H2 as <-.
  exists v. split; [assumption|reflexivity].
Qed.

Lemma key_fifths_rule_witness :
  exists m v,
    OnTree.build_measure busy_measure = Py.Ok m
    /\ Py.int "-3" = Py.Ok v
    /\ dict_get m "key_fifths" = Some (JInt v).
Proof.
  destruct (key_fifths_rule busy_measure busy_record eq_refl) as [v [Hv Hm]].
  exists busy_record, v. split; [reflexivity|]. split; [exact Hv|exact Hm].
Defined.

(** X12. The time field of a measure record is ['beats/beat-type'], the
    two texts as they stand, read from the first time element anywhere
    below the measure; it is absent without a time element and when
    either text is missing or empty. *)
Theorem time_rule (measure_el : Element) (m : pydict) :
  OnTree.build_measure measure_el = Py.Ok m ->
  dict_get m "time"
  = match ET.find measure_el [Self; Descendant "time"] with
    | Some time_el =>
        match ET.findtext time_el [Child "beats"],
              ET.findtext time_el [Child "beat-type"] with
        | Some (String c b), Some (String c' t) =>
            Some (JStr (String c b ++ "/" ++ String c' t))
        | _, _ => None
        end
    | None => None
    end.
Proof.
  intro H. measure_parts H. skip_sets.
  rewrite (tempo_step_get _ _ _ _ H3) by reflexivity.
  assert (G : dict_get m1 "time" = None).
  { rewrite (key_step_get _ _ _ _ H2) by reflexivity. reflexivity. }
  unfold time_step. destruct (ET.find measure_el _) as [time_el|];
    [|exact G].
  rewrite dict_get_set_if, String.eqb_refl, andb_true_r.
  destruct (ET.findtext time_el [Child "beats"]) as [[|c b]|];
    try exact G;
    destruct (ET.findtext time_el [Child "beat-type"]) as [[|c' t]|];
    try exact G.
  reflexivity.
Qed.

Lemma time_rule_witness :
  exists m,
    OnTree.build_measure busy_measure = Py.Ok m
    /\ dict_get m "time" = Some (JStr "6/8").
Proof.
  exists busy_record. split; [reflexivity|].
  exact (time_rule busy_measure busy_record eq_refl).
Defined.

(** X13. The tempo field of a measure record comes from the first
    metronome element, the measure's own subtree read in document order,
    whose per-minute child has a text that is not empty: that text read
    as a float and truncated towards zero.  Metronomes before it without
    such a text are passed over, those after it are not read; without
    any, the field is absent. *)
Theorem tempo_rule (measure_el : Element) (m : pydict) :
  OnTree.build_measure measure_el = Py.Ok m ->
  (forall before metro after per_minute,
      ET.iter measure_el "metronome" = before ++ metro :: after ->
      Forall (fun x => Py.truthy (ET.findtext x [Child "per-minute"]) = false)
        before ->
      ET.findtext metro [Child "per-minute"] = Some per_minute ->
      per_minute <> "" ->
      exists x v,
        Py.float_of per_minute = Py.Ok x /\ Py.int_of_float x = Py.Ok v
        /\ dict_get m "tempo" = Some (JInt v))
  /\ (Forall (fun x => Py.truthy (ET.findtext x [Child "per-minute"]) = false)
        (ET.iter measure_el "metronome") ->
      dict_get m "tempo" = None).
Proof.
  intro H. measure_parts H. skip_sets. unfold tempo_step in H3. split.
  - intros before metro after pm Hsplit Hbefore Hpm Hne.
    rewrite Hsplit in H3.
    rewrite (find_first has_per_minute before metro after Hbefore) in H3.
    + rewrite Hpm in H3. cbn [Py.str_of] in H3.
      apply and_then_ok in H3. destruct H3 as [v [Hv H3]].
      apply and_then_ok in Hv. destruct Hv as [x [Hx Hv]].
      injection H3 as <-. exists x, v. repeat split; try assumption.
      now rewrite dict_get_set.
    + unfold has_per_minute. rewrite Hpm. now destruct pm.
  - intro Hnone.
    rewrite (find_all_false has_per_minute _ Hnone) in H3.
    injection H3 as <-. rewrite time_step_get by reflexivity.
    now rewrite (key_step_get _ _ _ _ H2) by reflexivity.
Qed.

Lemma tempo_rule_witness :
  exists m,
    OnTree.build_measure busy_measure = Py.Ok m
    /\ dict_get m "tempo" = Some (JInt 96).
Proof.
  exists busy_record. split; [reflexivity|].
  destruct (proj1 (tempo_rule busy_measure busy_record eq_refl)
              [silent_metronome] metronome_96 [] "96.7" eq_refl
              ltac:(repeat constructor) eq_refl
              ltac:(discriminate))
    as [x [v [Hx [Hv Hm]]]].
  vm_compute in Hx. injection Hx as <-.
  vm_compute in Hv. injection Hv as <-.
  exact Hm.
Defined.

(** *** The lists of a measure *)

Lemma wedge_entry_record w d :
  (if Py.truthy (ET.get w "number")
   then Py.and_then (Py.int (Py.str_of (ET.get w "number")))
          (fun v => Py.Ok (dict_set [("type", json_of_str (ET.get w "type"))]
                             "number" (JInt v)))
   else Py.Ok [("type", json_of_str (ET.get w "type"))]) = Py.Ok d ->
  wedge_record w d.
Proof.
  unfold wedge_record. destruct (ET.get w "number") as [[|c s]|]; cbn.
  - now intros [= <-].
  - intro H. apply and_then_ok in H. destruct H as [v [Hv H]].
    injection H as <-. now exists v.
  - now intros [= <-].
Qed.

(** X14. The wedges field of a measure record lists one record per wedge
    element found below a direction child of the measure, in document
    order: its type, null without one, and its number converted by [int]
    when the attribute is there and not empty.  The field is absent
    without any wedge; a number that is no integer literal leaves no
    measure record. *)
Theorem wedges_rule (measure_el : Element) (m : pydict) :
  OnTree.build_measure measure_el = Py.Ok m ->
  exists ws,
    Forall2 wedge_record
      (flat_map (ET.descendants_named "wedge")
         (ET.children_named "direction" measure_el)) ws
    /\ dict_get m "wedges" = field_of (map JDict ws).
Proof.
  intro H. measure_parts H. unfold wedges in H4.
  apply (collect_entries_ok _ JDict) in H4. destruct H4 as [l [Hl ->]].
  exists l. split.
  - revert Hl. apply Forall2_impl. intros w d Hw.
    apply wedge_entry_record. exact Hw.
  - skip_sets. rewrite nonempty_field.
    destruct (field_of _); [reflexivity|]. skip_sets.
    now apply (steps_leave measure_el number m1 m2).
Qed.

Lemma wedges_rule_witness :
  exists m,
    OnTree.build_measure busy_measure = Py.Ok m
    /\ exists ws, dict_get m "wedges" = field_of (map JDict ws)
                  /\ List.length ws = 2%nat.
Proof.
  exists busy_record. split; [reflexivity|].
  destruct (wedges_rule busy_measure busy_record eq_refl) as [ws [Hws Hm]].
  exists ws. split; [exact Hm|].
  apply Forall2_length in Hws.
  etransitivity; [symmetry; exact Hws|reflexivity].
Defined.

Lemma pedal_entry_record p : pedal_entry p = [JDict (pedal_record p)].
Proof.
  unfold pedal_entry, pedal_record.
  now destruct (ET.get p "line") as [[|c s]|].
Qed.

Lemma flat_map_singleton {A B} (f : A -> B) (g : A -> list B) (l : list A) :
  (forall x, g x = [f x]) -> flat_map g l = map f l.
Proof.
  intro H. induction l as [|x l IH]; cbn; [reflexivity|].
  now rewrite H, IH.
Qed.

(** X15. The pedals field of a measure record lists one record per pedal
    element found below a direction child of the measure, in document
    order: its type, null without one, and under [line] whether the line
    attribute is exactly [yes], when that attribute is there and not
    empty.  The field is absent without any pedal. *)
Theorem pedals_rule (measure_el : Element) (m : pydict) :
  OnTree.build_measure measure_el = Py.Ok m ->
  dict_get m "pedals"
  = field_of
      (map (fun p => JDict (pedal_record p))
         (flat_map (ET.descendants_named "pedal")
            (ET.children_named "direction" measure_el))).
Proof.
  intro H. measure_parts H. skip_sets. rewrite nonempty_field.
  unfold pedals at 1.
  rewrite (flat_map_singleton (fun p => JDict (pedal_record p)))
    by apply pedal_entry_record.
  fold (under_directions "pedal" measure_el).
  destruct (field_of _); [reflexivity|]. skip_sets.
  now apply (steps_leave measure_el number m1 m2).
Qed.

Lemma pedals_rule_witness :
  exists m,
    OnTree.build_measure busy_measure = Py.Ok m
    /\ dict_get m "pedals"
       = Some (JList [JDict [("type", JStr "start"); ("line", JBool false)]]).
Proof.
  exists busy_record. split; [reflexivity|].
  exact (pedals_rule busy_measure busy_record eq_refl).
Defined.

(** X16. The dynamics field of a measure record lists, for each direction
    child of the measure in turn, the bare tag names of the children of
    the first dynamics element below that direction; further dynamics
    elements of the same direction are not read.  The field is absent
    when the list is empty. *)
Theorem dynamics_rule (measure_el : Element) (m : pydict) :
  OnTree.build_measure measure_el = Py.Ok m ->
  dict_get m "dynamics"
  = field_of
      (map JStr
         (flat_map
            (fun dir_el =>
               match ET.descendants_named "dynamics" dir_el with
               | first :: _ => map (fun d => detag_name (tag d)) (children first)
               | [] => []
               end)
            (ET.children_named "direction" measure_el))).
Proof.
  intro H. measure_parts H. skip_sets. rewrite nonempty_strs.
  replace (flat_map _ (ET.children_named "direction" measure_el))
    with (dynamics measure_el).
  - destruct (field_of _); [reflexivity|]. skip_sets.
    now apply (steps_leave measure_el number m1 m2).
  - unfold dynamics. apply flat_map_ext. intro d.
    unfold dynamics_entry, ET.find. rewrite findall_descendant.
    now destruct (ET.descendants_named "dynamics" d).
Qed.

Lemma dynamics_rule_witness :
  exists m,
    OnTree.build_measure busy_measure = Py.Ok m
    /\ dict_get m "dynamics" = Some (JList [JStr "pp"]).
Proof.
  exists busy_record. split; [reflexivity|].
  exact (dynamics_rule busy_measure busy_record eq_refl).
Defined.

(** X17. The notes field of a measure record lists one note record per
    note child of the measure, notes at a greater depth left out, in
    document order; it is absent when the measure has no note child.  A
    note that yields no record leaves no measure record. *)
Theorem notes_rule (measure_el : Element) (m : pydict) :
  OnTree.build_measure measure_el = Py.Ok m ->
  exists ns,
    Forall2 (fun note_el n => OnTree.build_note note_el = Py.Ok n)
      (ET.children_named "note" measure_el) ns
    /\ dict_get m "notes" = field_of (map JDict ns).
Proof.
  intro H. measure_parts H. unfold notes in H5.
  apply (collect_entries_ok OnTree.build_note JDict) in H5.
  destruct H5 as [l [Hl ->]]. exists l. split; [exact Hl|].
  rewrite nonempty_field. destruct (field_of _); [reflexivity|]. skip_sets.
  now apply (steps_leave measure_el number m1 m2).
Qed.

Lemma notes_rule_witness :
  exists m,
    OnTree.build_measure busy_measure = Py.Ok m
    /\ exists ns,
         Forall2 (fun note_el n => OnTree.build_note note_el = Py.Ok n)
           [rest_note; dotted_note] ns
         /\ dict_get m "notes" = field_of (map JDict ns).
Proof.
  exists busy_record. split; [reflexivity|].
  exact (notes_rule busy_measure busy_record eq_refl).
Defined.

(** *** The keys of a measure record *)

Lemma key_step_keys el number m1 :
  key_step el [("number", JInt number)] = Py.Ok m1 ->
  subseq (keys m1) ["number"; "key_fifths"].
Proof.
  unfold key_step. intro H.
  destruct (ET.find el _); [|injection H as <-; cbn; left_out].
  destruct (ET.findtext _ _); [|injection H as <-; cbn; left_out].
  apply and_then_ok in H. destruct H as [v [_ H]]. injection H as <-.
  cbn. left_out.
Qed.

Lemma time_step_keys el m1 :
  subseq (keys m1) ["number"; "key_fifths"] ->
  subseq (keys (time_step el m1)) ["number"; "key_fifths"; "time"].
Proof.
  intro H. unfold time_step. destruct (ET.find el _); [one_more|no_more];
    assumption.
Qed.

Lemma tempo_step_keys el m m2 :
  subseq (keys m) ["number"; "key_fifths"; "time"] ->
  tempo_step el m = Py.Ok m2 ->
  subseq (keys m2) ["number"; "key_fifths"; "time"; "tempo"].
Proof.
  intros H H3. unfold tempo_step in H3. destruct (List.find _ _).
  - apply and_then_ok in H3. destruct H3 as [v [_ H3]]. injection H3 as <-.
    one_more. assumption.
  - injection H3 as <-. no_more. assumption.
Qed.

(** X18. The keys of a measure record: [number] first, then those of
    key_fifths, time, tempo, directions, wedges, pedals, dynamics and
    notes that the measure has, each once and in this order, and no
    other key. *)
Theorem measure_key_order (measure_el : Element) (m : pydict) :
  OnTree.build_measure measure_el = Py.Ok m ->
  exists rest, keys m = "number" :: rest /\ subseq rest measure_keys.
Proof.
  intro H.
  assert (Hn : exists v, dict_get m "number" = Some v).
  { pose proof H as H'. measure_parts H'. eexists.
    exact (Measures.dict_get_number _ _ _ _ _ _ _ H2 H3 eq_refl). }
  destruct Hn as [v Hn]. apply dict_get_In in Hn.
  apply headed; [|assumption|cbn; intuition discriminate].
  measure_parts H. unfold measure_keys.
  do 5 one_more.
  apply (tempo_step_keys measure_el (time_step measure_el m1)); [|assumption].
  apply time_step_keys. now apply (key_step_keys measure_el number).
Qed.

Lemma measure_key_order_witness :
  exists m rest,
    OnTree.build_measure busy_measure = Py.Ok m
    /\ keys m = "number" :: rest /\ subseq rest measure_keys.
Proof.
  destruct (measure_key_order busy_measure busy_record eq_refl)
    as [rest Hrest].
  now exists busy_record, rest.
Defined.

(** *** When a measure fails *)

(** X27. A measure yields no record in five cases only, and then with
    the error of the conversion that failed: its number attribute, the
    fifths of its first key, the per-minute text of the metronome that
    sets the tempo, the number attribute of a wedge below one of its
    direction children, or one of its note children. *)
Theorem measure_failure (measure_el : Element) (e : Py.exn) :
  OnTree.build_measure measure_el = Py.Raise e ->
  (exists s, ET.get measure_el "number" = Some s /\ Py.int s = Py.Raise e)
  \/ (exists key_el s,
         ET.find measure_el [Self; Descendant "key"] = Some key_el
         /\ ET.findtext key_el [Child "fifths"] = Some s
         /\ Py.int s = Py.Raise e)
  \/ (exists metro s,
         In metro (ET.iter measure_el "metronome")
         /\ ET.findtext metro [Child "per-minute"] = Some s
         /\ Py.and_then (Py.float_of s) Py.int_of_float = Py.Raise e)
  \/ (exists wedge_el s,
         In wedge_el
           (flat_map (ET.descendants_named "wedge")
              (ET.children_named "direction" measure_el))
         /\ ET.get wedge_el "number" = Some s
         /\ Py.int s = Py.Raise e)
  \/ (exists note_el,
         In note_el (ET.children_named "note" measure_el)
         /\ OnTree.build_note note_el = Py.Raise e).
Proof.
  rewrite build_measure_eq. unfold measure. intro H.
  apply and_then_raise in H. destruct H as [H|[number [_ H]]].
  { left. unfold measure_number in H.
    destruct (ET.get measure_el "number") as [s|]; [|discriminate].
    now exists s. }
  apply and_then_raise in H. destruct H as [H|[m1 [_ H]]].
  { right; left. unfold key_step in H.
    destruct (ET.find measure_el _) as [key_el|]; [|discriminate].
    destruct (ET.findtext key_el _) as [s|] eqn:Es; [|discriminate].
    apply and_then_raise in H. destruct H as [H|[v [_ H]]]; [|discriminate].
    now exists key_el, s. }
  apply and_then_raise in H. destruct H as [H|[m2 [_ H]]].
  { right; right; left. unfold tempo_step in H.
    destruct (List.find has_per_minute _) as [metro|] eqn:F; [|discriminate].
    apply find_some in F. destruct F as [Hin Hpm].
    apply and_then_raise in H. destruct H as [H|[v [_ H]]]; [|discriminate].
    unfold has_per_minute in Hpm.
    destruct (ET.findtext metro _) as [s|] eqn:Es; [|discriminate].
    exists metro, s. now repeat split. }
  apply and_then_raise in H. destruct H as [H|[ws [_ H]]].
  { right; right; right; left. unfold wedges in H.
    apply (collect_entries_raise _ JDict) in H.
    destruct H as [before [w [after [Hsplit [_ Hw]]]]].
    exists w. destruct (ET.get w "number") as [[|c s]|] eqn:En;
      cbn [Py.truthy Py.is_empty negb Py.str_of] in Hw; try discriminate.
    apply and_then_raise in Hw.
    destruct Hw as [Hw|[v [_ Hw]]]; [|discriminate].
    exists (String c s). repeat split; [|assumption].
    fold (under_directions "wedge" measure_el). rewrite Hsplit.
    apply in_elt. }
  apply and_then_raise in H. destruct H as [H|[ns [_ H]]]; [|discriminate].
  right; right; right; right. unfold notes in H.
  apply (collect_entries_raise OnTree.build_note JDict) in H.
  destruct H as [before [note_el [after [Hsplit [_ Hn]]]]].
  exists note_el. split; [|assumption]. rewrite Hsplit. apply in_elt.
Qed.

Lemma measure_failure_witness :
  exists s,
    ET.get Examples.measure_x1 "number" = Some s
    /\ Py.int s = Py.Raise Py.ValueError.
Proof.
  destruct (measure_failure Examples.measure_x1 Py.ValueError eq_refl)
    as [H|[[key_el [s [H _]]]|[[metro [s [H _]]]|[[w [s [H _]]]|[n [H _]]]]]].
  - exact H.
  - discriminate H.
  - destruct H.
  - destruct H.
  - destruct H.
Defined.

End MeasureMore.

(** ** The fields of a note record *)

Module NotesMore.
Import Closed Spec TreeFacts More MoreExamples Orders ScoreMore.
#[local] Open Scope list_scope.

(** The record as the two parts of [build_note] leave it. *)
Ltac note_parts H :=
  apply build_note_inv in H; destruct H as [?n0 [?H0 ->]].

(** A key written after voice, staff and pitch is not in the front
    part. *)
Ltac not_in_front H0 :=
  apply (note_front_keys _ _ _ H0); discriminate.

(** *** Voice, staff and pitch *)

Lemma note_back_voice el n : dict_get (note_back el n) "voice" = dict_get n "voice".
Proof. unfold note_back. destruct (List.find is_start _); now skip_sets. Qed.

Lemma note_back_staff el n : dict_get (note_back el n) "staff" = dict_get n "staff".
Proof. unfold note_back. destruct (List.find is_start _); now skip_sets. Qed.

Lemma note_back_pitch el n : dict_get (note_back el n) "pitch" = dict_get n "pitch".
Proof. unfold note_back. destruct (List.find is_start _); now skip_sets. Qed.

(** The three stages of the front part. *)
Lemma note_front_inv el n0 :
  note_front el = Py.Ok n0 ->
  exists n1 n2,
    (if Py.truthy (ET.findtext el [Child "voice"])
     then Py.and_then (Py.int (Py.str_of (ET.findtext el [Child "voice"])))
            (fun v => Py.Ok (dict_set [] "voice" (JInt v)))
     else Py.Ok []) = Py.Ok n1
    /\ (if Py.truthy (ET.findtext el [Child "staff"])
        then Py.and_then (Py.int (Py.str_of (ET.findtext el [Child "staff"])))
               (fun v => Py.Ok (dict_set n1 "staff" (JInt v)))
        else Py.Ok n1) = Py.Ok n2
    /\ match ET.find el [Child "rest"], ET.find el [Child "pitch"] with
       | Some _, _ => Py.Ok (dict_set n2 "pitch" (JStr "rest"))
       | None, Some p =>
           Py.and_then (OnTree.pitch_name (Some p))
             (fun p => Py.Ok (dict_set n2 "pitch" (json_of_str p)))
       | None, None => Py.Ok n2
       end = Py.Ok n0.
Proof.
  unfold note_front. intro H.
  apply and_then_ok in H. destruct H as [n1 [H1 H]].
  apply and_then_ok in H. destruct H as [n2 [H2 H]].
  now exists n1, n2.
Qed.

Lemma voice_stage el n1 :
  (if Py.truthy (ET.findtext el [Child "voice"])
   then Py.and_then (Py.int (Py.str_of (ET.findtext el [Child "voice"])))
          (fun v => Py.Ok (dict_set [] "voice" (JInt v)))
   else Py.Ok []) = Py.Ok n1 ->
  match ET.findtext el [Child "voice"] with
  | Some (String c s) =>
      exists v, Py.int (String c s) = Py.Ok v /\ n1 = [("voice", JInt v)]
  | _ => n1 = []
  end.
Proof.
  destruct (ET.findtext el [Child "voice"]) as [[|c s]|]; cbn.
  - now intros [= <-].
  - intro H. apply and_then_ok in H. destruct H as [v [Hv H]].
    injection H as <-. now exists v.
  - now intros [= <-].
Qed.

Lemma staff_stage el n1 n2 :
  (if Py.truthy (ET.findtext el [Child "staff"])
   then Py.and_then (Py.int (Py.str_of (ET.findtext el [Child "staff"])))
          (fun v => Py.Ok (dict_set n1 "staff" (JInt v)))
   else Py.Ok n1) = Py.Ok n2 ->
  match ET.findtext el [Child "staff"] with
  | Some (String c s) =>
      exists v, Py.int (String c s) = Py.Ok v
                /\ n2 = dict_set n1 "staff" (JInt v)
  | _ => n2 = n1
  end.
Proof.
  destruct (ET.findtext el [Child "staff"]) as [[|c s]|]; cbn.
  - now intros [= <-].
  - intro H. apply and_then_ok in H. destruct H as [v [Hv H]].
    injection H as <-. now exists v.
  - now intros [= <-].
Qed.

Lemma pitch_stage_get el n2 n0 k :
  match ET.find el [Child "rest"], ET.find el [Child "pitch"] with
  | Some _, _ => Py.Ok (dict_set n2 "pitch" (JStr "rest"))
  | None, Some p =>
      Py.and_then (OnTree.pitch_name (Some p))
        (fun p => Py.Ok (dict_set n2 "pitch" (json_of_str p)))
  | None, None => Py.Ok n2
  end = Py.Ok n0 ->
  String.eqb k "pitch" = false -> dict_get n0 k = dict_get n2 k.
Proof.
  intros H Hk. destruct (ET.find el [Child "rest"]).
  - injection H as <-. now rewrite dict_get_set, Hk.
  - destruct (ET.find el [Child "pitch"]).
    + apply and_then_ok in H. destruct H as [p [_ H]]. injection H as <-.
      now rewrite dict_get_set, Hk.
    + now injection H as <-.
Qed.

(** X19. The voice and the staff of a note record are the texts of the
    voice and staff children converted by [int]; each is absent when the
    child is missing or its text is empty.  A text that is no integer
    literal leaves no note record. *)
Theorem voice_staff_rule (note_el : Element) (n : pydict) :
  OnTree.build_note note_el = Py.Ok n ->
  match ET.findtext note_el [Child "voice"] with
  | Some (String c s) =>
      exists v, Py.int (String c s) = Py.Ok v
                /\ dict_get n "voice" = Some (JInt v)
  | _ => dict_get n "voice" = None
  end
  /\ match ET.findtext note_el [Child "staff"] with
     | Some (String c s) =>
         exists v, Py.int (String c s) = Py.Ok v
                   /\ dict_get n "staff" = Some (JInt v)
     | _ => dict_get n "staff" = None
     end.
Proof.
  intro H. note_parts H. rewrite note_back_voice, note_back_staff.
  apply note_front_inv in H0. destruct H0 as [n1 [n2 [H1 [H2 H3]]]].
  rewrite !(pitch_stage_get _ _ _ _ H3) by reflexivity.
  apply voice_stage in H1. apply staff_stage in H2. split.
  - destruct (ET.findtext note_el [Child "voice"]) as [[|c s]|].
    + subst n1.
      destruct (ET.findtext note_el [Child "staff"]) as [[|c' s']|];
        [now subst| |now subst].
      destruct H2 as [v' [_ ->]]. reflexivity.
    + destruct H1 as [v [Hv ->]]. exists v. split; [assumption|].
      destruct (ET.findtext note_el [Child "staff"]) as [[|c' s']|];
        [now subst| |now subst].
      destruct H2 as [v' [_ ->]]. reflexivity.
    + subst n1.
      destruct (ET.findtext note_el [Child "staff"]) as [[|c' s']|];
        [now subst| |now subst].
      destruct H2 as [v' [_ ->]]. reflexivity.
  - destruct (ET.findtext note_el [Child "staff"]) as [[|c' s']|].
    + subst n2.
      destruct (ET.findtext note_el [Child "voice"]) as [[|c s]|];
        [now subst| |now subst].
      destruct H1 as [v [_ ->]]. reflexivity.
    + destruct H2 as [v' [Hv' ->]]. exists v'. split; [assumption|].
      now rewrite dict_get_set.
    + subst n2.
      destruct (ET.findtext note_el [Child "voice"]) as [[|c s]|];
        [now subst| |now subst].
      destruct H1 as [v [_ ->]]. reflexivity.
Qed.

Lemma voice_staff_rule_witness :
  exists n,
    OnTree.build_note rest_note = Py.Ok n
    /\ (exists v, Py.int "1" = Py.Ok v /\ dict_get n "voice" = Some (JInt v))
    /\ dict_get n "staff" = None.
Proof.
  exists rest_record. split; [reflexivity|].
  exact (voice_staff_rule rest_note rest_record eq_refl).
Defined.

(** X20. The pitch of a note record, and when a note fails.  A note
    with a rest child gets ['rest'], whatever pitch child it also has.
    Without a rest child the pitch is what the Pitch Decoder gives for
    the first pitch child, and the field is absent when the note has
    neither.  A note yields no record only when its voice or its staff
    is no integer literal, or when it has no rest child and the Pitch
    Decoder fails on its pitch: beside a rest, a pitch is not decoded and
    cannot make the note fail. *)
Theorem note_pitch_rule (note_el : Element) :
  (forall n,
      OnTree.build_note note_el = Py.Ok n ->
      match ET.find note_el [Child "rest"], ET.find note_el [Child "pitch"] with
      | Some _, _ => dict_get n "pitch" = Some (JStr "rest")
      | None, Some p =>
          exists name, OnTree.pitch_name (Some p) = Py.Ok (Some name)
                       /\ dict_get n "pitch" = Some (JStr name)
      | None, None => dict_get n "pitch" = None
      end)
  /\ (forall e,
        OnTree.build_note note_el = Py.Raise e ->
        (exists s,
            (ET.findtext note_el [Child "voice"] = Some s
             \/ ET.findtext note_el [Child "staff"] = Some s)
            /\ Py.int s = Py.Raise e)
        \/ (ET.find note_el [Child "rest"] = None
            /\ exists p, ET.find note_el [Child "pitch"] = Some p
                         /\ OnTree.pitch_name (Some p) = Py.Raise e)).
Proof.
  split.
  - intros n H. note_parts H. rewrite note_back_pitch.
    apply note_front_inv in H0. destruct H0 as [n1 [n2 [H1 [H2 H3]]]].
    destruct (ET.find note_el [Child "rest"]).
    + injection H3 as <-. now rewrite dict_get_set.
    + destruct (ET.find note_el [Child "pitch"]) as [p|].
      * apply and_then_ok in H3. destruct H3 as [r [Hr H3]].
        injection H3 as <-. rewrite dict_get_set. cbn [String.eqb].
        rewrite Hr. rewrite Pitch.pitch_name_eq in Hr. unfold pitch in Hr.
        apply and_then_ok in Hr. destruct Hr as [key [_ Hr]].
        injection Hr as <-. eexists. now split.
      * injection H3 as <-.
        apply voice_stage in H1. apply staff_stage in H2.
        destruct (ET.findtext note_el [Child "voice"]) as [[|c s]|];
          [subst n1| destruct H1 as [v [_ ->]] |subst n1];
          (destruct (ET.findtext note_el [Child "staff"]) as [[|c' s']|];
           [now subst| destruct H2 as [v' [_ ->]]; reflexivity |now subst]).
  - intros e H. rewrite build_note_eq in H.
    apply and_then_raise in H. destruct H as [H|[n [_ H]]]; [|discriminate].
    unfold note_front in H.
    apply and_then_raise in H. destruct H as [H|[n1 [_ H]]].
    + left.
      destruct (ET.findtext note_el [Child "voice"]) as [[|c s]|];
        cbn [Py.truthy Py.is_empty negb Py.str_of] in H; try discriminate.
      apply and_then_raise in H. destruct H as [H|[v [_ H]]]; [|discriminate].
      exists (String c s). split; [now left|exact H].
    + apply and_then_raise in H. destruct H as [H|[n2 [_ H]]].
      * left.
        destruct (ET.findtext note_el [Child "staff"]) as [[|c s]|];
          cbn [Py.truthy Py.is_empty negb Py.str_of] in H; try discriminate.
        apply and_then_raise in H.
        destruct H as [H|[v [_ H]]]; [|discriminate].
        exists (String c s). split; [now right|exact H].
      * right. destruct (ET.find note_el [Child "rest"]); [discriminate|].
        destruct (ET.find note_el [Child "pitch"]) as [p|]; [|discriminate].
        split; [reflexivity|]. exists p. split; [reflexivity|].
        apply and_then_raise in H.
        destruct H as [H|[r [_ H]]]; [exact H|discriminate].
Qed.

Lemma note_pitch_rule_witness :
  (exists n,
      OnTree.build_note rest_note = Py.Ok n
      /\ dict_get n "pitch" = Some (JStr "rest"))
  /\ (exists s,
        (ET.findtext rest_bad_voice [Child "voice"] = Some s
         \/ ET.findtext rest_bad_voice [Child "staff"] = Some s)
        /\ Py.int s = Py.Raise Py.ValueError).
Proof.
  split.
  - exists rest_record. split; [reflexivity|].
    exact (proj1 (note_pitch_rule rest_note) rest_record eq_refl).
  - destruct (proj2 (note_pitch_rule rest_bad_voice) Py.ValueError eq_refl)
      as [Hs|[Hrest _]]; [exact Hs|discriminate Hrest].
Defined.

(** *** The rest of a note *)

Lemma findall_grandchildren el name :
  ET.findall el [Self; Descendant name; AnyChild]
  = flat_map children (ET.descendants_named name el).
Proof. cbn. now rewrite app_nil_r. Qed.

Lemma find_child el name :
  ET.find el [Child name] = hd_error (ET.children_named name el).
Proof. unfold ET.find. now rewrite findall_child. Qed.

Lemma texts_entries els : texts els = flat_map text_entry els.
Proof.
  unfold texts. apply flat_map_ext. intro el. unfold text_entry.
  now destruct (text el) as [[|c s]|].
Qed.

(** X21. The plain fields of a note record.  [type] is the text of the
    type child as it stands, absent when missing or empty; [dots] is the
    number of dot children, absent when there is none; [chord] and
    [grace] are true when the note has such a child and absent
    otherwise, never false. *)
Theorem note_plain_fields (note_el : Element) (n : pydict) :
  OnTree.build_note note_el = Py.Ok n ->
  dict_get n "type" = text_field (ET.findtext note_el [Child "type"])
  /\ dict_get n "dots"
     = match ET.children_named "dot" note_el with
       | [] => None
       | dots => Some (JInt (Z.of_nat (List.length dots)))
       end
  /\ dict_get n "chord"
     = match ET.children_named "chord" note_el with
       | [] => None
       | _ => Some (JBool true)
       end
  /\ dict_get n "grace"
     = match ET.children_named "grace" note_el with
       | [] => None
       | _ => Some (JBool true)
       end.
Proof.
  intro H. note_parts H. unfold note_back.
  rewrite !find_child, !findall_child.
  assert (Ht : dict_get n0 "type" = None) by not_in_front H0.
  assert (Hd : dict_get n0 "dots" = None) by not_in_front H0.
  assert (Hc : dict_get n0 "chord" = None) by not_in_front H0.
  assert (Hg : dict_get n0 "grace" = None) by not_in_front H0.
  destruct (List.find is_start _); repeat split; skip_sets.
  all: rewrite dict_get_set_if, String.eqb_refl, andb_true_r; skip_sets.
  all: try (destruct (ET.findtext note_el [Child "type"]) as [[|c s]|];
            cbn; first [reflexivity|assumption]).
  all: try (destruct (ET.children_named "dot" note_el); cbn;
            first [reflexivity|assumption]).
  all: try (destruct (ET.children_named "chord" note_el); cbn;
            first [reflexivity|assumption]).
  all: try (destruct (ET.children_named "grace" note_el); cbn;
            first [reflexivity|assumption]).
Qed.

Lemma note_plain_fields_witness :
  exists n,
    OnTree.build_note dotted_note = Py.Ok n
    /\ dict_get n "type" = Some (JStr "quarter")
    /\ dict_get n "dots" = Some (JInt 2)
    /\ dict_get n "chord" = Some (JBool true)
    /\ dict_get n "grace" = None.
Proof.
  exists dotted_record. split; [reflexivity|].
  exact (note_plain_fields dotted_note dotted_record eq_refl).
Defined.

(** X22. The list fields of a note record.  [beam] holds the text of
    each beam child that has one, stripped; [artic] and [ornament] hold
    the bare tag names of the children of every articulations,
    respectively ornaments, element anywhere below the note, in document
    order.  Each is absent when its list is empty. *)
Theorem note_list_fields (note_el : Element) (n : pydict) :
  OnTree.build_note note_el = Py.Ok n ->
  dict_get n "beam"
  = field_of
      (map JStr (flat_map text_entry (ET.children_named "beam" note_el)))
  /\ dict_get n "artic"
     = field_of
         (map JStr
            (map (fun el => detag_name (tag el))
               (flat_map children
                  (ET.descendants_named "articulations" note_el))))
  /\ dict_get n "ornament"
     = field_of
         (map JStr
            (map (fun el => detag_name (tag el))
               (flat_map children
                  (ET.descendants_named "ornaments" note_el)))).
Proof.
  intro H. note_parts H. unfold note_back.
  rewrite !findall_grandchildren, !findall_child, texts_entries.
  unfold names.
  assert (Hb : dict_get n0 "beam" = None) by not_in_front H0.
  assert (Ha : dict_get n0 "artic" = None) by not_in_front H0.
  assert (Ho : dict_get n0 "ornament" = None) by not_in_front H0.
  destruct (List.find is_start _); repeat split; skip_sets.
  all: rewrite MeasureMore.nonempty_strs.
  all: destruct (field_of _); [reflexivity|]; skip_sets; assumption.
Qed.

Lemma note_list_fields_witness :
  exists n,
    OnTree.build_note dotted_note = Py.Ok n
    /\ dict_get n "beam" = Some (JList [JStr "begin"])
    /\ dict_get n "artic" = Some (JList [JStr "staccato"; JStr "accent"])
    /\ dict_get n "ornament" = Some (JList [JStr "trill-mark"]).
Proof.
  exists dotted_record. split; [reflexivity|].
  exact (note_list_fields dotted_note dotted_record eq_refl).
Defined.

(** X23. The slur of a note record is the type attribute of the first
    slur element anywhere below the note, in document order, whose type
    is there and not empty; slurs before it without such a type are
    passed over and slurs after it are not read.  Without any, the field
    is absent. *)
Theorem slur_first_wins (note_el : Element) (n : pydict) :
  OnTree.build_note note_el = Py.Ok n ->
  (forall before slur after slur_type,
      ET.descendants_named "slur" note_el = before ++ slur :: after ->
      Forall (fun s => Py.truthy (ET.get s "type") = false) before ->
      ET.get slur "type" = Some slur_type -> slur_type <> "" ->
      dict_get n "slur" = Some (JStr slur_type))
  /\ (Forall (fun s => Py.truthy (ET.get s "type") = false)
        (ET.descendants_named "slur" note_el) ->
      dict_get n "slur" = None).
Proof.
  intro H. note_parts H.
  assert (G : dict_get (note_back note_el n0) "slur"
              = match List.find carries_type
                        (ET.descendants_named "slur" note_el) with
                | Some t => Some (JStr (Py.str_of (ET.get t "type")))
                | None => None
                end).
  { unfold note_back. rewrite (findall_descendant note_el "slur").
    destruct (List.find is_start _); skip_sets;
      rewrite dict_get_first_typed;
      (destruct (List.find carries_type _); [reflexivity|]);
      skip_sets; not_in_front H0. }
  rewrite G. split.
  - intros before slur after ty Hsplit Hbefore Hty Hne.
    rewrite Hsplit, (find_first carries_type before slur after Hbefore).
    + now rewrite Hty.
    + unfold carries_type. rewrite Hty. now destruct ty.
  - intro Hnone. now rewrite (find_all_false carries_type _ Hnone).
Qed.

Lemma slur_first_wins_witness :
  exists n,
    OnTree.build_note dotted_note = Py.Ok n
    /\ dict_get n "slur" = Some (JStr "stop").
Proof.
  exists dotted_record. split; [reflexivity|].
  exact (proj1 (slur_first_wins dotted_note dotted_record eq_refl)
           [Elem "slur" [] None []]
           (Elem "slur" [("type", "stop")] None []) [] "stop"
           eq_refl ltac:(repeat constructor) eq_refl ltac:(discriminate)).
Defined.

(** *** The keys of a note record *)

Lemma note_front_order el n0 :
  note_front el = Py.Ok n0 -> subseq (keys n0) ["voice"; "staff"; "pitch"].
Proof.
  intro H. apply note_front_inv in H. destruct H as [n1 [n2 [H1 [H2 H3]]]].
  assert (K1 : subseq (keys n1) ["voice"]).
  { apply voice_stage in H1.
    destruct (ET.findtext el [Child "voice"]) as [[|c s]|];
      [subst n1; left_out|destruct H1 as [v [_ ->]]; left_out
      |subst n1; left_out]. }
  assert (K2 : subseq (keys n2) ["voice"; "staff"]).
  { apply staff_stage in H2.
    destruct (ET.findtext el [Child "staff"]) as [[|c s]|];
      [subst n2; now no_more|destruct H2 as [v [_ ->]]; now one_more
      |subst n2; now no_more]. }
  destruct (ET.find el [Child "rest"]).
  - injection H3 as <-. now one_more.
  - destruct (ET.find el [Child "pitch"]).
    + apply and_then_ok in H3. destruct H3 as [p [_ H3]].
      injection H3 as <-. now one_more.
    + injection H3 as <-. now no_more.
Qed.

(** X24. The keys of a note record are among voice, staff, pitch, type,
    dots, chord, beam, grace, tie, artic, ornament, slur and tuplet, each
    at most once and in this order. *)
Theorem note_key_order (note_el : Element) (n : pydict) :
  OnTree.build_note note_el = Py.Ok n -> subseq (keys n) note_keys.
Proof.
  intro H. note_parts H. apply note_front_order in H0.
  unfold note_back, note_keys.
  destruct (List.find is_start _); [one_more|no_more]; do 9 one_more;
    exact H0.
Qed.

Lemma note_key_order_witness :
  exists n,
    OnTree.build_note dotted_note = Py.Ok n /\ subseq (keys n) note_keys.
Proof.
  exists dotted_record. split; [reflexivity|].
  exact (note_key_order dotted_note dotted_record eq_refl).
Defined.

End NotesMore.

(** ** Stripping, then extracting *)

Module Composition.
Import Stripper StripperFacts Closed TreeFacts More MoreExamples.
#[local] Open Scope list_scope.

(** *** Without a denylisted element the pass is [bare] *)

Lemma strip_children_bare cs :
  Forall (fun c => strip_attributes (strip_tree c) = bare c) cs ->
  Forall element_kept cs ->
  strip_children cs = map bare cs.
Proof.
  induction 1 as [|c cs Hc _ IH]; intro Hk; cbn [strip_children map];
    [reflexivity|].
  inversion Hk as [|? ? Hkc Hkcs]; subst. unfold element_kept in Hkc.
  now rewrite Hkc, Hc, IH.
Qed.

Lemma Forall_below (P : Element -> Prop) cs :
  Forall P (flat_map ET.iter_all cs) ->
  Forall P cs /\ Forall (fun c => Forall P (ET.descendants c)) cs.
Proof.
  induction cs as [|c cs IH]; cbn [flat_map]; intro H;
    [split; constructor|].
  apply Forall_app in H. destruct H as [H1 H2].
  rewrite Measures.iter_all_eq in H1. inversion H1; subst.
  destruct (IH H2). split; now constructor.
Qed.

Lemma strip_tree_bare e :
  Forall element_kept (ET.descendants e) ->
  strip_attributes (strip_tree e) = bare e.
Proof.
  induction e as [t a x cs IH] using Element_tree_ind. intro Hk.
  rewrite strip_tree_eq. cbn [strip_attributes bare]. f_equal.
  unfold ET.descendants in Hk. cbn [children] in Hk.
  apply Forall_below in Hk. destruct Hk as [Hk Hbelow].
  apply strip_children_bare; [|assumption].
  clear Hk. induction cs as [|c cs IHcs]; [constructor|].
  inversion IH; subst. inversion Hbelow; subst.
  constructor; [auto|now apply IHcs].
Qed.

Lemma strip_document_bare root :
  Forall element_kept (ET.descendants root) -> strip_document root = bare root.
Proof.
  intro H. unfold strip_document.
  rewrite <- strip_attributes_strip_tree. now apply strip_tree_bare.
Qed.

(** *** What the element API sees of a bare tree *)

Lemma tag_bare e : tag (bare e) = tag e.
Proof. now destruct e. Qed.

Lemma text_bare e : text (bare e) = text e.
Proof. now destruct e. Qed.

Lemma children_bare e : children (bare e) = map bare (children e).
Proof. now destruct e. Qed.

Lemma dict_get_filter {V} (p : string * V -> bool) (d : list (string * V)) k :
  (forall v, p (k, v) = true) ->
  dict_get (filter p d) k = dict_get d k.
Proof.
  intro H. induction d as [|[k0 v0] d IH]; cbn; [reflexivity|].
  destruct (String.eqb k k0) eqn:E.
  - apply String.eqb_eq in E. subst k0. rewrite H. cbn.
    now rewrite String.eqb_refl.
  - destruct (p (k0, v0)); cbn; [now rewrite E|assumption].
Qed.

Lemma get_bare e k :
  mem k STRIP_ATTRS = false -> ET.get (bare e) k = ET.get e k.
Proof.
  intro H. destruct e as [t a x cs]. unfold ET.get. cbn [bare attrib].
  rewrite strip_attrib_filter. apply dict_get_filter.
  intro v. cbn [fst]. now rewrite H.
Qed.

Lemma flat_map_map_bare {B} (f : Element -> list B) (g : B -> B) l :
  Forall (fun c => f (bare c) = map g (f c)) l ->
  flat_map f (map bare l) = map g (flat_map f l).
Proof.
  induction 1 as [|c l Hc _ IH]; cbn; [reflexivity|].
  now rewrite map_app, Hc, IH.
Qed.

Lemma iter_all_bare e : ET.iter_all (bare e) = map bare (ET.iter_all e).
Proof.
  induction e as [t a x cs IH] using Element_tree_ind.
  cbn [bare ET.iter_all map]. f_equal.
  now apply flat_map_map_bare.
Qed.

Lemma filter_tag_bare name l :
  filter (ET.has_tag name) (map bare l) = map bare (filter (ET.has_tag name) l).
Proof.
  induction l as [|c l IH]; cbn [map filter]; [reflexivity|].
  replace (ET.has_tag name (bare c)) with (ET.has_tag name c)
    by (unfold ET.has_tag; now rewrite tag_bare).
  destruct (ET.has_tag name c); cbn [map]; now rewrite IH.
Qed.

Lemma iter_bare e name : ET.iter (bare e) name = map bare (ET.iter e name).
Proof. unfold ET.iter. now rewrite iter_all_bare, filter_tag_bare. Qed.

Lemma descendants_bare e : ET.descendants (bare e) = map bare (ET.descendants e).
Proof.
  unfold ET.descendants. rewrite children_bare.
  apply flat_map_map_bare. apply Forall_forall. intros c _.
  apply iter_all_bare.
Qed.

Lemma children_named_bare name e :
  ET.children_named name (bare e) = map bare (ET.children_named name e).
Proof.
  unfold ET.children_named. now rewrite children_bare, filter_tag_bare.
Qed.

Lemma descendants_named_bare name e :
  ET.descendants_named name (bare e) = map bare (ET.descendants_named name e).
Proof.
  unfold ET.descendants_named. now rewrite descendants_bare, filter_tag_bare.
Qed.

Lemma select_bare st l : ET.select st (map bare l) = map bare (ET.select st l).
Proof.
  destruct st as [|name|name|]; cbn [ET.select]; [reflexivity| | |];
    apply flat_map_map_bare; apply Forall_forall; intros c _.
  - apply children_named_bare.
  - apply descendants_named_bare.
  - apply children_bare.
Qed.

Lemma findall_bare e p : ET.findall (bare e) p = map bare (ET.findall e p).
Proof.
  unfold ET.findall. change [bare e] with (map bare [e]).
  generalize [e]. induction p as [|st p IH]; intro l; cbn [fold_left];
    [reflexivity|].
  now rewrite select_bare, IH.
Qed.

Lemma find_bare e p : ET.find (bare e) p = option_map bare (ET.find e p).
Proof.
  unfold ET.find. rewrite findall_bare. now destruct (ET.findall e p).
Qed.

Lemma findtext_bare e p : ET.findtext (bare e) p = ET.findtext e p.
Proof.
  unfold ET.findtext. rewrite find_bare.
  destruct (ET.find e p); cbn; [now rewrite text_bare|reflexivity].
Qed.

Lemma find_map_bare (p : Element -> bool) l :
  (forall x, p (bare x) = p x) ->
  List.find p (map bare l) = option_map bare (List.find p l).
Proof.
  intro H. induction l as [|x l IH]; cbn; [reflexivity|].
  rewrite H. now destruct (p x).
Qed.

Lemma flat_map_bare {B} (f : Element -> list B) l :
  (forall x, f (bare x) = f x) -> flat_map f (map bare l) = flat_map f l.
Proof.
  intro H. induction l as [|x l IH]; cbn; [reflexivity|]. now rewrite H, IH.
Qed.

Lemma collect_bare {B} (f : Element -> Py.result (list B)) l :
  (forall x, f (bare x) = f x) -> collect f (map bare l) = collect f l.
Proof.
  intro H. induction l as [|x l IH]; cbn; [reflexivity|]. now rewrite H, IH.
Qed.

(** *** What the extractor reads of a bare tree *)

Lemma carries_type_bare t : carries_type (bare t) = carries_type t.
Proof. unfold carries_type. now rewrite get_bare. Qed.

Lemma is_start_bare t : is_start (bare t) = is_start t.
Proof. unfold is_start. now rewrite get_bare. Qed.

Lemma texts_bare l : texts (map bare l) = texts l.
Proof.
  unfold texts. apply flat_map_bare. intro x. now rewrite text_bare.
Qed.

Lemma names_bare l : names (map bare l) = names l.
Proof.
  unfold names. rewrite map_map. apply map_ext. intro x.
  now rewrite tag_bare.
Qed.

Lemma first_typed_bare key l n :
  first_typed key (map bare l) n = first_typed key l n.
Proof.
  unfold first_typed. rewrite (find_map_bare _ _ carries_type_bare).
  destruct (List.find carries_type l); cbn; [now rewrite get_bare|reflexivity].
Qed.

Lemma pitch_name_bare p :
  OnTree.pitch_name (Some (bare p)) = OnTree.pitch_name (Some p).
Proof.
  rewrite !Pitch.pitch_name_eq. unfold pitch. now rewrite !findtext_bare.
Qed.

Lemma note_front_bare el : note_front (bare el) = note_front el.
Proof.
  unfold note_front. rewrite !findtext_bare, !find_bare.
  apply and_then_ext. intro n1. apply and_then_ext. intro n2.
  destruct (ET.find el [Child "rest"]); cbn [option_map]; [reflexivity|].
  destruct (ET.find el [Child "pitch"]); cbn [option_map]; [|reflexivity].
  now rewrite pitch_name_bare.
Qed.

Lemma is_some_bare (o : option Element) :
  is_some (option_map bare o) = is_some o.
Proof. now destruct o. Qed.

Lemma note_back_bare el n : note_back (bare el) n = note_back el n.
Proof.
  unfold note_back.
  rewrite !findtext_bare, !find_bare, !findall_bare, !is_some_bare.
  rewrite !texts_bare, !names_bare, !first_typed_bare, !length_map.
  rewrite (find_map_bare _ _ is_start_bare).
  now destruct (List.find is_start _).
Qed.

Lemma build_note_bare el : OnTree.build_note (bare el) = OnTree.build_note el.
Proof.
  rewrite !build_note_eq, note_front_bare.
  apply and_then_ext. intro n. now rewrite note_back_bare.
Qed.

Lemma under_directions_bare name el :
  under_directions name (bare el) = map bare (under_directions name el).
Proof.
  unfold under_directions. rewrite children_named_bare.
  apply flat_map_map_bare. apply Forall_forall. intros c _.
  apply descendants_named_bare.
Qed.

Lemma measure_number_bare el : measure_number (bare el) = measure_number el.
Proof. unfold measure_number. now rewrite get_bare. Qed.

Lemma key_step_bare el m : key_step (bare el) m = key_step el m.
Proof.
  unfold key_step. rewrite find_bare.
  destruct (ET.find el _); cbn [option_map]; [|reflexivity].
  now rewrite findtext_bare.
Qed.

Lemma time_step_bare el m : time_step (bare el) m = time_step el m.
Proof.
  unfold time_step. rewrite find_bare.
  destruct (ET.find el _); cbn [option_map]; [|reflexivity].
  now rewrite !findtext_bare.
Qed.

Lemma has_per_minute_bare metro : has_per_minute (bare metro) = has_per_minute metro.
Proof. unfold has_per_minute. now rewrite findtext_bare. Qed.

Lemma tempo_step_bare el m : tempo_step (bare el) m = tempo_step el m.
Proof.
  unfold tempo_step.
  rewrite iter_bare, (find_map_bare _ _ has_per_minute_bare).
  destruct (List.find has_per_minute _); cbn [option_map]; [|reflexivity].
  now rewrite findtext_bare.
Qed.

Lemma directions_bare el : directions (bare el) = directions el.
Proof. unfold directions. now rewrite under_directions_bare, texts_bare. Qed.

Lemma wedge_entry_bare w : wedge_entry (bare w) = wedge_entry w.
Proof. unfold wedge_entry. now rewrite !get_bare. Qed.

Lemma wedges_bare el : wedges (bare el) = wedges el.
Proof.
  unfold wedges. rewrite under_directions_bare.
  apply collect_bare, wedge_entry_bare.
Qed.

Lemma pedal_entry_bare p : pedal_entry (bare p) = pedal_entry p.
Proof. unfold pedal_entry. now rewrite !get_bare. Qed.

Lemma pedals_bare el : pedals (bare el) = pedals el.
Proof.
  unfold pedals. rewrite under_directions_bare.
  apply flat_map_bare, pedal_entry_bare.
Qed.

Lemma note_entry_bare note_el : note_entry (bare note_el) = note_entry note_el.
Proof. unfold note_entry. now rewrite build_note_bare. Qed.

Lemma notes_bare el : notes (bare el) = notes el.
Proof.
  unfold notes. rewrite children_named_bare.
  apply collect_bare, note_entry_bare.
Qed.

Lemma dynamics_entry_bare d : dynamics_entry (bare d) = dynamics_entry d.
Proof.
  unfold dynamics_entry. rewrite find_bare.
  destruct (ET.find d _); cbn [option_map]; [|reflexivity].
  now rewrite children_bare, names_bare.
Qed.

Lemma dynamics_bare el : dynamics (bare el) = dynamics el.
Proof.
  unfold dynamics. rewrite children_named_bare.
  apply flat_map_bare, dynamics_entry_bare.
Qed.

Lemma build_measure_bare el :
  OnTree.build_measure (bare el) = OnTree.build_measure el.
Proof.
  rewrite !build_measure_eq. unfold measure.
  rewrite measure_number_bare, wedges_bare, notes_bare, directions_bare,
    pedals_bare, dynamics_bare.
  apply and_then_ext. intro number. rewrite key_step_bare.
  apply and_then_ext. intro m. now rewrite time_step_bare, tempo_step_bare.
Qed.

Lemma creator_update_bare score c :
  creator_update score (bare c) = creator_update score c.
Proof.
  unfold creator_update, role. now rewrite get_bare, text_bare.
Qed.

Lemma fold_creators_bare cs score :
  fold_left creator_update (map bare cs) score
  = fold_left creator_update cs score.
Proof.
  revert score. induction cs as [|c cs IH]; intro score; cbn;
    [reflexivity|].
  now rewrite creator_update_bare, IH.
Qed.

Lemma measure_entry_bare el : measure_entry (bare el) = measure_entry el.
Proof. unfold measure_entry. now rewrite build_measure_bare. Qed.

Lemma build_json_bare root : OnTree.build_json (bare root) = OnTree.build_json root.
Proof.
  rewrite !Score.build_json_eq. unfold score, measures, score_head.
  unfold creators, title.
  rewrite iter_bare, (collect_bare _ _ measure_entry_bare).
  now rewrite !findtext_bare, findall_bare, fold_creators_bare.
Qed.

(** X25. On a document with no denylisted element below the root, the
    stripping pass changes nothing of what the extractor gives: the
    record, or the error, of the stripped document is that of the
    document as it was.  No attribute of the denylist is ever read by the
    extractor. *)
Theorem strip_then_extract (root : Element) :
  Forall element_kept (ET.descendants root) ->
  OnTree.build_json (strip_document root) = OnTree.build_json root.
Proof.
  intro H. rewrite (strip_document_bare root H). apply build_json_bare.
Qed.

Lemma strip_then_extract_witness :
  OnTree.build_json (strip_document colored_score)
  = OnTree.build_json colored_score
  /\ strip_document colored_score <> colored_score.
Proof.
  split; [|discriminate].
  apply strip_then_extract. cbn. repeat constructor.
Defined.

End Composition.

(** ** The attribute pass on a document held as state *)

Module InPlace.
Import Store TreeFacts More.
#[local] Open Scope list_scope.

Lemma nth_error_parts {A} (l : list A) i x :
  nth_error l i = Some x ->
  l = firstn i l ++ x :: skipn (S i) l /\ List.length (firstn i l) = i.
Proof.
  revert l. induction i as [|i IH]; intros [|y l] H; cbn in H;
    try discriminate.
  - injection H as ->. now split.
  - destruct (IH l H) as [E L]. split.
    + change (y :: l = y :: (firstn i l ++ x :: skipn (S i) l)).
      now f_equal.
    + cbn [firstn List.length]. now f_equal.
Qed.

Lemma nth_error_middle {A} (l1 l2 : list A) x :
  nth_error (l1 ++ x :: l2) (List.length l1) = Some x.
Proof. induction l1; cbn; [reflexivity|assumption]. Qed.

Lemma firstn_middle {A} (l1 l2 : list A) x :
  firstn (List.length l1) (l1 ++ x :: l2) = l1.
Proof. induction l1; cbn; [reflexivity|now f_equal]. Qed.

Lemma skipn_middle {A} (l1 l2 : list A) x :
  skipn (S (List.length l1)) (l1 ++ x :: l2) = l2.
Proof. induction l1; cbn; [reflexivity|assumption]. Qed.

Lemma replace_child {A} (cs : list A) i c c' :
  nth_error cs i = Some c ->
  nth_error (firstn i cs ++ c' :: skipn (S i) cs) i = Some c'
  /\ firstn i (firstn i cs ++ c' :: skipn (S i) cs) = firstn i cs
  /\ skipn (S i) (firstn i cs ++ c' :: skipn (S i) cs) = skipn (S i) cs.
Proof.
  intro H. destruct (nth_error_parts cs i c H) as [_ L].
  remember (firstn i cs) as l1 eqn:E1.
  remember (skipn (S i) cs) as l2 eqn:E2.
  clear E1 E2 H. subst i.
  now rewrite nth_error_middle, firstn_middle, skipn_middle.
Qed.

(** A handle that names no node cannot be written through. *)
Lemma replace_at_stale doc h f :
  node_at doc h = None -> replace_at doc h f = None.
Proof.
  revert doc. induction h as [|i h IH]; intros [t a x cs] H;
    cbn in *; [discriminate|].
  destruct (nth_error cs i) as [c|]; [|reflexivity].
  now rewrite (IH c H).
Qed.

(** Writing through a handle: the node is replaced, and a second write
    goes to what the first one left. *)
Lemma replace_at_node doc h f e :
  node_at doc h = Some e ->
  exists doc',
    replace_at doc h f = Some doc'
    /\ node_at doc' h = Some (f e)
    /\ forall g, replace_at doc' h g = replace_at doc h (fun x => g (f x)).
Proof.
  revert doc. induction h as [|i h IH]; intros [t a x cs] H.
  - cbn in H. injection H as <-. eexists. cbn. now repeat split.
  - cbn [node_at children] in H. cbn [replace_at].
    destruct (nth_error cs i) as [c|] eqn:Hc; [|discriminate].
    destruct (IH c H) as [c' [Hr [Hn Hg]]]. rewrite Hr.
    eexists. split; [reflexivity|].
    destruct (replace_child cs i c c' Hc) as [N [F S]].
    split.
    + cbn [node_at children]. now rewrite N.
    + intro g. cbn [replace_at]. now rewrite N, F, S, Hg.
Qed.

Lemma replace_at_ext doc h f g e :
  node_at doc h = Some e -> f e = g e ->
  replace_at doc h f = replace_at doc h g.
Proof.
  revert doc. induction h as [|i h IH]; intros [t a x cs] H E.
  - cbn in *. injection H as <-. now rewrite E.
  - cbn [node_at children] in H. cbn [replace_at].
    destruct (nth_error cs i) as [c|]; [|reflexivity].
    now rewrite (IH c H E).
Qed.

Lemma replace_at_same doc h e :
  node_at doc h = Some e -> replace_at doc h (fun x => x) = Some doc.
Proof.
  revert doc. induction h as [|i h IH]; intros [t a x cs] H.
  - reflexivity.
  - cbn [node_at children] in H. cbn [replace_at].
    destruct (nth_error cs i) as [c|] eqn:Hc; [|discriminate].
    rewrite (IH c H). destruct (nth_error_parts cs i c Hc) as [E _].
    now rewrite <- E.
Qed.

(** The loop of [strip_attributes] over the keys [ks], run in place. *)
Lemma strip_loop_at h ks doc e :
  node_at doc h = Some e ->
  exists doc',
    Extractor.for_in ks
      (fun attr _ =>
         if mem attr STRIP_ATTRS
         then _ <- del_attrib h attr ;; ret (Continue tt)
         else ret (Continue tt))
      tt doc
    = (Value tt, doc')
    /\ replace_at doc h
         (fun e =>
            Elem (tag e)
              (fold_left
                 (fun d attr =>
                    if mem attr STRIP_ATTRS then dict_del d attr else d)
                 ks (attrib e))
              (text e) (children e))
       = Some doc'.
Proof.
  revert doc e. induction ks as [|k ks IH]; intros doc e H.
  - exists doc. split; [reflexivity|]. cbn [fold_left].
    rewrite <- (replace_at_same doc h e H).
    apply (replace_at_ext doc h _ _ e H). now destruct e as [t a x cs].
  - cbn [Extractor.for_in bind ret store_monad]. unfold st_bind at 1.
    destruct (mem k STRIP_ATTRS) eqn:Hk.
    + unfold st_bind at 1. unfold del_attrib, update.
      destruct (replace_at_node doc h
                  (fun e => match e with
                            | Elem t a x cs => Elem t (dict_del a k) x cs
                            end) e H) as [doc1 [Hr [Hn Hg]]].
      rewrite Hr. unfold st_ret.
      destruct (IH doc1 _ Hn) as [doc' [Hrun Hrep]].
      exists doc'. split; [exact Hrun|].
      rewrite Hg in Hrep. rewrite <- Hrep.
      apply (replace_at_ext doc h _ _ e H).
      destruct e as [t a x cs].
      cbn [fold_left tag attrib text children]. now rewrite Hk.
    + unfold st_ret. destruct (IH doc e H) as [doc' [Hrun Hrep]].
      exists doc'. split; [exact Hrun|].
      rewrite <- Hrep. apply (replace_at_ext doc h _ _ e H).
      cbn [fold_left]. now rewrite Hk.
Qed.

(** X26. [strip_attributes] works in place and on one element.  Run on
    a handle of a document, it leaves the document with the element
    under the handle replaced by its stripped form, every other node,
    the children of that element among them, as it was; a handle that
    names no node changes nothing. *)
Theorem strip_attributes_at (doc : Element) (h : handle) :
  OnStore.strip_attributes h doc
  = match replace_at doc h Stripper.strip_attributes with
    | Some doc' => (Value tt, doc')
    | None => (Stale, doc)
    end.
Proof.
  unfold OnStore.strip_attributes. cbn [bind store_monad].
  unfold st_bind, read. destruct (node_at doc h) as [e|] eqn:H.
  - destruct (strip_loop_at h (keys (attrib e)) doc e H)
      as [doc' [Hrun Hrep]].
    transitivity (@Value unit tt, doc'); [exact Hrun|].
    rewrite (replace_at_ext doc h Stripper.strip_attributes
               (fun e0 =>
                  Elem (tag e0)
                    (fold_left
                       (fun d attr =>
                          if mem attr STRIP_ATTRS then dict_del d attr else d)
                       (keys (attrib e)) (attrib e0))
                    (text e0) (children e0)) e H).
    + now rewrite Hrep.
    + now destruct e as [t a x cs].
  - now rewrite (replace_at_stale doc h _ H).
Qed.

End InPlace.
